(** * web-exfiltration: trust policy engine, event log and analyzer

    A shallow embedding of the Go sources (events and policy state,
    script sets and policies, the session's event log, the log analyzer
    and the debugger-pause handler), followed by the properties proved
    about them.

    Conventions of the embedding.
    - A Go struct is a record inside a module named after the struct, so
      that fields keep their source names ([APIAccessEvent.EventId]).
    - A pointer field that the code tests against nil ([Initiator],
      [StackTrace], [Parent]) is an [option].  A pointer field that every
      constructor of the program fills ([PolicyState] through
      [Policy.State], [Request] through [NewNetworkRequest]) and a slice
      of pointers filled by [append] of a fresh literal are values.
    - A method returning a pointer into a policy ([*TrustGroup]) returns
      the index of the group in [trustGroups].
    - [log.Println] output is not part of the model. *)

From Stdlib Require Import List String ZArith Bool Lia.
Import ListNotations.

Local Open Scope string_scope.
Local Open Scope list_scope.

(** ** Faults

    [log.Panic] and run-time panics end the enclosing handler. *)

Inductive fault : Type :=
| IndexOutOfRange
| LogPanic (msg : string).

Inductive result (A : Type) : Type :=
| Ok (a : A)
| Panic (f : fault).

Arguments Ok {A} a.
Arguments Panic {A} f.

(** ** Structs used in events *)

Module NetworkRequest.
Record t : Type := mk {
  URL : string;
  Method : string;
  HasPostData : bool;
  IsLinkPreload : bool
}.
End NetworkRequest.

Module CallFrame.
Record t : Type := mk {
  FunctionName : string;
  ScriptId : string;
  URL : string;
  LineNumber : Z;
  ColumnNumber : Z
}.
End CallFrame.

Module StackTrace.
#[local] Set Warnings "-register-all".
Inductive t : Type := mk {
  Description : string;
  CallFrames : list CallFrame.t;
  Parent : option t;
  ParentId : string
}.
End StackTrace.

Module Initiator.
Record t : Type := mk {
  Type_ : string;
  StackTrace : option StackTrace.t;
  URL : string;
  LineNumber : Z
}.
End Initiator.

Module RemoteScript.
Record t : Type := mk {
  ScriptId : string;
  URL : string
}.
End RemoteScript.

Module InlineScript.
Record t : Type := mk {
  ScriptId : string;
  Hash : string
}.
End InlineScript.

Module TrustGroupState.
Record t : Type := mk {
  Trusted : bool;
  RemoteScripts : list RemoteScript.t;
  InlineScripts : list InlineScript.t
}.
End TrustGroupState.

Module PolicyState.
Record t : Type := mk {
  PolicyId : string;
  TrustGroups : list TrustGroupState.t
}.
End PolicyState.

(** ** The five event kinds *)

Module NetworkRequestInterceptedEvent.
Record t : Type := mk {
  EventId : Z;
  Timestamp : Z;
  EventType : string;
  PolicyId : string;
  TargetId : string;
  FrameId : string;
  ResourceType : string;
  IsNavigationRequest : bool;
  RedirectURL : string;
  Request : NetworkRequest.t;
  PolicyState : PolicyState.t
}.
Definition setEventId (v : t) (n : Z) : t :=
  mk n (Timestamp v) (EventType v) (PolicyId v) (TargetId v) (FrameId v)
     (ResourceType v) (IsNavigationRequest v) (RedirectURL v) (Request v)
     (PolicyState v).
End NetworkRequestInterceptedEvent.

Module NetworkRequestWillBeSentEvent.
Record t : Type := mk {
  EventId : Z;
  Timestamp : Z;
  EventType : string;
  PolicyId : string;
  TargetId : string;
  Initiator : option Initiator.t;
  LoaderId : string;
  FrameId : string;
  HasUserGesture : bool;
  ResourceType : string;
  DocumentURL : string;
  Request : NetworkRequest.t;
  PolicyState : PolicyState.t
}.
Definition setEventId (v : t) (n : Z) : t :=
  mk n (Timestamp v) (EventType v) (PolicyId v) (TargetId v) (Initiator v)
     (LoaderId v) (FrameId v) (HasUserGesture v) (ResourceType v)
     (DocumentURL v) (Request v) (PolicyState v).
End NetworkRequestWillBeSentEvent.

Module APIAccessEvent.
Record t : Type := mk {
  EventId : Z;
  Timestamp : Z;
  EventType : string;
  PolicyId : string;
  TargetId : string;
  APIName : string;
  ScriptIdStack : list string;
  PolicyState : PolicyState.t
}.
Definition setEventId (v : t) (n : Z) : t :=
  mk n (Timestamp v) (EventType v) (PolicyId v) (TargetId v) (APIName v)
     (ScriptIdStack v) (PolicyState v).
End APIAccessEvent.

Module DebuggerScriptParsedEvent.
Record t : Type := mk {
  EventId : Z;
  Timestamp : Z;
  EventType : string;
  PolicyId : string;
  TargetId : string;
  ScriptId : string;
  URL : string;
  Hash : string;
  StackTrace : option StackTrace.t
}.
Definition setEventId (v : t) (n : Z) : t :=
  mk n (Timestamp v) (EventType v) (PolicyId v) (TargetId v) (ScriptId v)
     (URL v) (Hash v) (StackTrace v).
End DebuggerScriptParsedEvent.

Module PageLifecycleEvent.
Record t : Type := mk {
  EventId : Z;
  Timestamp : Z;
  EventType : string;
  PolicyId : string;
  TargetId : string;
  FrameId : string;
  LoaderId : string;
  Name : string;
  PolicyState : PolicyState.t
}.
Definition setEventId (v : t) (n : Z) : t :=
  mk n (Timestamp v) (EventType v) (PolicyId v) (TargetId v) (FrameId v)
     (LoaderId v) (Name v) (PolicyState v).
End PageLifecycleEvent.

(** A value of type [interface{}] as [LogEvent] receives it and as the
    slice [eventLog] stores it: a pointer to one of the five event
    structs, or a value of any other dynamic type. *)

Inductive Value : Type :=
| VNetworkRequestIntercepted (v : NetworkRequestInterceptedEvent.t)
| VNetworkRequestWillBeSent (v : NetworkRequestWillBeSentEvent.t)
| VAPIAccess (v : APIAccessEvent.t)
| VDebuggerScriptParsed (v : DebuggerScriptParsedEvent.t)
| VPageLifecycle (v : PageLifecycleEvent.t)
| VOther (dynamicType : string).

(** ** PolicyState queries *)

Definition isSome {A : Type} (o : option A) : bool :=
  match o with
  | Some _ => true
  | None => false
  end.

Definition GetRemoteScript (s : TrustGroupState.t) (scriptId : string)
  : option RemoteScript.t :=
  find (fun rs => String.eqb (RemoteScript.ScriptId rs) scriptId)
       (TrustGroupState.RemoteScripts s).

Definition GetInlineScript (s : TrustGroupState.t) (scriptId : string)
  : option InlineScript.t :=
  find (fun ils => String.eqb (InlineScript.ScriptId ils) scriptId)
       (TrustGroupState.InlineScripts s).

Definition TrustGroupStateForScriptId (s : PolicyState.t) (scriptId : string)
  : option TrustGroupState.t :=
  find (fun tgs => isSome (GetRemoteScript tgs scriptId)
                   || isSome (GetInlineScript tgs scriptId))
       (PolicyState.TrustGroups s).

Fixpoint StackIsTrusted (s : PolicyState.t) (scriptIdStack : list string)
  : bool :=
  match scriptIdStack with
  | [] => true
  | scriptId :: rest =>
      match TrustGroupStateForScriptId s scriptId with
      | None => false
      | Some tgs =>
          if negb (TrustGroupState.Trusted tgs) then false
          else StackIsTrusted s rest
      end
  end.

(** ** Script sets and trust groups

    The three implementations of the [ScriptSet] interface, as a closed
    sum; each carries the fields of its struct.  [net/url.Parse] and the
    ad-block rule matcher are library code: they are parameters of the
    development. *)

Module URL.
Record t : Type := mk {
  Scheme : string;
  Host : string
}.
End URL.

Inductive ScriptSet : Type :=
| UniversalScriptSet (remoteScripts : list RemoteScript.t)
                     (inlineScripts : list InlineScript.t)
| HostnameScriptSet (hostnames : list string)
                    (remoteScripts : list RemoteScript.t)
                    (inlineScripts : list InlineScript.t)
| FilterListScriptSet (filters : list string)
                      (remoteScripts : list RemoteScript.t)
                      (inlineScripts : list InlineScript.t).

Definition NewHostnameScriptSet (hostnames : list string) : ScriptSet :=
  HostnameScriptSet hostnames [] [].

Definition NewFilterListScriptSet : ScriptSet :=
  FilterListScriptSet [] [] [].

Definition AddRemoteScript (ss : ScriptSet) (scriptId scriptURL : string)
  : ScriptSet :=
  match ss with
  | UniversalScriptSet rs ils =>
      UniversalScriptSet (rs ++ [RemoteScript.mk scriptId scriptURL]) ils
  | HostnameScriptSet hs rs ils =>
      HostnameScriptSet hs (rs ++ [RemoteScript.mk scriptId scriptURL]) ils
  | FilterListScriptSet fs rs ils =>
      FilterListScriptSet fs (rs ++ [RemoteScript.mk scriptId scriptURL]) ils
  end.

Definition AddInlineScript (ss : ScriptSet) (scriptId hash : string)
  : ScriptSet :=
  match ss with
  | UniversalScriptSet rs ils =>
      UniversalScriptSet rs (ils ++ [InlineScript.mk scriptId hash])
  | HostnameScriptSet hs rs ils =>
      HostnameScriptSet hs rs (ils ++ [InlineScript.mk scriptId hash])
  | FilterListScriptSet fs rs ils =>
      FilterListScriptSet fs rs (ils ++ [InlineScript.mk scriptId hash])
  end.

(** [fmt.Sprintf("%v://%v", u.Scheme, u.Host)] *)
Definition origin (u : URL.t) : string :=
  String.append (URL.Scheme u) (String.append "://" (URL.Host u)).

Section ScriptSetMembership.

(** [url.Parse]: [None] stands for a non-nil error. *)
Variable url_Parse : string -> option URL.t.

(** [matcher.Match] on a request holding only the URL: [None] stands
    for a non-nil error, [Some matched] for the flag it returns. *)
Variable matcher_Match : string -> option bool.

Definition ContainsRemoteScript (ss : ScriptSet) (scriptId scriptURL : string)
  : bool :=
  match ss with
  | UniversalScriptSet _ _ => true
  | HostnameScriptSet hs _ _ =>
      match url_Parse scriptURL with
      | None => false
      | Some u => existsb (fun h => String.eqb h (origin u)) hs
      end
  | FilterListScriptSet _ _ _ =>
      match matcher_Match scriptURL with
      | None => false
      | Some matched => matched
      end
  end.

Definition ContainsInlineScript (ss : ScriptSet) (scriptId hash : string)
  : bool :=
  match ss with
  | UniversalScriptSet _ _ => true
  | HostnameScriptSet _ _ _ => true
  | FilterListScriptSet _ _ _ => false
  end.

End ScriptSetMembership.

Definition RemoteScripts (ss : ScriptSet) : list RemoteScript.t :=
  match ss with
  | UniversalScriptSet rs _ => rs
  | HostnameScriptSet _ rs _ => rs
  | FilterListScriptSet _ rs _ => rs
  end.

(** The filter-list set returns nil here, whatever was added to it. *)
Definition InlineScripts (ss : ScriptSet) : list InlineScript.t :=
  match ss with
  | UniversalScriptSet _ ils => ils
  | HostnameScriptSet _ _ ils => ils
  | FilterListScriptSet _ _ _ => []
  end.

Module TrustGroup.
Record t : Type := mk {
  scriptSet : ScriptSet;
  Trusted : bool;
  Tainted : bool
}.
Definition withScriptSet (tg : t) (ss : ScriptSet) : t :=
  mk ss (Trusted tg) (Tainted tg).
End TrustGroup.

Module Policy.
Record t : Type := mk {
  Id : string;
  trustGroups : list TrustGroup.t
}.
End Policy.

(** ** Policies *)

(** Index and value of the first element a loop over a slice stops at. *)
Fixpoint firstIndex {A : Type} (f : A -> bool) (l : list A)
  : option (nat * A) :=
  match l with
  | [] => None
  | x :: rest =>
      if f x then Some (O, x)
      else match firstIndex f rest with
           | Some (i, y) => Some (S i, y)
           | None => None
           end
  end.

(** Assignment through the pointer to the [i]-th group. *)
Fixpoint updateAt {A : Type} (l : list A) (i : nat) (f : A -> A) : list A :=
  match l, i with
  | [], _ => []
  | x :: rest, O => f x :: rest
  | x :: rest, S j => x :: updateAt rest j f
  end.

Definition groupHasScriptId (tg : TrustGroup.t) (scriptId : string) : bool :=
  existsb (fun s => String.eqb (RemoteScript.ScriptId s) scriptId)
          (RemoteScripts (TrustGroup.scriptSet tg))
  || existsb (fun s => String.eqb (InlineScript.ScriptId s) scriptId)
             (InlineScripts (TrustGroup.scriptSet tg)).

Definition TrustGroupForScriptId (p : Policy.t) (scriptId : string)
  : option (nat * TrustGroup.t) :=
  firstIndex (fun tg => groupHasScriptId tg scriptId) (Policy.trustGroups p).

(** The loop over [st.CallFrames] that opens both registration
    functions: the group of the first frame whose script is registered
    in an untrusted group. *)
Fixpoint inheritedGroup (p : Policy.t) (frames : list CallFrame.t)
  : option nat :=
  match frames with
  | [] => None
  | cf :: rest =>
      match TrustGroupForScriptId p (CallFrame.ScriptId cf) with
      | Some (i, tg) =>
          if negb (TrustGroup.Trusted tg) then Some i
          else inheritedGroup p rest
      | None => inheritedGroup p rest
      end
  end.

Definition inheritedFromStack (p : Policy.t) (st : option StackTrace.t)
  : option nat :=
  match st with
  | Some s => inheritedGroup p (StackTrace.CallFrames s)
  | None => None
  end.

Definition addToGroup (p : Policy.t) (i : nat) (add : ScriptSet -> ScriptSet)
  : Policy.t :=
  Policy.mk (Policy.Id p)
    (updateAt (Policy.trustGroups p) i
       (fun tg => TrustGroup.withScriptSet tg (add (TrustGroup.scriptSet tg)))).

Section Registration.

Variable url_Parse : string -> option URL.t.
Variable matcher_Match : string -> option bool.

Definition RegisterRemoteScript (p : Policy.t) (scriptId scriptURL : string)
  (st : option StackTrace.t) : Policy.t * option nat :=
  match inheritedFromStack p st with
  | Some i =>
      (addToGroup p i (fun ss => AddRemoteScript ss scriptId scriptURL),
       Some i)
  | None =>
      match firstIndex
              (fun tg => ContainsRemoteScript url_Parse matcher_Match
                           (TrustGroup.scriptSet tg) scriptId scriptURL)
              (Policy.trustGroups p) with
      | Some (i, _) =>
          (addToGroup p i (fun ss => AddRemoteScript ss scriptId scriptURL),
           Some i)
      | None => (p, None)
      end
  end.

Definition RegisterInlineScript (p : Policy.t) (scriptId hash : string)
  (st : option StackTrace.t) : Policy.t * option nat :=
  match inheritedFromStack p st with
  | Some i =>
      (addToGroup p i (fun ss => AddInlineScript ss scriptId hash), Some i)
  | None =>
      match firstIndex
              (fun tg => ContainsInlineScript
                           (TrustGroup.scriptSet tg) scriptId hash)
              (Policy.trustGroups p) with
      | Some (i, _) =>
          (addToGroup p i (fun ss => AddInlineScript ss scriptId hash),
           Some i)
      | None => (p, None)
      end
  end.

End Registration.

Definition TrustedGroup (p : Policy.t) : option TrustGroup.t :=
  find TrustGroup.Trusted (Policy.trustGroups p).

Definition UntrustedGroup (p : Policy.t) : option TrustGroup.t :=
  find (fun tg => negb (TrustGroup.Trusted tg)) (Policy.trustGroups p).

Definition TrustedScriptIds (p : Policy.t) : list string :=
  match TrustedGroup p with
  | None => []
  | Some tg =>
      map RemoteScript.ScriptId (RemoteScripts (TrustGroup.scriptSet tg))
      ++ map InlineScript.ScriptId (InlineScripts (TrustGroup.scriptSet tg))
  end.

Definition State (p : Policy.t) : PolicyState.t :=
  PolicyState.mk (Policy.Id p)
    (map (fun tg =>
            TrustGroupState.mk (TrustGroup.Trusted tg)
              (RemoteScripts (TrustGroup.scriptSet tg))
              (InlineScripts (TrustGroup.scriptSet tg)))
         (Policy.trustGroups p)).

(** The four canned policies; [id] is the value [newPolicyId] draws. *)

Definition NewTrustingPolicy (id : string) : Policy.t :=
  Policy.mk id [TrustGroup.mk (UniversalScriptSet [] []) true false].

Definition NewUntrustingPolicy (id : string) : Policy.t :=
  Policy.mk id [TrustGroup.mk (UniversalScriptSet [] []) false false].

Definition NewHostnamePolicy (id : string) (hosts : list string) : Policy.t :=
  Policy.mk id
    [TrustGroup.mk (NewHostnameScriptSet hosts) true false;
     TrustGroup.mk (UniversalScriptSet [] []) false false].

Definition NewFilterListPolicy (id : string) : Policy.t :=
  Policy.mk id
    [TrustGroup.mk NewFilterListScriptSet false false;
     TrustGroup.mk (UniversalScriptSet [] []) true false].

(** ** The session and its event log

    The fields of [ChromeClient] that hold data; channels, connections,
    the mutex and the target map carry no data the properties below
    read.  Go's [int] is taken at its 64-bit width. *)

Definition wrap_int (z : Z) : Z :=
  ((z + 2 ^ 63) mod 2 ^ 64 - 2 ^ 63)%Z.

Definition add_int (a b : Z) : Z := wrap_int (a + b).

Module ChromeClient.
Record t : Type := mk {
  runDir : string;
  policyType : Z;
  eventLog : list Value;
  nextEventId : Z;
  policyIds : list string;
  instrumentationScript : string;
  watchedTargets : list string;
  logsDir : string
}.
Definition withLog (cc : t) (log : list Value) (next : Z) : t :=
  mk (runDir cc) (policyType cc) log next (policyIds cc)
     (instrumentationScript cc) (watchedTargets cc) (logsDir cc).
End ChromeClient.

(** The zero values [NewChromeClient] leaves in the log fields. *)
Definition NewChromeClient (runDir : string) (policyType : Z)
  (instrumentationScript logsDir : string) : ChromeClient.t :=
  ChromeClient.mk runDir policyType [] 0%Z [] instrumentationScript [] logsDir.

(** The type switch of [LogEvent]: the event with its id assigned, or
    the panic of the default case. *)
Definition assignEventId (e : Value) (n : Z) : result Value :=
  match e with
  | VNetworkRequestIntercepted v =>
      Ok (VNetworkRequestIntercepted
            (NetworkRequestInterceptedEvent.setEventId v n))
  | VNetworkRequestWillBeSent v =>
      Ok (VNetworkRequestWillBeSent
            (NetworkRequestWillBeSentEvent.setEventId v n))
  | VAPIAccess v => Ok (VAPIAccess (APIAccessEvent.setEventId v n))
  | VDebuggerScriptParsed v =>
      Ok (VDebuggerScriptParsed (DebuggerScriptParsedEvent.setEventId v n))
  | VPageLifecycle v =>
      Ok (VPageLifecycle (PageLifecycleEvent.setEventId v n))
  | VOther _ => Panic (LogPanic "bad log event type")
  end.

(** [LogEvent] returns the session as the call leaves it together with
    its outcome; the panic of the type switch comes before the append. *)
Definition LogEvent (cc : ChromeClient.t) (e : Value)
  : ChromeClient.t * result unit :=
  match assignEventId e (ChromeClient.nextEventId cc) with
  | Panic f => (cc, Panic f)
  | Ok e' =>
      (ChromeClient.withLog cc
         (ChromeClient.eventLog cc ++ [e'])
         (add_int (ChromeClient.nextEventId cc) 1),
       Ok tt)
  end.

(** A run of [LogEvent] calls in one session, with the outcome of each:
    a panic is recovered at the callback boundary and leaves the session
    open to further calls. *)
Fixpoint LogEvents (cc : ChromeClient.t) (es : list Value)
  : ChromeClient.t * list (result unit) :=
  match es with
  | [] => (cc, [])
  | e :: rest =>
      let (cc1, r) := LogEvent cc e in
      let (cc2, rs) := LogEvents cc1 rest in
      (cc2, r :: rs)
  end.

(** The [EventId] field of a logged value. *)
Definition eventIdOf (e : Value) : option Z :=
  match e with
  | VNetworkRequestIntercepted v =>
      Some (NetworkRequestInterceptedEvent.EventId v)
  | VNetworkRequestWillBeSent v =>
      Some (NetworkRequestWillBeSentEvent.EventId v)
  | VAPIAccess v => Some (APIAccessEvent.EventId v)
  | VDebuggerScriptParsed v => Some (DebuggerScriptParsedEvent.EventId v)
  | VPageLifecycle v => Some (PageLifecycleEvent.EventId v)
  | VOther _ => None
  end.

Fixpoint NetworkRequestWillBeSentLogs_of (log : list Value) (policyId : string)
  : list NetworkRequestWillBeSentEvent.t :=
  match log with
  | [] => []
  | VNetworkRequestWillBeSent c :: rest =>
      if String.eqb (NetworkRequestWillBeSentEvent.PolicyId c) policyId
      then c :: NetworkRequestWillBeSentLogs_of rest policyId
      else NetworkRequestWillBeSentLogs_of rest policyId
  | _ :: rest => NetworkRequestWillBeSentLogs_of rest policyId
  end.

Definition NetworkRequestWillBeSentLogs (cc : ChromeClient.t)
  (policyId : string) : list NetworkRequestWillBeSentEvent.t :=
  NetworkRequestWillBeSentLogs_of (ChromeClient.eventLog cc) policyId.

Fixpoint APIAccessLogs_of (log : list Value) (policyId : string)
  : list APIAccessEvent.t :=
  match log with
  | [] => []
  | VAPIAccess c :: rest =>
      if String.eqb (APIAccessEvent.PolicyId c) policyId
      then c :: APIAccessLogs_of rest policyId
      else APIAccessLogs_of rest policyId
  | _ :: rest => APIAccessLogs_of rest policyId
  end.

Definition APIAccessLogs (cc : ChromeClient.t) (policyId : string)
  : list APIAccessEvent.t :=
  APIAccessLogs_of (ChromeClient.eventLog cc) policyId.

(** ** The analyzer *)

Module PolicyAnalysis.
Record t : Type := mk {
  PolicyId : string;
  Description : string;
  PolicyViolated : bool;
  TaintingAPIName : string;
  ReqResourceType : string;
  ReqURL : string;
  ReqInitiator : string;
  ReqStackScripts : list string
}.
Definition withDescription (pa : t) (d : string) : t :=
  mk (PolicyId pa) d (PolicyViolated pa) (TaintingAPIName pa)
     (ReqResourceType pa) (ReqURL pa) (ReqInitiator pa) (ReqStackScripts pa).
Definition withTaintingAPIName (pa : t) (n : string) : t :=
  mk (PolicyId pa) (Description pa) (PolicyViolated pa) n
     (ReqResourceType pa) (ReqURL pa) (ReqInitiator pa) (ReqStackScripts pa).
(** The assignments of the primary and of the cross-target check. *)
Definition withRequest (pa : t) (initiator resourceType url : string)
  (stack : list string) : t :=
  mk (PolicyId pa) (Description pa) true (TaintingAPIName pa)
     resourceType url initiator stack.
(** The assignments of the probe check, which leave [ReqURL] alone. *)
Definition withProbe (pa : t) (stack : list string) : t :=
  mk (PolicyId pa) (Description pa) true (TaintingAPIName pa)
     "Document" (ReqURL pa) "script" stack.
End PolicyAnalysis.

(** [cfv]: the frames of the stack trace, or those of its parent when
    the trace has no frame of its own and has a parent. *)
Definition initiatorCallFrames (st : StackTrace.t) : list CallFrame.t :=
  match StackTrace.CallFrames st, StackTrace.Parent st with
  | [], Some parent => StackTrace.CallFrames parent
  | cfv, _ => cfv
  end.

(** The frame loop of the primary check: an unknown script id is
    reported on the log and leaves [stackTrusted] as it is. *)
Definition primaryStackTrusted (ps : PolicyState.t) (cfv : list CallFrame.t)
  : bool :=
  fold_left
    (fun stackTrusted cf =>
       match TrustGroupStateForScriptId ps (CallFrame.ScriptId cf) with
       | Some tgs => stackTrusted && TrustGroupState.Trusted tgs
       | None => stackTrusted
       end)
    cfv true.

(** The frame loop of the cross-target check. *)
Definition crossStackTrusted (ps : PolicyState.t) (cfv : list CallFrame.t)
  : bool :=
  fold_left
    (fun stackTrusted cf =>
       stackTrusted &&
       match TrustGroupStateForScriptId ps (CallFrame.ScriptId cf) with
       | Some tgs => TrustGroupState.Trusted tgs
       | None => false
       end)
    cfv true.

Definition isProbe (e : APIAccessEvent.t) : bool :=
  String.prefix "exfiltration_" (APIAccessEvent.APIName e).

Fixpoint findTaintingEvent (apiLogs : list APIAccessEvent.t)
  : option APIAccessEvent.t :=
  match apiLogs with
  | [] => None
  | e :: rest =>
      if isProbe e then findTaintingEvent rest
      else if StackIsTrusted (APIAccessEvent.PolicyState e)
                             (APIAccessEvent.ScriptIdStack e)
      then findTaintingEvent rest
      else Some e
  end.

(** The loops below return the analysis together with the local
    [exfiltrationEventId]. *)

Fixpoint primaryCheck (taintingEventId : Z) (pa : PolicyAnalysis.t)
  (presendLogs : list NetworkRequestWillBeSentEvent.t)
  : PolicyAnalysis.t * Z :=
  match presendLogs with
  | [] => (pa, 0%Z)
  | e :: rest =>
      match NetworkRequestWillBeSentEvent.Initiator e with
      | None => primaryCheck taintingEventId pa rest
      | Some ini =>
          match Initiator.StackTrace ini with
          | None => primaryCheck taintingEventId pa rest
          | Some st =>
              if (NetworkRequestWillBeSentEvent.EventId e >? taintingEventId)%Z
              then
                let cfv := initiatorCallFrames st in
                if primaryStackTrusted
                     (NetworkRequestWillBeSentEvent.PolicyState e) cfv
                then primaryCheck taintingEventId pa rest
                else
                  (PolicyAnalysis.withRequest pa
                     (Initiator.Type_ ini)
                     (NetworkRequestWillBeSentEvent.ResourceType e)
                     (NetworkRequest.URL
                        (NetworkRequestWillBeSentEvent.Request e))
                     (map CallFrame.ScriptId cfv),
                   NetworkRequestWillBeSentEvent.EventId e)
              else primaryCheck taintingEventId pa rest
          end
      end
  end.

Fixpoint probeCheck (taintingEventId : Z) (st : PolicyAnalysis.t * Z)
  (apiLogs : list APIAccessEvent.t) : PolicyAnalysis.t * Z :=
  match apiLogs with
  | [] => st
  | e :: rest =>
      if negb (isProbe e) then probeCheck taintingEventId st rest
      else if StackIsTrusted (APIAccessEvent.PolicyState e)
                             (APIAccessEvent.ScriptIdStack e)
      then probeCheck taintingEventId st rest
      else if (APIAccessEvent.EventId e >? taintingEventId)%Z
              && (negb (PolicyAnalysis.PolicyViolated (fst st))
                  || (APIAccessEvent.EventId e <? snd st)%Z)
      then (PolicyAnalysis.withProbe (fst st) (APIAccessEvent.ScriptIdStack e),
            APIAccessEvent.EventId e)
      else probeCheck taintingEventId st rest
  end.

Fixpoint lastOf {A : Type} (l : list A) : option A :=
  match l with
  | [] => None
  | [x] => Some x
  | _ :: rest => lastOf rest
  end.

(** [stackTrusted] of the cross-target check: the frames are judged by
    the state of the last API access of the analyzed policy. *)
Definition crossTrusted (apiLogs : list APIAccessEvent.t) (st : StackTrace.t)
  : bool * list string :=
  match lastOf apiLogs with
  | Some lastApi =>
      let cfv := initiatorCallFrames st in
      (crossStackTrusted (APIAccessEvent.PolicyState lastApi) cfv,
       map CallFrame.ScriptId cfv)
  | None => (true, [])
  end.

Fixpoint crossTargetCheck (cc : ChromeClient.t)
  (apiLogs : list APIAccessEvent.t) (taintingEventId : Z)
  (st : PolicyAnalysis.t * Z) (policyIds : list string)
  : PolicyAnalysis.t * Z :=
  match policyIds with
  | [] => st
  | otherPid :: rest =>
      match NetworkRequestWillBeSentLogs cc otherPid with
      | [] => crossTargetCheck cc apiLogs taintingEventId st rest
      | e :: _ =>
          if (NetworkRequestWillBeSentEvent.EventId e >? taintingEventId)%Z
             && (negb (PolicyAnalysis.PolicyViolated (fst st))
                 || (NetworkRequestWillBeSentEvent.EventId e <? snd st)%Z)
          then
            match NetworkRequestWillBeSentEvent.Initiator e with
            | None => crossTargetCheck cc apiLogs taintingEventId st rest
            | Some ini =>
                match Initiator.StackTrace ini with
                | None => crossTargetCheck cc apiLogs taintingEventId st rest
                | Some stack =>
                    let (stackTrusted, reqStackScripts) :=
                      crossTrusted apiLogs stack in
                    if stackTrusted
                    then crossTargetCheck cc apiLogs taintingEventId st rest
                    else
                      (PolicyAnalysis.withRequest (fst st)
                         (Initiator.Type_ ini)
                         (NetworkRequestWillBeSentEvent.ResourceType e)
                         (NetworkRequest.URL
                            (NetworkRequestWillBeSentEvent.Request e))
                         reqStackScripts,
                       NetworkRequestWillBeSentEvent.EventId e)
                end
            end
          else crossTargetCheck cc apiLogs taintingEventId st rest
      end
  end.

Definition AnalyzePolicy (cc : ChromeClient.t) (pid : string)
  : PolicyAnalysis.t :=
  let pa := PolicyAnalysis.mk pid "" false "" "" "" "" [] in
  let presendLogs := NetworkRequestWillBeSentLogs cc pid in
  match presendLogs with
  | [] => pa
  | first :: _ =>
      let pa :=
        PolicyAnalysis.withDescription pa
          (NetworkRequestWillBeSentEvent.DocumentURL first) in
      let apiLogs := APIAccessLogs cc pid in
      match findTaintingEvent apiLogs with
      | None => pa
      | Some taintingEvent =>
          let pa :=
            PolicyAnalysis.withTaintingAPIName pa
              (APIAccessEvent.APIName taintingEvent) in
          let taintingEventId := APIAccessEvent.EventId taintingEvent in
          let s1 := primaryCheck taintingEventId pa presendLogs in
          let s2 := probeCheck taintingEventId s1 apiLogs in
          fst (crossTargetCheck cc apiLogs taintingEventId s2
                 (ChromeClient.policyIds cc))
      end
  end.

(** ** The target session and the pause handler

    A handler runs against the target's mutable fields, the session's
    log and the debugging connection.  The connection is a parameter:
    [respond sent r] is the answer to request [r] after the requests
    [sent], [None] standing for a non-nil error.  A fault leaves the
    state reached so far, so that what was sent before it can be read. *)

Inductive Request : Type :=
| RuntimeCompileScript (expression : string)
| RuntimeRunScript (scriptId : string)
| DebuggerSetVariableValue (trustedScriptIds : list string)
                           (callFrameId : string)
| DebuggerResume.

Module Target.
Record t : Type := mk {
  TargetId : string;
  NavHistory : list string;
  Policy : Policy.t;
  instrumentationScriptId : string
}.
Definition withInstrumentationScriptId (tg : t) (sid : string) : t :=
  mk (TargetId tg) (NavHistory tg) (Policy tg) sid.
End Target.

Module World.
Record t : Type := mk {
  target : Target.t;
  chromeClient : ChromeClient.t;
  sent : list Request
}.
End World.

Definition handler (A : Type) : Type := World.t -> World.t * result A.

Definition ret {A : Type} (a : A) : handler A := fun w => (w, Ok a).

Definition fail {A : Type} (f : fault) : handler A := fun w => (w, Panic f).

Definition bindH {A B : Type} (m : handler A) (k : A -> handler B)
  : handler B :=
  fun w =>
    match m w with
    | (w', Ok a) => k a w'
    | (w', Panic f) => (w', Panic f)
    end.

Notation "x <~ m ;; k" := (bindH m (fun x => k))
  (at level 61, m at next level, right associativity).

Definition getTarget : handler Target.t := fun w => (w, Ok (World.target w)).

Definition getClient : handler ChromeClient.t :=
  fun w => (w, Ok (World.chromeClient w)).

Definition setTarget (tg : Target.t) : handler unit :=
  fun w => (World.mk tg (World.chromeClient w) (World.sent w), Ok tt).

(** [t.chromeClient.LogEvent(e)] *)
Definition logEvent (e : Value) : handler unit :=
  fun w =>
    let (cc', r) := LogEvent (World.chromeClient w) e in
    (World.mk (World.target w) cc' (World.sent w), r).

(** The arguments of a [Debugger.paused] notification that the handler
    reads, decoded with the defaults of the [Message] accessors. *)

Module PausedCallFrame.
Record t : Type := mk {
  callFrameId : string;
  functionName : string;
  locationScriptId : string
}.
End PausedCallFrame.

Module PausedParams.
Record t : Type := mk {
  callFrames : list PausedCallFrame.t;
  reason : string;
  dataEventName : string
}.
End PausedParams.

(** [strings.TrimPrefix] *)
Definition TrimPrefix (s pre : string) : string :=
  if String.prefix pre s
  then String.substring (String.length pre)
         (String.length s - String.length pre) s
  else s.

Section PauseHandler.

Variable respond : list Request -> Request -> option string.

(** [time.Now()] at the one place the handler reads the clock. *)
Variable now : Z.

(** [SendRequest] followed by [log.Panic(err)] on an error; the answer
    is the [scriptId] field of the response. *)
Definition SendRequest (r : Request) : handler string :=
  fun w =>
    let w' := World.mk (World.target w) (World.chromeClient w)
                (World.sent w ++ [r]) in
    match respond (World.sent w) r with
    | Some answer => (w', Ok answer)
    | None => (w', Panic (LogPanic "request failed"))
    end.

Definition installInstrumentation : handler unit :=
  tg <~ getTarget ;;
  if String.eqb (Target.instrumentationScriptId tg) ""
  then
    cc <~ getClient ;;
    scriptId <~ SendRequest
      (RuntimeCompileScript (ChromeClient.instrumentationScript cc)) ;;
    if String.eqb scriptId ""
    then fail (LogPanic "no script id")
    else
      _ <~ setTarget (Target.withInstrumentationScriptId tg scriptId) ;;
      _ <~ SendRequest (RuntimeRunScript scriptId) ;;
      ret tt
  else ret tt.

(** The three-way classification of the pause: its result is
    [reasonStr]. *)
Definition classifyPause (p : PausedParams.t) : handler string :=
  let callFrames := PausedParams.callFrames p in
  let scriptIds := map PausedCallFrame.locationScriptId callFrames in
  let reason := PausedParams.reason p in
  if String.eqb reason "EventListener"
  then ret (String.append reason
              (String.append ":" (PausedParams.dataEventName p)))
  else
    match scriptIds with
    | [] => fail IndexOutOfRange
    | first :: _ =>
        tg <~ getTarget ;;
        if String.eqb first (Target.instrumentationScriptId tg)
        then
          match callFrames with
          | [] => fail IndexOutOfRange
          | cf0 :: _ =>
              let reasonStr := PausedCallFrame.functionName cf0 in
              _ <~ SendRequest
                (DebuggerSetVariableValue
                   (TrustedScriptIds (Target.Policy tg))
                   (PausedCallFrame.callFrameId cf0)) ;;
              _ <~ (if String.prefix "shim_" reasonStr
                    then logEvent
                           (VAPIAccess
                              (APIAccessEvent.mk 0%Z now "APIAccess"
                                 (Policy.Id (Target.Policy tg))
                                 (Target.TargetId tg)
                                 (TrimPrefix reasonStr "shim_")
                                 scriptIds
                                 (State (Target.Policy tg))))
                    else ret tt) ;;
              ret reasonStr
          end
        else ret "breakpoint"
    end.

Definition debuggerPaused (p : PausedParams.t) : handler unit :=
  _ <~ installInstrumentation ;;
  _ <~ classifyPause p ;;
  _ <~ SendRequest DebuggerResume ;;
  ret tt.

End PauseHandler.

(** * Properties *)

(** ** Membership of a script id in a trust group state *)

(** [registeredIn tgs scriptId]: the group lists the id among its remote
    or its inline scripts. *)
Definition registeredIn (tgs : TrustGroupState.t) (scriptId : string) : Prop :=
  (exists rs, In rs (TrustGroupState.RemoteScripts tgs)
              /\ RemoteScript.ScriptId rs = scriptId)
  \/ (exists ils, In ils (TrustGroupState.InlineScripts tgs)
                  /\ InlineScript.ScriptId ils = scriptId).

(** [resolvesTo s scriptId tgs]: [tgs] is the first group of [s], in
    order, in which the id is registered. *)
Definition resolvesTo (s : PolicyState.t) (scriptId : string)
  (tgs : TrustGroupState.t) : Prop :=
  exists before after,
    PolicyState.TrustGroups s = before ++ tgs :: after
    /\ registeredIn tgs scriptId
    /\ forall g, In g before -> ~ registeredIn g scriptId.

Lemma find_isSome_ex {A : Type} (f : A -> bool) (l : list A) :
  isSome (find f l) = true <-> exists x, In x l /\ f x = true.
Proof.
  induction l as [|a l IH]; simpl.
  - split; [discriminate | intros [x [[] _]]].
  - destruct (f a) eqn:Hfa; simpl.
    + split; [intros _; exists a; auto | reflexivity].
    + rewrite IH. split.
      * intros [x [Hin Hx]]. exists x; auto.
      * intros [x [[Heq | Hin] Hx]].
        -- subst. congruence.
        -- exists x; auto.
Qed.

Lemma registeredIn_dec (tgs : TrustGroupState.t) (scriptId : string) :
  isSome (GetRemoteScript tgs scriptId) || isSome (GetInlineScript tgs scriptId)
  = true <-> registeredIn tgs scriptId.
Proof.
  unfold registeredIn, GetRemoteScript, GetInlineScript.
  rewrite orb_true_iff, !find_isSome_ex.
  split; intros [[x [Hin Hx]] | [x [Hin Hx]]]; [left | right | left | right];
    exists x; split; auto;
    first [apply String.eqb_eq; assumption | apply String.eqb_eq in Hx; assumption].
Qed.

Lemma find_first {A : Type} (f : A -> bool) (l : list A) (x : A) :
  find f l = Some x <->
  exists before after,
    l = before ++ x :: after /\ f x = true
    /\ forall y, In y before -> f y = false.
Proof.
  revert x. induction l as [|a l IH]; intros x; simpl.
  - split; [discriminate|].
    intros [before [after [Heq _]]]. destruct before; discriminate.
  - destruct (f a) eqn:Hfa.
    + split.
      * intros [= <-]. exists [], l. repeat split; auto. intros y [].
      * intros [before [after [Heq [Hx Hbefore]]]].
        destruct before as [|b before]; simpl in Heq.
        -- congruence.
        -- injection Heq as <- _. rewrite (Hbefore a (or_introl eq_refl)) in Hfa.
           discriminate.
    + rewrite IH. split.
      * intros [before [after [Heq [Hx Hbefore]]]].
        exists (a :: before), after. subst. repeat split; auto.
        intros y [<- | Hy]; auto.
      * intros [before [after [Heq [Hx Hbefore]]]].
        destruct before as [|b before]; simpl in Heq.
        -- injection Heq as -> _. congruence.
        -- injection Heq as <- ->. exists before, after. repeat split; auto.
           intros y Hy. apply Hbefore. right; assumption.
Qed.

Lemma find_none_iff {A : Type} (f : A -> bool) (l : list A) :
  find f l = None <-> forall y, In y l -> f y = false.
Proof.
  induction l as [|a l IH]; simpl.
  - split; [intros _ y [] | reflexivity].
  - destruct (f a) eqn:Hfa.
    + split; [discriminate|]. intros H. rewrite (H a (or_introl eq_refl)) in Hfa.
      discriminate.
    + rewrite IH. split.
      * intros H y [<- | Hy]; auto.
      * intros H y Hy. apply H. right; assumption.
Qed.

Lemma TrustGroupStateForScriptId_resolves (s : PolicyState.t)
  (scriptId : string) (tgs : TrustGroupState.t) :
  TrustGroupStateForScriptId s scriptId = Some tgs <-> resolvesTo s scriptId tgs.
Proof.
  unfold TrustGroupStateForScriptId, resolvesTo. rewrite find_first.
  split; intros [before [after [Heq [Hreg Hbefore]]]];
    exists before, after; repeat split; auto.
  - apply registeredIn_dec; assumption.
  - intros g Hg Hr. apply registeredIn_dec in Hr.
    rewrite (Hbefore g Hg) in Hr. discriminate.
  - apply registeredIn_dec; assumption.
  - intros g Hg. destruct (_ || _) eqn:E; auto.
    apply registeredIn_dec in E. exfalso. exact (Hbefore g Hg E).
Qed.

Lemma TrustGroupStateForScriptId_unknown (s : PolicyState.t)
  (scriptId : string) :
  TrustGroupStateForScriptId s scriptId = None <->
  forall g, In g (PolicyState.TrustGroups s) -> ~ registeredIn g scriptId.
Proof.
  unfold TrustGroupStateForScriptId. rewrite find_none_iff.
  split; intros H g Hg.
  - intros Hr. apply registeredIn_dec in Hr. rewrite (H g Hg) in Hr.
    discriminate.
  - destruct (_ || _) eqn:E; auto.
    apply registeredIn_dec in E. exfalso. exact (H g Hg E).
Qed.

Lemma StackIsTrusted_forall (s : PolicyState.t) (stack : list string) :
  StackIsTrusted s stack = true <->
  forall scriptId, In scriptId stack ->
    exists tgs, TrustGroupStateForScriptId s scriptId = Some tgs
                /\ TrustGroupState.Trusted tgs = true.
Proof.
  induction stack as [|x stack IH]; simpl.
  - split; [intros _ y [] | reflexivity].
  - destruct (TrustGroupStateForScriptId s x) as [tgs|] eqn:E.
    + destruct (TrustGroupState.Trusted tgs) eqn:Ht; simpl.
      * rewrite IH. split.
        -- intros H y [<- | Hy]; [exists tgs; auto | auto].
        -- intros H y Hy. apply H. right; assumption.
      * split; [discriminate|]. intros H.
        destruct (H x (or_introl eq_refl)) as [g [Hg Htg]]. congruence.
    + split; [discriminate|]. intros H.
      destruct (H x (or_introl eq_refl)) as [g [Hg _]]. congruence.
Qed.

(** C2.  [StackIsTrusted] holds exactly when every script id of the stack
    is registered (as a remote or an inline script) in some trust group of
    the state and the group it resolves to, the first one in order that
    lists it, has [Trusted = true].  One id registered in no group, or
    resolving to a group with [Trusted = false], makes the result false. *)
Theorem StackIsTrusted_spec (s : PolicyState.t) (stack : list string) :
  (StackIsTrusted s stack = true <->
   forall scriptId, In scriptId stack ->
     exists tgs, resolvesTo s scriptId tgs
                 /\ TrustGroupState.Trusted tgs = true)
  /\ (forall scriptId, In scriptId stack ->
        (forall g, In g (PolicyState.TrustGroups s) ->
                   ~ registeredIn g scriptId) ->
        StackIsTrusted s stack = false)
  /\ (forall scriptId tgs, In scriptId stack ->
        resolvesTo s scriptId tgs ->
        TrustGroupState.Trusted tgs = false ->
        StackIsTrusted s stack = false).
Proof.
  assert (Hiff : StackIsTrusted s stack = true <->
                 forall scriptId, In scriptId stack ->
                   exists tgs, resolvesTo s scriptId tgs
                               /\ TrustGroupState.Trusted tgs = true).
  { rewrite StackIsTrusted_forall. split; intros H y Hy;
      destruct (H y Hy) as [g [Hg Ht]]; exists g; split; auto;
      apply TrustGroupStateForScriptId_resolves; assumption. }
  split; [exact Hiff|]. split.
  - intros x Hx Hnone. apply not_true_is_false. intros Htrue.
    destruct (proj1 (StackIsTrusted_forall s stack) Htrue x Hx) as [g [Hg _]].
    apply TrustGroupStateForScriptId_unknown in Hnone. congruence.
  - intros x tgs Hx Hres Hfalse. apply not_true_is_false. intros Htrue.
    destruct (proj1 (StackIsTrusted_forall s stack) Htrue x Hx) as [g [Hg Ht]].
    apply TrustGroupStateForScriptId_resolves in Hres. congruence.
Qed.

(** ** The tainting event *)

Lemma findTaintingEvent_untrusted (apiLogs : list APIAccessEvent.t)
  (e : APIAccessEvent.t) :
  findTaintingEvent apiLogs = Some e ->
  In e apiLogs
  /\ isProbe e = false
  /\ StackIsTrusted (APIAccessEvent.PolicyState e)
                    (APIAccessEvent.ScriptIdStack e) = false.
Proof.
  induction apiLogs as [|a apiLogs IH]; simpl; [discriminate|].
  destruct (isProbe a) eqn:Hp.
  - intros H. destruct (IH H) as [Hin Hrest]. split; [right|]; assumption.
  - destruct (StackIsTrusted (APIAccessEvent.PolicyState a) _) eqn:Ht.
    + intros H. destruct (IH H) as [Hin Hrest]. split; [right|]; assumption.
    + intros [= <-]. repeat split; auto.
Qed.

Lemma findTaintingEvent_none (apiLogs : list APIAccessEvent.t) :
  (forall e, In e apiLogs ->
     isProbe e = true
     \/ StackIsTrusted (APIAccessEvent.PolicyState e)
                       (APIAccessEvent.ScriptIdStack e) = true) ->
  findTaintingEvent apiLogs = None.
Proof.
  induction apiLogs as [|a apiLogs IH]; simpl; intros H; [reflexivity|].
  destruct (H a (or_introl eq_refl)) as [-> | Ht].
  - apply IH. intros e He. apply H. right; assumption.
  - rewrite Ht. destruct (isProbe a); apply IH; intros e He; apply H; right;
      assumption.
Qed.

(** C9.  On the empty stack [StackIsTrusted] answers true for every policy
    state, the one without trust groups included.  Hence the event that
    [AnalyzePolicy] selects as the tainting event never has an empty
    [ScriptIdStack], and a policy all of whose API accesses carry an empty
    stack is analyzed as not violated, with no tainting API recorded. *)
Theorem empty_stack_never_taints :
  (forall s : PolicyState.t, StackIsTrusted s [] = true)
  /\ (forall pid : string, StackIsTrusted (PolicyState.mk pid []) [] = true)
  /\ (forall (apiLogs : list APIAccessEvent.t) (e : APIAccessEvent.t),
        findTaintingEvent apiLogs = Some e ->
        APIAccessEvent.ScriptIdStack e <> [])
  /\ (forall (cc : ChromeClient.t) (pid : string),
        (forall e, In e (APIAccessLogs cc pid) ->
                   APIAccessEvent.ScriptIdStack e = []) ->
        PolicyAnalysis.PolicyViolated (AnalyzePolicy cc pid) = false
        /\ PolicyAnalysis.TaintingAPIName (AnalyzePolicy cc pid) = "").
Proof.
  split; [reflexivity|]. split; [reflexivity|]. split.
  - intros apiLogs e H Hempty.
    destruct (findTaintingEvent_untrusted apiLogs e H) as [_ [_ Hu]].
    rewrite Hempty in Hu. discriminate.
  - intros cc pid Hall. unfold AnalyzePolicy.
    destruct (NetworkRequestWillBeSentLogs cc pid); [split; reflexivity|].
    rewrite findTaintingEvent_none; [split; reflexivity|].
    intros e He. right. rewrite (Hall e He). reflexivity.
Qed.

(** ** Event ids *)

Definition isEvent (e : Value) : bool :=
  match e with
  | VOther _ => false
  | _ => true
  end.

(** The counter values [n, n+1, ..., n+k-1]. *)
Definition idsFrom (n : Z) (k : nat) : list Z :=
  map (fun i => (n + Z.of_nat i)%Z) (seq 0 k).

Lemma wrap_int_small (z : Z) :
  (- 2 ^ 63 <= z < 2 ^ 63)%Z -> wrap_int z = z.
Proof.
  intros H. unfold wrap_int. rewrite Z.mod_small; lia.
Qed.

Lemma idsFrom_S (n : Z) (k : nat) :
  idsFrom n (S k) = n :: idsFrom (n + 1) k.
Proof.
  unfold idsFrom. simpl. f_equal; [lia|].
  rewrite <- seq_shift, map_map. apply map_ext. intros i. lia.
Qed.

Lemma assignEventId_event (e : Value) (n : Z) :
  isEvent e = true ->
  exists e', assignEventId e n = Ok e' /\ eventIdOf e' = Some n
             /\ isEvent e' = true.
Proof.
  destruct e; simpl; try discriminate; intros _; eexists; repeat split.
Qed.

Lemma withLog_withLog (cc : ChromeClient.t) (l1 l2 : list Value) (n1 n2 : Z) :
  ChromeClient.withLog (ChromeClient.withLog cc l1 n1) l2 n2
  = ChromeClient.withLog cc l2 n2.
Proof. reflexivity. Qed.

(** The outcome of [LogEvent] on a value, by its kind. *)
Definition outcomeOf (e : Value) : result unit :=
  if isEvent e then Ok tt else Panic (LogPanic "bad log event type").

Lemma LogEvents_run (es : list Value) :
  forall cc : ChromeClient.t,
    (- 2 ^ 63 <= ChromeClient.nextEventId cc)%Z ->
    (ChromeClient.nextEventId cc
     + Z.of_nat (List.length (filter isEvent es)) < 2 ^ 63)%Z ->
    exists logged,
      LogEvents cc es
      = (ChromeClient.withLog cc (ChromeClient.eventLog cc ++ logged)
           (ChromeClient.nextEventId cc
            + Z.of_nat (List.length (filter isEvent es))),
         map outcomeOf es)
      /\ map eventIdOf logged
         = map Some (idsFrom (ChromeClient.nextEventId cc)
                       (List.length (filter isEvent es)))
      /\ Forall2 (fun e e' => exists n, assignEventId e n = Ok e')
                 (filter isEvent es) logged.
Proof.
  induction es as [|e es IH]; intros cc Hlo Hhi.
  - exists []. simpl. rewrite app_nil_r, Z.add_0_r.
    destruct cc; repeat split; constructor.
  - simpl filter in *. destruct (isEvent e) eqn:He.
    + destruct (assignEventId_event e (ChromeClient.nextEventId cc) He)
        as [e' [Ha [Hid _]]].
      simpl List.length in *. rewrite Nat2Z.inj_succ in Hhi |- *.
      set (cc1 := ChromeClient.withLog cc (ChromeClient.eventLog cc ++ [e'])
                    (ChromeClient.nextEventId cc + 1)).
      assert (Hstep : LogEvent cc e = (cc1, Ok tt)).
      { unfold LogEvent. rewrite Ha. unfold add_int.
        rewrite wrap_int_small by lia. reflexivity. }
      destruct (IH cc1) as [logged [Hrun [Hids Hsame]]].
      { simpl. lia. }
      { simpl. lia. }
      exists (e' :: logged). split; [|split].
      * simpl. rewrite Hstep, Hrun. unfold cc1, outcomeOf.
        rewrite withLog_withLog, He. simpl.
        rewrite <- app_assoc. simpl. f_equal. f_equal. lia.
      * rewrite idsFrom_S. simpl. rewrite Hid. f_equal. exact Hids.
      * constructor;
          [exists (ChromeClient.nextEventId cc); exact Ha | exact Hsame].
    + destruct e; try discriminate.
      destruct (IH cc Hlo Hhi) as [logged [Hrun [Hids Hsame]]].
      exists logged. split; [|split; assumption].
      simpl. rewrite Hrun. reflexivity.
Qed.

(** C7.  From the state [NewChromeClient] leaves, whatever the sequence of
    [LogEvent] calls of the session, the log holds the values of the five
    event kinds in call order with the event ids 0, 1, 2, ...: each append
    assigns the current counter and adds one to it, so the ids are
    consecutive, strictly increasing and pairwise distinct, whoever the
    caller.  A call on a value of any other type panics and leaves the
    session, its log and its counter included, as it was.  The bound on the
    number of stored events is the one Go puts on the length of a slice,
    which keeps the 64-bit counter from wrapping. *)
Theorem LogEvent_assigns_consecutive_ids
  (runDir instrumentationScript logsDir : string) (policyType : Z)
  (es : list Value) :
  (Z.of_nat (List.length (filter isEvent es)) < 2 ^ 63)%Z ->
  let cc0 := NewChromeClient runDir policyType instrumentationScript logsDir in
  let stored := List.length (filter isEvent es) in
  map eventIdOf (ChromeClient.eventLog (fst (LogEvents cc0 es)))
  = map Some (map Z.of_nat (seq 0 stored))
  /\ Forall2 (fun e e' => exists n, assignEventId e n = Ok e')
             (filter isEvent es)
             (ChromeClient.eventLog (fst (LogEvents cc0 es)))
  /\ ChromeClient.nextEventId (fst (LogEvents cc0 es)) = Z.of_nat stored
  /\ snd (LogEvents cc0 es) = map outcomeOf es
  /\ (forall (cc : ChromeClient.t) (dynamicType : string),
        LogEvent cc (VOther dynamicType)
        = (cc, Panic (LogPanic "bad log event type"))).
Proof.
  intros Hlen cc0 stored.
  destruct (LogEvents_run es cc0) as [logged [Hrun [Hids Hsame]]];
    [simpl; lia | simpl; lia |].
  rewrite Hrun. simpl. repeat split; auto.
Qed.

(** A run of four calls, the third on a value that is no event: what the
    log then holds. *)
Lemma LogEvent_assigns_consecutive_ids_witness :
  map eventIdOf
    (ChromeClient.eventLog
       (fst (LogEvents (NewChromeClient "run" 1 "" "logs")
               [VPageLifecycle
                  (PageLifecycleEvent.mk 0 0 "PageLifecycleEvent" "p" "t" "f"
                     "l" "load" (PolicyState.mk "p" []));
                VAPIAccess
                  (APIAccessEvent.mk 0 0 "APIAccess" "p" "t" "get_cookie"
                     ["7"] (PolicyState.mk "p" []));
                VOther "string";
                VDebuggerScriptParsed
                  (DebuggerScriptParsedEvent.mk 0 0 "DebuggerScriptParsed"
                     "p" "t" "7" "" "h" None)])))
  = [Some 0; Some 1; Some 2]%Z.
Proof.
  exact (proj1
    (LogEvent_assigns_consecutive_ids "run" "" "logs" 1
       [VPageLifecycle
          (PageLifecycleEvent.mk 0 0 "PageLifecycleEvent" "p" "t" "f"
             "l" "load" (PolicyState.mk "p" []));
        VAPIAccess
          (APIAccessEvent.mk 0 0 "APIAccess" "p" "t" "get_cookie"
             ["7"] (PolicyState.mk "p" []));
        VOther "string";
        VDebuggerScriptParsed
          (DebuggerScriptParsedEvent.mk 0 0 "DebuggerScriptParsed"
             "p" "t" "7" "" "h" None)]
       ltac:(simpl; lia))).
Defined.

(** ** The analysis reads the log and the policy ids only *)

Lemma crossTargetCheck_log (cc1 cc2 : ChromeClient.t)
  (apiLogs : list APIAccessEvent.t) (taintingEventId : Z)
  (policyIds : list string) :
  ChromeClient.eventLog cc1 = ChromeClient.eventLog cc2 ->
  forall st,
    crossTargetCheck cc1 apiLogs taintingEventId st policyIds
    = crossTargetCheck cc2 apiLogs taintingEventId st policyIds.
Proof.
  intros Hlog. induction policyIds as [|otherPid rest IH]; intros st; simpl.
  - reflexivity.
  - unfold NetworkRequestWillBeSentLogs. rewrite Hlog.
    destruct (NetworkRequestWillBeSentLogs_of _ otherPid) as [|e l];
      [apply IH|].
    destruct (_ && _); [|apply IH].
    destruct (NetworkRequestWillBeSentEvent.Initiator e) as [ini|];
      [|apply IH].
    destruct (Initiator.StackTrace ini) as [stack|]; [|apply IH].
    destruct (crossTrusted apiLogs stack) as [[] scripts];
      [apply IH | reflexivity].
Qed.

(** C8.  The result of [AnalyzePolicy] is determined by the event log, the
    list of policy ids and the policy id it is called with: on two session
    states that agree on the log and on the policy ids, whatever their
    other fields hold, it returns the same [PolicyAnalysis]; in particular
    two runs on one session return identical values, field by field. *)
Theorem AnalyzePolicy_deterministic (cc1 cc2 : ChromeClient.t) (pid : string) :
  ChromeClient.eventLog cc1 = ChromeClient.eventLog cc2 ->
  ChromeClient.policyIds cc1 = ChromeClient.policyIds cc2 ->
  AnalyzePolicy cc1 pid = AnalyzePolicy cc2 pid.
Proof.
  intros Hlog Hpids. unfold AnalyzePolicy.
  unfold NetworkRequestWillBeSentLogs, APIAccessLogs.
  rewrite Hlog, Hpids.
  destruct (NetworkRequestWillBeSentLogs_of _ pid) as [|first l];
    [reflexivity|].
  destruct (findTaintingEvent _) as [taintingEvent|]; [|reflexivity].
  f_equal. apply crossTargetCheck_log. exact Hlog.
Qed.

(** ** The frame loops of the analyzer *)

(** What one frame contributes in the primary check: an id that
    resolves to no group counts as trusted there. *)
Definition frameTrustedOrUnknown (ps : PolicyState.t) (cf : CallFrame.t)
  : bool :=
  match TrustGroupStateForScriptId ps (CallFrame.ScriptId cf) with
  | Some tgs => TrustGroupState.Trusted tgs
  | None => true
  end.

(** [hasUntrustedFrame ps cfv]: some frame's script id resolves to a
    group of [ps] with [Trusted = false]. *)
Definition hasUntrustedFrame (ps : PolicyState.t) (cfv : list CallFrame.t)
  : Prop :=
  exists cf tgs,
    In cf cfv
    /\ TrustGroupStateForScriptId ps (CallFrame.ScriptId cf) = Some tgs
    /\ TrustGroupState.Trusted tgs = false.

Lemma primaryStackTrusted_forallb (ps : PolicyState.t)
  (cfv : list CallFrame.t) :
  primaryStackTrusted ps cfv = forallb (frameTrustedOrUnknown ps) cfv.
Proof.
  unfold primaryStackTrusted.
  enough (H : forall acc,
             fold_left
               (fun stackTrusted cf =>
                  match TrustGroupStateForScriptId ps (CallFrame.ScriptId cf)
                  with
                  | Some tgs => stackTrusted && TrustGroupState.Trusted tgs
                  | None => stackTrusted
                  end) cfv acc
             = acc && forallb (frameTrustedOrUnknown ps) cfv)
    by (rewrite H; reflexivity).
  induction cfv as [|cf cfv IH]; intros acc; simpl.
  - rewrite andb_true_r. reflexivity.
  - rewrite IH. unfold frameTrustedOrUnknown at 2.
    destruct (TrustGroupStateForScriptId ps (CallFrame.ScriptId cf));
      [rewrite andb_assoc|]; reflexivity.
Qed.

Lemma primaryStackTrusted_false (ps : PolicyState.t) (cfv : list CallFrame.t) :
  primaryStackTrusted ps cfv = false <-> hasUntrustedFrame ps cfv.
Proof.
  rewrite primaryStackTrusted_forallb. unfold hasUntrustedFrame.
  induction cfv as [|cf cfv IH]; simpl.
  - split; [discriminate | intros [cf [tgs [[] _]]]].
  - rewrite andb_false_iff, IH. unfold frameTrustedOrUnknown at 1. split.
    + intros [H | [cf' [tgs [Hin Hrest]]]].
      * destruct (TrustGroupStateForScriptId ps (CallFrame.ScriptId cf))
          as [tgs|] eqn:E; [|discriminate].
        exists cf, tgs. auto.
      * exists cf', tgs. split; [right|]; assumption.
    + intros [cf' [tgs [[<- | Hin] [Hres Hfalse]]]].
      * left. rewrite Hres. exact Hfalse.
      * right. exists cf', tgs. auto.
Qed.

Lemma crossStackTrusted_StackIsTrusted (ps : PolicyState.t)
  (cfv : list CallFrame.t) :
  crossStackTrusted ps cfv = StackIsTrusted ps (map CallFrame.ScriptId cfv).
Proof.
  unfold crossStackTrusted.
  enough (H : forall acc,
             fold_left
               (fun stackTrusted cf =>
                  stackTrusted &&
                  match TrustGroupStateForScriptId ps (CallFrame.ScriptId cf)
                  with
                  | Some tgs => TrustGroupState.Trusted tgs
                  | None => false
                  end) cfv acc
             = acc && StackIsTrusted ps (map CallFrame.ScriptId cfv))
    by (rewrite H; reflexivity).
  induction cfv as [|cf cfv IH]; intros acc; simpl.
  - rewrite andb_true_r. reflexivity.
  - rewrite IH.
    destruct (TrustGroupStateForScriptId ps (CallFrame.ScriptId cf))
      as [tgs|]; simpl.
    + destruct (TrustGroupState.Trusted tgs); simpl;
        [rewrite andb_true_r | rewrite andb_false_r]; reflexivity.
    + rewrite andb_false_r. reflexivity.
Qed.

(** ** The primary check *)

(** The request events the primary check stops at: an initiator with a
    stack trace, an event id past the tainting event, and a frame whose
    script resolves to an untrusted group of the event's own state. *)
Definition primaryViolation (taintingEventId : Z)
  (e : NetworkRequestWillBeSentEvent.t) : Prop :=
  exists ini st,
    NetworkRequestWillBeSentEvent.Initiator e = Some ini
    /\ Initiator.StackTrace ini = Some st
    /\ (NetworkRequestWillBeSentEvent.EventId e > taintingEventId)%Z
    /\ hasUntrustedFrame (NetworkRequestWillBeSentEvent.PolicyState e)
                         (initiatorCallFrames st).

(** What the primary check records of the event it stops at. *)
Definition primaryRecord (pa : PolicyAnalysis.t)
  (e : NetworkRequestWillBeSentEvent.t) (ini : Initiator.t)
  (st : StackTrace.t) : PolicyAnalysis.t * Z :=
  (PolicyAnalysis.withRequest pa (Initiator.Type_ ini)
     (NetworkRequestWillBeSentEvent.ResourceType e)
     (NetworkRequest.URL (NetworkRequestWillBeSentEvent.Request e))
     (map CallFrame.ScriptId (initiatorCallFrames st)),
   NetworkRequestWillBeSentEvent.EventId e).

Lemma primaryCheck_skip (taintingEventId : Z) (pa : PolicyAnalysis.t)
  (e : NetworkRequestWillBeSentEvent.t)
  (rest : list NetworkRequestWillBeSentEvent.t) :
  ~ primaryViolation taintingEventId e ->
  primaryCheck taintingEventId pa (e :: rest)
  = primaryCheck taintingEventId pa rest.
Proof.
  intros Hno. simpl.
  destruct (NetworkRequestWillBeSentEvent.Initiator e) as [ini|] eqn:Hi;
    [|reflexivity].
  destruct (Initiator.StackTrace ini) as [st|] eqn:Hs; [|reflexivity].
  destruct (_ >? _)%Z eqn:Hgt; [|reflexivity].
  destruct (primaryStackTrusted _ _) eqn:Ht; [reflexivity|].
  exfalso. apply Hno. exists ini, st. repeat split; auto.
  - apply Z.gtb_lt in Hgt. lia.
  - apply primaryStackTrusted_false. exact Ht.
Qed.

Lemma primaryCheck_stop (taintingEventId : Z) (pa : PolicyAnalysis.t)
  (e : NetworkRequestWillBeSentEvent.t) (ini : Initiator.t)
  (st : StackTrace.t) (rest : list NetworkRequestWillBeSentEvent.t) :
  NetworkRequestWillBeSentEvent.Initiator e = Some ini ->
  Initiator.StackTrace ini = Some st ->
  primaryViolation taintingEventId e ->
  primaryCheck taintingEventId pa (e :: rest) = primaryRecord pa e ini st.
Proof.
  intros Hi Hs [ini' [st' [Hi' [Hs' [Hgt Hu]]]]].
  rewrite Hi in Hi'. injection Hi' as <-.
  rewrite Hs in Hs'. injection Hs' as <-.
  simpl. rewrite Hi, Hs.
  replace (_ >? _)%Z with true by (symmetry; apply Z.gtb_lt; lia).
  apply primaryStackTrusted_false in Hu. rewrite Hu. reflexivity.
Qed.

(** C1 (as amended).  The primary check of [AnalyzePolicy] stops at the
    first [NetworkRequestWillBeSentEvent] of the policy, in log order, that
    has an initiator with a stack trace, an event id greater than the
    tainting event's, and among its initiator frames (those of the parent
    trace when the trace has none of its own) one whose script id resolves
    to a group with [Trusted = false] in the event's embedded state; a
    frame whose script id is in no group does not count against the stack.
    The event's initiator type, resource type, request URL and the script
    ids of those frames are copied into the analysis, [PolicyViolated] is
    set and the event id is kept.  When no event qualifies the analysis is
    left as it was. *)
Theorem primaryCheck_first_untrusted (taintingEventId : Z)
  (pa : PolicyAnalysis.t)
  (presendLogs : list NetworkRequestWillBeSentEvent.t) :
  (forall before e after ini st,
     presendLogs = before ++ e :: after ->
     (forall e', In e' before -> ~ primaryViolation taintingEventId e') ->
     NetworkRequestWillBeSentEvent.Initiator e = Some ini ->
     Initiator.StackTrace ini = Some st ->
     primaryViolation taintingEventId e ->
     primaryCheck taintingEventId pa presendLogs = primaryRecord pa e ini st)
  /\ ((forall e, In e presendLogs -> ~ primaryViolation taintingEventId e) ->
      primaryCheck taintingEventId pa presendLogs = (pa, 0%Z)).
Proof.
  split.
  - intros before e after ini st -> Hbefore Hi Hs Hv.
    induction before as [|b before IH]; simpl app.
    + apply primaryCheck_stop; assumption.
    + rewrite primaryCheck_skip by (apply Hbefore; left; reflexivity).
      apply IH. intros e' He'. apply Hbefore. right; assumption.
  - induction presendLogs as [|e rest IH]; intros Hnone; [reflexivity|].
    rewrite primaryCheck_skip by (apply Hnone; left; reflexivity).
    apply IH. intros e' He'. apply Hnone. right; assumption.
Qed.

(** ** Sample sessions

    Every sample log is what [LogEvent] stores for a run of handler
    calls, so its event ids are the ones the session assigns. *)

Definition sessionOf (inputs : list Value) (policyIds : list string)
  : ChromeClient.t :=
  let cc := fst (LogEvents (NewChromeClient "run" 1 "" "logs") inputs) in
  ChromeClient.mk (ChromeClient.runDir cc) (ChromeClient.policyType cc)
    (ChromeClient.eventLog cc) (ChromeClient.nextEventId cc) policyIds
    (ChromeClient.instrumentationScript cc) (ChromeClient.watchedTargets cc)
    (ChromeClient.logsDir cc).

Definition frameOf (scriptId : string) : CallFrame.t :=
  CallFrame.mk "onload" scriptId "" 0 0.

Definition scriptInitiator (scriptIds : list string) : option Initiator.t :=
  Some (Initiator.mk "script"
          (Some (StackTrace.mk "" (map frameOf scriptIds) None "")) "" 0).

Definition noStackInitiator : option Initiator.t :=
  Some (Initiator.mk "other" None "" 0).

(** A request and an API access as the log holds them, with id [id],
    and as the handlers pass them to [LogEvent], with the zero id. *)

Definition requestRecord (id : Z) (pid : string) (ini : option Initiator.t)
  (resourceType url : string) (ps : PolicyState.t)
  : NetworkRequestWillBeSentEvent.t :=
  NetworkRequestWillBeSentEvent.mk id 0 "NetworkRequestWillBeSent" pid
    "target" ini "loader" "frame" false resourceType
    "http://localhost:8080/page"
    (NetworkRequest.mk url "GET" false false) ps.

Definition requestEvent (pid : string) (ini : option Initiator.t)
  (resourceType url : string) (ps : PolicyState.t) : Value :=
  VNetworkRequestWillBeSent (requestRecord 0 pid ini resourceType url ps).

Definition accessRecord (id : Z) (pid apiName : string)
  (stack : list string) (ps : PolicyState.t) : APIAccessEvent.t :=
  APIAccessEvent.mk id 0 "APIAccess" pid "target" apiName stack ps.

Definition accessEvent (pid apiName : string) (stack : list string)
  (ps : PolicyState.t) : Value :=
  VAPIAccess (accessRecord 0 pid apiName stack ps).

Definition parsedEvent (pid scriptId : string) : Value :=
  VDebuggerScriptParsed
    (DebuggerScriptParsedEvent.mk 0 0 "DebuggerScriptParsed" pid "target"
       scriptId "" "hash" None).

(** The state of an untrusting policy that holds the inline script 7. *)
Definition untrustingState : PolicyState.t :=
  PolicyState.mk "p" [TrustGroupState.mk false [] [InlineScript.mk "7" "h7"]].

(** The state of a hostname policy: script 1 of the page's origin in the
    trusted group, script 7 of another origin in the untrusted one. *)
Definition hostnameState : PolicyState.t :=
  PolicyState.mk "p"
    [TrustGroupState.mk true
       [RemoteScript.mk "1" "http://localhost:8080/static/a.js"] [];
     TrustGroupState.mk false
       [RemoteScript.mk "7" "https://evil.example/x.js"] []].

(** A document request, a tainting access by script 7 (event 1), then a
    request (event 2) started from script 99, which no group lists. *)
Definition unknownInitiatorSession : ChromeClient.t :=
  sessionOf
    [requestEvent "p" noStackInitiator "Document" "http://localhost:8080/page"
       untrustingState;
     accessEvent "p" "document_cookie" ["7"] untrustingState;
     requestEvent "p" (scriptInitiator ["99"]) "XHR" "https://httpbin.org/get"
       untrustingState]
    ["p"].

(** The primary check as C1 words it: the initiator stack is judged by
    the stack-trust predicate, for which an unknown script id makes the
    stack untrusted. *)
Definition claimedPrimaryViolation (taintingEventId : Z)
  (e : NetworkRequestWillBeSentEvent.t) : bool :=
  match NetworkRequestWillBeSentEvent.Initiator e with
  | Some ini =>
      match Initiator.StackTrace ini with
      | Some st =>
          (NetworkRequestWillBeSentEvent.EventId e >? taintingEventId)%Z
          && negb (StackIsTrusted
                     (NetworkRequestWillBeSentEvent.PolicyState e)
                     (map CallFrame.ScriptId (initiatorCallFrames st)))
      | None => false
      end
  | None => false
  end.

(** C1, counterexample.  In [unknownInitiatorSession] the tainting event
    has id 1 and the request with id 2 is the first one after it whose
    initiator stack [StackIsTrusted] rejects, yet the primary check
    records nothing and the policy is analyzed as not violated. *)
Lemma primaryCheck_unknown_script_counterexample :
  option_map APIAccessEvent.EventId
    (findTaintingEvent (APIAccessLogs unknownInitiatorSession "p")) = Some 1%Z
  /\ option_map NetworkRequestWillBeSentEvent.EventId
       (find (claimedPrimaryViolation 1)
          (NetworkRequestWillBeSentLogs unknownInitiatorSession "p"))
     = Some 2%Z
  /\ (forall pa,
        primaryCheck 1 pa
          (NetworkRequestWillBeSentLogs unknownInitiatorSession "p")
        = (pa, 0%Z))
  /\ PolicyAnalysis.PolicyViolated (AnalyzePolicy unknownInitiatorSession "p")
     = false.
Proof.
  repeat split; vm_compute; reflexivity.
Qed.

(** The primary check at work on a concrete log: the request of event 2
    is started from the untrusted script 7 and is recorded. *)
Example primaryCheck_records_request :
  AnalyzePolicy
    (sessionOf
       [requestEvent "p" noStackInitiator "Document"
          "http://localhost:8080/page" untrustingState;
        accessEvent "p" "document_cookie" ["7"] untrustingState;
        requestEvent "p" (scriptInitiator ["7"]) "XHR"
          "https://httpbin.org/get" untrustingState]
       ["p"])
    "p"
  = PolicyAnalysis.mk "p" "http://localhost:8080/page" true "document_cookie"
      "XHR" "https://httpbin.org/get" "script" ["7"].
Proof. vm_compute. reflexivity. Qed.

(** A session that agrees with [unknownInitiatorSession] on the log and
    on the policy ids and on nothing else. *)
Lemma AnalyzePolicy_deterministic_witness :
  AnalyzePolicy unknownInitiatorSession "p"
  = AnalyzePolicy
      (ChromeClient.mk "elsewhere" 3
         (ChromeClient.eventLog unknownInitiatorSession) 17
         (ChromeClient.policyIds unknownInitiatorSession)
         "debugger;" ["target"] "elsewhere/logs")
      "p".
Proof.
  apply AnalyzePolicy_deterministic; reflexivity.
Defined.

(** ** The exfiltration-probe check *)

(** The API accesses the probe check stops at, given the analysis and
    the event id the primary check left. *)
Definition probeSupersedes (taintingEventId : Z) (st : PolicyAnalysis.t * Z)
  (e : APIAccessEvent.t) : Prop :=
  isProbe e = true
  /\ StackIsTrusted (APIAccessEvent.PolicyState e)
                    (APIAccessEvent.ScriptIdStack e) = false
  /\ (APIAccessEvent.EventId e > taintingEventId)%Z
  /\ (PolicyAnalysis.PolicyViolated (fst st) = false
      \/ (APIAccessEvent.EventId e < snd st)%Z).

Lemma probeCheck_skip (taintingEventId : Z) (st : PolicyAnalysis.t * Z)
  (e : APIAccessEvent.t) (rest : list APIAccessEvent.t) :
  ~ probeSupersedes taintingEventId st e ->
  probeCheck taintingEventId st (e :: rest)
  = probeCheck taintingEventId st rest.
Proof.
  intros Hno. simpl.
  destruct (isProbe e) eqn:Hp; simpl; [|reflexivity].
  destruct (StackIsTrusted (APIAccessEvent.PolicyState e) _) eqn:Ht;
    [reflexivity|].
  destruct (_ && _) eqn:Hc; [|reflexivity].
  exfalso. apply Hno. apply andb_true_iff in Hc. destruct Hc as [Hgt Hor].
  apply Z.gtb_lt in Hgt. apply orb_true_iff in Hor.
  repeat split; auto; [lia|].
  destruct Hor as [Hv | Hlt].
  - left. apply negb_true_iff. exact Hv.
  - right. apply Z.ltb_lt. exact Hlt.
Qed.

Lemma probeCheck_stop (taintingEventId : Z) (st : PolicyAnalysis.t * Z)
  (e : APIAccessEvent.t) (rest : list APIAccessEvent.t) :
  probeSupersedes taintingEventId st e ->
  probeCheck taintingEventId st (e :: rest)
  = (PolicyAnalysis.withProbe (fst st) (APIAccessEvent.ScriptIdStack e),
     APIAccessEvent.EventId e).
Proof.
  intros [Hp [Ht [Hgt Hor]]]. simpl. rewrite Hp, Ht. simpl.
  replace (_ >? _)%Z with true by (symmetry; apply Z.gtb_lt; lia).
  replace (negb _ || _) with true; [reflexivity|].
  symmetry. apply orb_true_iff. destruct Hor as [Hv | Hlt].
  - left. rewrite Hv. reflexivity.
  - right. apply Z.ltb_lt. exact Hlt.
Qed.

(** Scenario D, with the script-id stack of the probe left open: event 3
    is the tainting access by script 7, event 5 the probe, event 8 a
    request started from script 7. *)
Definition scenarioD (probeStack : list string) : ChromeClient.t :=
  sessionOf
    [requestEvent "p" noStackInitiator "Document" "http://localhost:8080/page"
       hostnameState;
     parsedEvent "p" "1";
     parsedEvent "p" "7";
     accessEvent "p" "document_cookie" ["7"] hostnameState;
     parsedEvent "p" "8";
     accessEvent "p" "exfiltration_probe" probeStack hostnameState;
     parsedEvent "p" "9";
     parsedEvent "p" "10";
     requestEvent "p" (scriptInitiator ["7"]) "XHR" "https://httpbin.org/get"
       hostnameState]
    ["p"].

(** The probe check as C3 words it: no condition on the probe's stack. *)
Definition claimedProbeSupersedes (taintingEventId : Z)
  (st : PolicyAnalysis.t * Z) (e : APIAccessEvent.t) : bool :=
  isProbe e
  && (APIAccessEvent.EventId e >? taintingEventId)%Z
  && (negb (PolicyAnalysis.PolicyViolated (fst st))
      || (APIAccessEvent.EventId e <? snd st)%Z).

(** C3 (as amended).  Among the API accesses of the policy whose name
    starts with "exfiltration_" and whose script-id stack is not fully
    trusted under their embedded state, the first one, in log order, with
    an event id greater than the tainting event's that either comes when
    no violation was found or has a smaller event id than the violation
    found supersedes the result of the primary check: it is reported with
    resource type "Document", initiator "script" and its own script-id
    stack.  A probe whose stack is trusted is passed over, and without a
    qualifying probe the result stands.  In Scenario D (tainting at event
    3, a probe from the untrusted script 7 at event 5, a request violation
    at event 8) the probe wins. *)
Theorem probeCheck_first_untrusted_probe (taintingEventId : Z)
  (st : PolicyAnalysis.t * Z) (apiLogs : list APIAccessEvent.t) :
  (forall before e after,
     apiLogs = before ++ e :: after ->
     (forall e', In e' before -> ~ probeSupersedes taintingEventId st e') ->
     probeSupersedes taintingEventId st e ->
     probeCheck taintingEventId st apiLogs
     = (PolicyAnalysis.withProbe (fst st) (APIAccessEvent.ScriptIdStack e),
        APIAccessEvent.EventId e))
  /\ ((forall e, In e apiLogs -> ~ probeSupersedes taintingEventId st e) ->
      probeCheck taintingEventId st apiLogs = st)
  /\ (option_map APIAccessEvent.EventId
        (findTaintingEvent (APIAccessLogs (scenarioD ["7"]) "p")) = Some 3%Z
      /\ snd (primaryCheck 3 (PolicyAnalysis.mk "p" "" false "" "" "" "" [])
                (NetworkRequestWillBeSentLogs (scenarioD ["7"]) "p")) = 8%Z
      /\ AnalyzePolicy (scenarioD ["7"]) "p"
         = PolicyAnalysis.mk "p" "http://localhost:8080/page" true
             "document_cookie" "Document" "https://httpbin.org/get" "script"
             ["7"]).
Proof.
  split; [|split].
  - intros before e after -> Hbefore He.
    induction before as [|b before IH]; simpl app.
    + apply probeCheck_stop. exact He.
    + rewrite probeCheck_skip by (apply Hbefore; left; reflexivity).
      apply IH. intros e' He'. apply Hbefore. right; assumption.
  - induction apiLogs as [|e rest IH]; intros Hnone; [reflexivity|].
    rewrite probeCheck_skip by (apply Hnone; left; reflexivity).
    apply IH. intros e' He'. apply Hnone. right; assumption.
  - repeat split; vm_compute; reflexivity.
Qed.

(** C3, counterexample.  Scenario D with the probe of event 5 raised from
    the trusted script 1: it is the first probe after the tainting event
    (3) with a smaller event id than the violation found (8), yet the
    request of event 8 stays the reported violation. *)
Lemma probeCheck_trusted_probe_counterexample :
  option_map APIAccessEvent.EventId
    (findTaintingEvent (APIAccessLogs (scenarioD ["1"]) "p")) = Some 3%Z
  /\ option_map APIAccessEvent.EventId
       (find (claimedProbeSupersedes 3
                (primaryCheck 3 (PolicyAnalysis.mk "p" "" false "" "" "" "" [])
                   (NetworkRequestWillBeSentLogs (scenarioD ["1"]) "p")))
          (APIAccessLogs (scenarioD ["1"]) "p"))
     = Some 5%Z
  /\ AnalyzePolicy (scenarioD ["1"]) "p"
     = PolicyAnalysis.mk "p" "http://localhost:8080/page" true
         "document_cookie" "XHR" "https://httpbin.org/get" "script" ["7"].
Proof.
  repeat split; vm_compute; reflexivity.
Qed.

(** ** Registration of scripts *)

Lemma firstIndex_some {A : Type} (f : A -> bool) (l : list A) (i : nat)
  (x : A) :
  firstIndex f l = Some (i, x) <->
  exists before after,
    l = before ++ x :: after /\ i = List.length before /\ f x = true
    /\ forall y, In y before -> f y = false.
Proof.
  revert i. induction l as [|a l IH]; intros i; simpl.
  - split; [discriminate|].
    intros [before [after [Heq _]]]. destruct before; discriminate.
  - destruct (f a) eqn:Hfa.
    + split.
      * intros [= <- <-]. exists [], l. repeat split; auto. intros y [].
      * intros [before [after [Heq [Hi [Hx Hbefore]]]]].
        destruct before as [|b before]; simpl in Heq.
        -- injection Heq as <- _. subst i. reflexivity.
        -- injection Heq as <- _.
           rewrite (Hbefore a (or_introl eq_refl)) in Hfa. discriminate.
    + destruct (firstIndex f l) as [[j y]|] eqn:E.
      * split.
        -- intros [= <- <-].
           destruct (proj1 (IH j) eq_refl)
             as [before [after [Heq [Hj [Hx Hbefore]]]]].
           exists (a :: before), after. subst. repeat split; auto.
           intros z [<- | Hz]; auto.
        -- intros [before [after [Heq [Hi [Hx Hbefore]]]]].
           destruct before as [|b before]; simpl in Heq.
           ++ injection Heq as -> _. congruence.
           ++ injection Heq as <- ->. simpl in Hi. subst i.
              assert (H : Some (j, y) = Some (List.length before, x)).
              { apply IH. exists before, after. repeat split; auto.
                intros z Hz. apply Hbefore. right; assumption. }
              injection H as -> ->. reflexivity.
      * split; [discriminate|].
        intros [before [after [Heq [Hi [Hx Hbefore]]]]]. exfalso.
        destruct before as [|b before]; simpl in Heq.
        -- injection Heq as -> _. congruence.
        -- injection Heq as <- ->.
           assert (H : None = Some (List.length before, x)).
           { apply IH. exists before, after. repeat split; auto.
             intros z Hz. apply Hbefore. right; assumption. }
           discriminate.
Qed.

Lemma firstIndex_none {A : Type} (f : A -> bool) (l : list A) :
  firstIndex f l = None <-> forall y, In y l -> f y = false.
Proof.
  induction l as [|a l IH]; simpl.
  - split; [intros _ y [] | reflexivity].
  - destruct (f a) eqn:Hfa.
    + split; [discriminate|]. intros H.
      rewrite (H a (or_introl eq_refl)) in Hfa. discriminate.
    + destruct (firstIndex f l) as [[j y]|].
      * split; [discriminate|]. intros H.
        assert (Hn : @None (nat * A) = None) by reflexivity.
        assert (Hl : forall z, In z l -> f z = false)
          by (intros z Hz; apply H; right; assumption).
        apply IH in Hl. discriminate.
      * split; [|reflexivity]. intros _ z [<- | Hz]; auto.
        apply (proj1 IH eq_refl). assumption.
Qed.

Lemma updateAt_app {A : Type} (before after : list A) (x : A) (f : A -> A) :
  updateAt (before ++ x :: after) (List.length before) f
  = before ++ f x :: after.
Proof.
  induction before as [|b before IH]; simpl; [reflexivity|].
  rewrite IH. reflexivity.
Qed.

(** [frameUntrusted p cf]: the script of the frame is registered, and the
    group [TrustGroupForScriptId] finds for it has [Trusted = false]. *)
Definition frameUntrusted (p : Policy.t) (cf : CallFrame.t) : Prop :=
  exists i tg,
    TrustGroupForScriptId p (CallFrame.ScriptId cf) = Some (i, tg)
    /\ TrustGroup.Trusted tg = false.

Lemma inheritedGroup_some (p : Policy.t) (frames : list CallFrame.t)
  (i : nat) :
  inheritedGroup p frames = Some i <->
  exists before cf after tg,
    frames = before ++ cf :: after
    /\ TrustGroupForScriptId p (CallFrame.ScriptId cf) = Some (i, tg)
    /\ TrustGroup.Trusted tg = false
    /\ forall cf', In cf' before -> ~ frameUntrusted p cf'.
Proof.
  induction frames as [|cf frames IH]; simpl.
  - split; [discriminate|].
    intros [before [cf [after [tg [Heq _]]]]]. destruct before; discriminate.
  - destruct (TrustGroupForScriptId p (CallFrame.ScriptId cf))
      as [[j tg]|] eqn:E.
    + destruct (TrustGroup.Trusted tg) eqn:Ht; simpl.
      * rewrite IH. split.
        -- intros [before [cf' [after [tg' [Heq [Hres [Hun Hbefore]]]]]]].
           exists (cf :: before), cf', after, tg'. subst.
           repeat split; auto.
           intros c [<- | Hc]; [|auto].
           intros [k [g [Hk Hg]]]. rewrite E in Hk. injection Hk as <- <-.
           congruence.
        -- intros [before [cf' [after [tg' [Heq [Hres [Hun Hbefore]]]]]]].
           destruct before as [|b before]; simpl in Heq.
           ++ injection Heq as <- _. rewrite E in Hres.
              injection Hres as <- <-. congruence.
           ++ injection Heq as <- ->. exists before, cf', after, tg'.
              repeat split; auto. intros c Hc. apply Hbefore.
              right; assumption.
      * split.
        -- intros [= <-]. exists [], cf, frames, tg.
           repeat split; auto; intros c [].
        -- intros [before [cf' [after [tg' [Heq [Hres [Hun Hbefore]]]]]]].
           destruct before as [|b before]; simpl in Heq.
           ++ injection Heq as <- _. rewrite E in Hres.
              injection Hres as <- _. reflexivity.
           ++ injection Heq as <- _. exfalso.
              apply (Hbefore cf (or_introl eq_refl)). exists j, tg. auto.
    + rewrite IH. split.
      * intros [before [cf' [after [tg' [Heq [Hres [Hun Hbefore]]]]]]].
        exists (cf :: before), cf', after, tg'. subst. repeat split; auto.
        intros c [<- | Hc]; [|auto].
        intros [k [g [Hk Hg]]]. rewrite E in Hk. discriminate.
      * intros [before [cf' [after [tg' [Heq [Hres [Hun Hbefore]]]]]]].
        destruct before as [|b before]; simpl in Heq.
        -- injection Heq as <- _. rewrite E in Hres. discriminate.
        -- injection Heq as <- ->. exists before, cf', after, tg'.
           repeat split; auto. intros c Hc. apply Hbefore. right; assumption.
Qed.


Lemma addToGroup_at (p : Policy.t) (before after : list TrustGroup.t)
  (tg : TrustGroup.t) (add : ScriptSet -> ScriptSet) :
  Policy.trustGroups p = before ++ tg :: after ->
  addToGroup p (List.length before) add
  = Policy.mk (Policy.Id p)
      (before
       ++ TrustGroup.withScriptSet tg (add (TrustGroup.scriptSet tg))
       :: after).
Proof.
  intros Heq. unfold addToGroup. rewrite Heq, updateAt_app. reflexivity.
Qed.




(** Stand-ins for the two library parameters on the sample URLs:
    [sampleParse] returns what [url.Parse] returns for the absolute and
    the relative URLs of the samples and for a bad escape, [sampleMatch]
    is a rule list with the one rule "https://ads.". *)
Definition sampleParse (u : string) : option URL.t :=
  if String.prefix "http://localhost:8080/" u
  then Some (URL.mk "http" "localhost:8080")
  else if String.prefix "https://evil.example/" u
  then Some (URL.mk "https" "evil.example")
  else if String.prefix "%" u then None
  else Some (URL.mk "" "").

Definition sampleMatch (u : string) : option bool :=
  Some (String.prefix "https://ads." u).

(** A hostname policy for the page origin after the remote script 7 of
    another origin was registered: script 7 sits in the untrusted
    group. *)
Definition hostnamePolicyWith7 : Policy.t :=
  fst (RegisterRemoteScript sampleParse sampleMatch
         (NewHostnamePolicy "p" ["http://localhost:8080"])
         "7" "https://evil.example/x.js" None).


Section RegistrationProperties.

Variable url_Parse : string -> option URL.t.
Variable matcher_Match : string -> option bool.


End RegistrationProperties.


(** ** Hostname policies *)

(** The policies reached from [NewHostnamePolicy id hosts]: the hostname
    group first and trusted, the universal group second and untrusted,
    each with the scripts registered so far ([Tainted] is never set). *)
Definition hostnamePolicy (id : string) (hosts : list string)
  (rs0 : list RemoteScript.t) (is0 : list InlineScript.t)
  (rs1 : list RemoteScript.t) (is1 : list InlineScript.t) : Policy.t :=
  Policy.mk id
    [TrustGroup.mk (HostnameScriptSet hosts rs0 is0) true false;
     TrustGroup.mk (UniversalScriptSet rs1 is1) false false].

Lemma existsb_origin (hosts : list string) (o : string) :
  existsb (fun h => String.eqb h o) hosts = true <-> In o hosts.
Proof.
  rewrite existsb_exists. split.
  - intros [h [Hin Heq]]. apply String.eqb_eq in Heq. subst. exact Hin.
  - intros Hin. exists o. split; [exact Hin | apply String.eqb_refl].
Qed.

Section HostnameProperties.

Variable url_Parse : string -> option URL.t.
Variable matcher_Match : string -> option bool.

Lemma NewHostnamePolicy_hostnamePolicy (id : string) (hosts : list string) :
  NewHostnamePolicy id hosts = hostnamePolicy id hosts [] [] [] [].
Proof. reflexivity. Qed.

Lemma hostnamePolicy_addToGroup (id : string) (hosts : list string)
  (rs0 : list RemoteScript.t) (is0 : list InlineScript.t)
  (rs1 : list RemoteScript.t) (is1 : list InlineScript.t) (i : nat)
  (add : ScriptSet -> ScriptSet) :
  (forall hs rs ils, exists rs' ils',
      add (HostnameScriptSet hs rs ils) = HostnameScriptSet hs rs' ils') ->
  (forall rs ils, exists rs' ils',
      add (UniversalScriptSet rs ils) = UniversalScriptSet rs' ils') ->
  exists rs0' is0' rs1' is1',
    addToGroup (hostnamePolicy id hosts rs0 is0 rs1 is1) i add
    = hostnamePolicy id hosts rs0' is0' rs1' is1'.
Proof.
  intros Hh Hu. destruct i as [|[|i]]; unfold addToGroup; simpl.
  - destruct (Hh hosts rs0 is0) as [rs' [ils' ->]].
    exists rs', ils', rs1, is1. reflexivity.
  - destruct (Hu rs1 is1) as [rs' [ils' ->]].
    exists rs0, is0, rs', ils'. reflexivity.
  - exists rs0, is0, rs1, is1. reflexivity.
Qed.

(** Registrations keep a hostname policy a hostname policy. *)
Lemma Register_hostnamePolicy (id : string) (hosts : list string)
  (rs0 : list RemoteScript.t) (is0 : list InlineScript.t)
  (rs1 : list RemoteScript.t) (is1 : list InlineScript.t)
  (scriptId content : string) (st : option StackTrace.t) :
  (exists rs0' is0' rs1' is1',
      fst (RegisterRemoteScript url_Parse matcher_Match
             (hostnamePolicy id hosts rs0 is0 rs1 is1) scriptId content st)
      = hostnamePolicy id hosts rs0' is0' rs1' is1')
  /\ (exists rs0' is0' rs1' is1',
         fst (RegisterInlineScript
                (hostnamePolicy id hosts rs0 is0 rs1 is1) scriptId content st)
         = hostnamePolicy id hosts rs0' is0' rs1' is1').
Proof.
  assert (Hr : forall i, exists rs0' is0' rs1' is1',
               addToGroup (hostnamePolicy id hosts rs0 is0 rs1 is1) i
                 (fun ss => AddRemoteScript ss scriptId content)
               = hostnamePolicy id hosts rs0' is0' rs1' is1').
  { intros i. apply hostnamePolicy_addToGroup; intros; simpl; eauto. }
  assert (Hi : forall i, exists rs0' is0' rs1' is1',
               addToGroup (hostnamePolicy id hosts rs0 is0 rs1 is1) i
                 (fun ss => AddInlineScript ss scriptId content)
               = hostnamePolicy id hosts rs0' is0' rs1' is1').
  { intros i. apply hostnamePolicy_addToGroup; intros; simpl; eauto. }
  split.
  - unfold RegisterRemoteScript.
    destruct (inheritedFromStack _ st) as [i|]; [apply Hr|].
    destruct (firstIndex _ _) as [[i g]|]; [apply Hr|].
    exists rs0, is0, rs1, is1. reflexivity.
  - unfold RegisterInlineScript.
    destruct (inheritedFromStack _ st) as [i|]; [apply Hi|].
    destruct (firstIndex _ _) as [[i g]|]; [apply Hi|].
    exists rs0, is0, rs1, is1. reflexivity.
Qed.

(** C6.  In a hostname policy, a remote-script registration that inherits
    no group from its stack puts the script in the trusted hostname group
    (index 0) exactly when its URL parses and [scheme://host] of the parsed
    URL is one of the configured origins, and otherwise in the untrusted
    universal group that follows (index 1).  The hostname set accepts every
    inline script, so such an inline registration goes to the hostname
    group. *)
Theorem Hostname_policy_classifies_by_origin
  (id : string) (hosts : list string)
  (rs0 : list RemoteScript.t) (is0 : list InlineScript.t)
  (rs1 : list RemoteScript.t) (is1 : list InlineScript.t)
  (scriptId scriptURL : string) (st : option StackTrace.t) :
  inheritedFromStack (hostnamePolicy id hosts rs0 is0 rs1 is1) st = None ->
  ((exists u, url_Parse scriptURL = Some u /\ In (origin u) hosts) ->
   RegisterRemoteScript url_Parse matcher_Match
     (hostnamePolicy id hosts rs0 is0 rs1 is1) scriptId scriptURL st
   = (hostnamePolicy id hosts
        (rs0 ++ [RemoteScript.mk scriptId scriptURL]) is0 rs1 is1,
      Some 0))
  /\ (~ (exists u, url_Parse scriptURL = Some u /\ In (origin u) hosts) ->
      RegisterRemoteScript url_Parse matcher_Match
        (hostnamePolicy id hosts rs0 is0 rs1 is1) scriptId scriptURL st
      = (hostnamePolicy id hosts rs0 is0
           (rs1 ++ [RemoteScript.mk scriptId scriptURL]) is1,
         Some 1))
  /\ (forall hash,
        ContainsInlineScript (HostnameScriptSet hosts rs0 is0) scriptId hash
        = true
        /\ RegisterInlineScript
             (hostnamePolicy id hosts rs0 is0 rs1 is1) scriptId hash st
           = (hostnamePolicy id hosts rs0
                (is0 ++ [InlineScript.mk scriptId hash]) rs1 is1,
              Some 0)).
Proof.
  intros Hinherit. split; [|split].
  - intros [u [Hparse Hin]]. unfold RegisterRemoteScript.
    rewrite Hinherit. simpl. rewrite Hparse.
    rewrite (proj2 (existsb_origin hosts (origin u)) Hin). reflexivity.
  - intros Hnot. unfold RegisterRemoteScript. rewrite Hinherit. simpl.
    destruct (url_Parse scriptURL) as [u|] eqn:Hparse; [|reflexivity].
    destruct (existsb _ hosts) eqn:E; [|reflexivity].
    exfalso. apply Hnot. exists u. split; [reflexivity|].
    apply existsb_origin. exact E.
  - intros hash. split; [reflexivity|].
    unfold RegisterInlineScript. rewrite Hinherit. reflexivity.
Qed.

End HostnameProperties.

(** Scenario C on [sampleParse]: with the trusted origin of the page, a
    script of that origin is registered in the hostname group, one of
    another origin and one whose URL does not parse in the universal
    group. *)
Lemma Hostname_policy_classifies_by_origin_witness :
  inheritedFromStack (hostnamePolicy "p" ["http://localhost:8080"] [] [] [] [])
    None = None
  /\ snd (RegisterRemoteScript sampleParse sampleMatch
            (hostnamePolicy "p" ["http://localhost:8080"] [] [] [] [])
            "1" "http://localhost:8080/static/a.js" None) = Some 0
  /\ snd (RegisterRemoteScript sampleParse sampleMatch
            (hostnamePolicy "p" ["http://localhost:8080"] [] [] [] [])
            "7" "https://evil.example/x.js" None) = Some 1
  /\ snd (RegisterRemoteScript sampleParse sampleMatch
            (hostnamePolicy "p" ["http://localhost:8080"] [] [] [] [])
            "9" "%zz" None) = Some 1.
Proof.
  split; [reflexivity|].
  destruct (Hostname_policy_classifies_by_origin sampleParse sampleMatch
              "p" ["http://localhost:8080"] [] [] [] []
              "1" "http://localhost:8080/static/a.js" None eq_refl)
    as [Hin _].
  destruct (Hostname_policy_classifies_by_origin sampleParse sampleMatch
              "p" ["http://localhost:8080"] [] [] [] []
              "7" "https://evil.example/x.js" None eq_refl)
    as [_ [Hout _]].
  destruct (Hostname_policy_classifies_by_origin sampleParse sampleMatch
              "p" ["http://localhost:8080"] [] [] [] []
              "9" "%zz" None eq_refl)
    as [_ [Hbad _]].
  split; [|split].
  - rewrite Hin; [reflexivity|].
    exists (URL.mk "http" "localhost:8080"). split; [reflexivity|].
    left. reflexivity.
  - rewrite Hout; [reflexivity|].
    intros [u [Hparse Hin']]. vm_compute in Hparse. injection Hparse as <-.
    destruct Hin' as [Heq | []]. discriminate.
  - rewrite Hbad; [reflexivity|].
    intros [u [Hparse _]]. vm_compute in Hparse. discriminate.
Defined.

(** Inheritance along the trace's own frames: script 8 of the page's
    origin, created by a frame of the untrusted script 7, joins the
    untrusted group. *)
Example Register_inherits_untrusted :
  snd (RegisterRemoteScript sampleParse sampleMatch hostnamePolicyWith7
         "8" "http://localhost:8080/static/b.js"
         (Some (StackTrace.mk "" [frameOf "7"] None "")))
  = Some 1.
Proof. vm_compute. reflexivity. Qed.

(** An inline script inherited into a filter-list group is stored in
    the set, but [InlineScripts] of that set stays nil, so the script is
    not found afterwards. *)
Example FilterList_inline_not_listed :
  let p0 := fst (RegisterRemoteScript sampleParse sampleMatch
                   (NewFilterListPolicy "p") "3" "https://ads.example/t.js"
                   None) in
  let r := RegisterInlineScript p0 "4" "h4"
             (Some (StackTrace.mk "" [frameOf "3"] None "")) in
  snd r = Some 0 /\ TrustGroupForScriptId (fst r) "4" = None.
Proof. vm_compute. split; reflexivity. Qed.

(** ** The cross-target check *)

(** The policy ids the cross-target loop stops at: the first request
    logged for the id comes after the tainting event and before the
    violation found so far, has an initiator stack, and that stack is
    rejected by the state of the last API access of the analyzed
    policy. *)
Definition crossSupersedes (cc : ChromeClient.t)
  (apiLogs : list APIAccessEvent.t) (taintingEventId : Z)
  (st : PolicyAnalysis.t * Z) (otherPid : string) : Prop :=
  exists e rest ini stack lastApi,
    NetworkRequestWillBeSentLogs cc otherPid = e :: rest
    /\ (NetworkRequestWillBeSentEvent.EventId e > taintingEventId)%Z
    /\ (PolicyAnalysis.PolicyViolated (fst st) = false
        \/ (NetworkRequestWillBeSentEvent.EventId e < snd st)%Z)
    /\ NetworkRequestWillBeSentEvent.Initiator e = Some ini
    /\ Initiator.StackTrace ini = Some stack
    /\ lastOf apiLogs = Some lastApi
    /\ StackIsTrusted (APIAccessEvent.PolicyState lastApi)
         (map CallFrame.ScriptId (initiatorCallFrames stack)) = false.

Lemma crossTargetCheck_skip (cc : ChromeClient.t)
  (apiLogs : list APIAccessEvent.t) (taintingEventId : Z)
  (st : PolicyAnalysis.t * Z) (otherPid : string) (rest : list string) :
  ~ crossSupersedes cc apiLogs taintingEventId st otherPid ->
  crossTargetCheck cc apiLogs taintingEventId st (otherPid :: rest)
  = crossTargetCheck cc apiLogs taintingEventId st rest.
Proof.
  intros Hno. simpl.
  destruct (NetworkRequestWillBeSentLogs cc otherPid) as [|e l] eqn:El;
    [reflexivity|].
  destruct (_ && _) eqn:Hc; [|reflexivity].
  destruct (NetworkRequestWillBeSentEvent.Initiator e) as [ini|] eqn:Hi;
    [|reflexivity].
  destruct (Initiator.StackTrace ini) as [stack|] eqn:Hs; [|reflexivity].
  unfold crossTrusted.
  destruct (lastOf apiLogs) as [lastApi|] eqn:Hl; [|reflexivity].
  destruct (crossStackTrusted _ _) eqn:Ht; [reflexivity|].
  exfalso. apply Hno. exists e, l, ini, stack, lastApi.
  apply andb_true_iff in Hc. destruct Hc as [Hgt Hor].
  apply Z.gtb_lt in Hgt. apply orb_true_iff in Hor.
  rewrite crossStackTrusted_StackIsTrusted in Ht.
  repeat split; auto; [lia|].
  destruct Hor as [Hv | Hlt].
  - left. apply negb_true_iff. exact Hv.
  - right. apply Z.ltb_lt. exact Hlt.
Qed.

Lemma crossTargetCheck_stop (cc : ChromeClient.t)
  (apiLogs : list APIAccessEvent.t) (taintingEventId : Z)
  (st : PolicyAnalysis.t * Z) (otherPid : string) (rest : list string)
  (e : NetworkRequestWillBeSentEvent.t)
  (l : list NetworkRequestWillBeSentEvent.t) (ini : Initiator.t)
  (stack : StackTrace.t) :
  NetworkRequestWillBeSentLogs cc otherPid = e :: l ->
  NetworkRequestWillBeSentEvent.Initiator e = Some ini ->
  Initiator.StackTrace ini = Some stack ->
  crossSupersedes cc apiLogs taintingEventId st otherPid ->
  crossTargetCheck cc apiLogs taintingEventId st (otherPid :: rest)
  = (PolicyAnalysis.withRequest (fst st) (Initiator.Type_ ini)
       (NetworkRequestWillBeSentEvent.ResourceType e)
       (NetworkRequest.URL (NetworkRequestWillBeSentEvent.Request e))
       (map CallFrame.ScriptId (initiatorCallFrames stack)),
     NetworkRequestWillBeSentEvent.EventId e).
Proof.
  intros El Hi Hs [e' [l' [ini' [stack' [lastApi H]]]]].
  destruct H as [El' [Hgt [Hor [Hi' [Hs' [Hl Ht]]]]]].
  rewrite El in El'. injection El' as <- <-.
  rewrite Hi in Hi'. injection Hi' as <-.
  rewrite Hs in Hs'. injection Hs' as <-.
  simpl. rewrite El.
  replace (_ >? _)%Z with true by (symmetry; apply Z.gtb_lt; lia).
  replace (negb _ || _) with true.
  - simpl. rewrite Hi, Hs. unfold crossTrusted. rewrite Hl.
    rewrite crossStackTrusted_StackIsTrusted, Ht. reflexivity.
  - symmetry. apply orb_true_iff. destruct Hor as [Hv | Hlt].
    + left. rewrite Hv. reflexivity.
    + right. apply Z.ltb_lt. exact Hlt.
Qed.

(** The loop visits the policy ids in the order of [policyIds], the
    analyzed one like the others, and ends at the first id that
    qualifies. *)
Lemma crossTargetCheck_first_in_order (cc : ChromeClient.t)
  (apiLogs : list APIAccessEvent.t) (taintingEventId : Z)
  (st : PolicyAnalysis.t * Z) (before : list string) (otherPid : string)
  (after : list string) (e : NetworkRequestWillBeSentEvent.t)
  (l : list NetworkRequestWillBeSentEvent.t) (ini : Initiator.t)
  (stack : StackTrace.t) :
  (forall q, In q before ->
             ~ crossSupersedes cc apiLogs taintingEventId st q) ->
  NetworkRequestWillBeSentLogs cc otherPid = e :: l ->
  NetworkRequestWillBeSentEvent.Initiator e = Some ini ->
  Initiator.StackTrace ini = Some stack ->
  crossSupersedes cc apiLogs taintingEventId st otherPid ->
  crossTargetCheck cc apiLogs taintingEventId st
    (before ++ otherPid :: after)
  = (PolicyAnalysis.withRequest (fst st) (Initiator.Type_ ini)
       (NetworkRequestWillBeSentEvent.ResourceType e)
       (NetworkRequest.URL (NetworkRequestWillBeSentEvent.Request e))
       (map CallFrame.ScriptId (initiatorCallFrames stack)),
     NetworkRequestWillBeSentEvent.EventId e).
Proof.
  intros Hbefore El Hi Hs Hq.
  induction before as [|b before IH]; simpl app.
  - apply crossTargetCheck_stop with (l := l); assumption.
  - rewrite crossTargetCheck_skip by (apply Hbefore; left; reflexivity).
    apply IH. intros q Hq'. apply Hbefore. right; assumption.
Qed.

(** A session with the single policy p: a tainting access by script 7
    (event 0), then the policy's first request (event 1), started from
    script 99, which no group lists. *)
Definition ownRequestSession : ChromeClient.t :=
  sessionOf
    [accessEvent "p" "document_cookie" ["7"] untrustingState;
     requestEvent "p" (scriptInitiator ["99"]) "XHR" "https://httpbin.org/get"
       untrustingState]
    ["p"].

(** C4, the code at the failing input.  In [ownRequestSession] there is
    no policy other than the analyzed one and the primary and the probe
    check leave the analysis without a violation; the cross-target loop
    then visits the analyzed policy itself and reports its own first
    request as the violation. *)
Theorem crossTargetCheck_visits_analyzed_policy :
  ChromeClient.policyIds ownRequestSession = ["p"]
  /\ option_map APIAccessEvent.EventId
       (findTaintingEvent (APIAccessLogs ownRequestSession "p")) = Some 0%Z
  /\ (forall pa,
        probeCheck 0
          (primaryCheck 0 pa
             (NetworkRequestWillBeSentLogs ownRequestSession "p"))
          (APIAccessLogs ownRequestSession "p")
        = (pa, 0%Z))
  /\ crossSupersedes ownRequestSession
       (APIAccessLogs ownRequestSession "p") 0
       (PolicyAnalysis.mk "p" "" false "" "" "" "" [], 0%Z) "p"
  /\ AnalyzePolicy ownRequestSession "p"
     = PolicyAnalysis.mk "p" "http://localhost:8080/page" true
         "document_cookie" "XHR" "https://httpbin.org/get" "script" ["99"].
Proof.
  split; [reflexivity|]. split; [reflexivity|].
  split; [intros pa; reflexivity|]. split; [|vm_compute; reflexivity].
  eexists _, _, _, _, _.
  split; [vm_compute; reflexivity|].
  split; [simpl; lia|].
  split; [left; reflexivity|].
  split; [reflexivity|]. split; [reflexivity|].
  split; [vm_compute; reflexivity | vm_compute; reflexivity].
Qed.

(** ** The pause handler *)

Section PauseHandlerProperties.

Variable respond : list Request -> Request -> option string.
Variable now : Z.

(** What a handler step may have done to the world: requests other than
    [Debugger.resume] sent, the session untouched. *)
Definition quietStep (w w' : World.t) : Prop :=
  exists extra,
    World.sent w' = World.sent w ++ extra
    /\ ~ In DebuggerResume extra
    /\ World.chromeClient w' = World.chromeClient w.

Lemma quietStep_refl (w : World.t) : quietStep w w.
Proof.
  exists []. rewrite app_nil_r. repeat split; auto.
Qed.

Lemma installInstrumentation_quiet (w w' : World.t) (r : result unit) :
  installInstrumentation respond w = (w', r) -> quietStep w w'.
Proof.
  unfold installInstrumentation, bindH, getTarget, getClient, SendRequest,
    setTarget, ret, fail.
  destruct (String.eqb _ ""); [|intros [= <- _]; apply quietStep_refl].
  cbn [World.target World.chromeClient World.sent].
  destruct (respond (World.sent w) _) as [scriptId|].
  - destruct (String.eqb scriptId "").
    + intros [= <- _]. eexists. cbn. split; [reflexivity|].
      split; [|reflexivity]. intros [H | []]. discriminate.
    + cbn [World.target World.chromeClient World.sent].
      destruct (respond _ (RuntimeRunScript scriptId));
        intros [= <- _]; eexists; cbn; rewrite <- app_assoc;
        (split; [reflexivity|]); (split; [|reflexivity]);
        intros [H | [H | []]]; discriminate.
  - intros [= <- _]. eexists. cbn. split; [reflexivity|].
    split; [|reflexivity]. intros [H | []]. discriminate.
Qed.

Lemma classifyPause_no_frames (p : PausedParams.t) (w : World.t) :
  PausedParams.reason p <> "EventListener" ->
  PausedParams.callFrames p = [] ->
  classifyPause respond now p w = (w, Panic IndexOutOfRange).
Proof.
  intros Hreason Hframes. unfold classifyPause.
  rewrite (proj2 (String.eqb_neq _ _) Hreason), Hframes. reflexivity.
Qed.

(** C10.  [debuggerPaused] indexes the first call frame whenever the
    pause reason is not "EventListener": on a notification with another
    reason and an empty [callFrames] list the handler faults, and it does
    so before [Debugger.resume] is sent and before anything is logged.
    When the instrumentation step went through, the fault is the
    out-of-range access to the first script id. *)
Theorem debuggerPaused_faults_without_frames
  (p : PausedParams.t) (w : World.t) :
  PausedParams.reason p <> "EventListener" ->
  PausedParams.callFrames p = [] ->
  exists w' f,
    debuggerPaused respond now p w = (w', Panic f)
    /\ quietStep w w'
    /\ (snd (installInstrumentation respond w) = Ok tt ->
        f = IndexOutOfRange).
Proof.
  intros Hreason Hframes. unfold debuggerPaused, bindH.
  destruct (installInstrumentation respond w) as [w1 [[]|f]] eqn:E.
  - rewrite (classifyPause_no_frames p w1 Hreason Hframes).
    exists w1, IndexOutOfRange. split; [reflexivity|].
    split; [exact (installInstrumentation_quiet _ _ _ E) | reflexivity].
  - exists w1, f. split; [reflexivity|].
    split; [exact (installInstrumentation_quiet _ _ _ E) | discriminate].
Qed.

(** The other direction: a run that ends well had the reason
    "EventListener" or a first call frame, and ended with the resume
    request. *)
Lemma debuggerPaused_ok_has_frame (p : PausedParams.t) (w w' : World.t) :
  debuggerPaused respond now p w = (w', Ok tt) ->
  (PausedParams.reason p = "EventListener"
   \/ PausedParams.callFrames p <> [])
  /\ exists earlier, World.sent w' = earlier ++ [DebuggerResume].
Proof.
  intros Hrun. split.
  - destruct (String.eqb_spec (PausedParams.reason p) "EventListener")
      as [Heq | Hneq]; [left; exact Heq|].
    right. intros Hframes. revert Hrun. unfold debuggerPaused, bindH.
    destruct (installInstrumentation respond w) as [w1 [[]|f]];
      [|discriminate].
    rewrite (classifyPause_no_frames p w1 Hneq Hframes). discriminate.
  - revert Hrun. unfold debuggerPaused, bindH.
    destruct (installInstrumentation respond w) as [w1 [[]|f]];
      [|discriminate].
    destruct (classifyPause respond now p w1) as [w2 [reasonStr|f]];
      [|discriminate].
    unfold SendRequest, ret.
    destruct (respond (World.sent w2) DebuggerResume); [|discriminate].
    intros [= <-]. exists (World.sent w2). reflexivity.
Qed.

End PauseHandlerProperties.

(** A connection that answers every request, with script id 42 for the
    compiled instrumentation. *)
Definition answering (sent : list Request) (r : Request) : option string :=
  match r with
  | RuntimeCompileScript _ => Some "42"
  | _ => Some ""
  end.

(** A freshly navigated target under a hostname policy. *)
Definition freshWorld : World.t :=
  World.mk
    (Target.mk "target" ["http://localhost:8080/page"]
       (NewHostnamePolicy "p" ["http://localhost:8080"]) "")
    (NewChromeClient "run" 2 "debugger;" "logs")
    [].

(** A pause with reason "other" and no call frame, on a connection that
    answers everything: the instrumentation is installed, the handler
    faults on the first script id, and no resume was sent. *)
Lemma debuggerPaused_faults_without_frames_witness :
  PausedParams.reason (PausedParams.mk [] "other" "") <> "EventListener"
  /\ PausedParams.callFrames (PausedParams.mk [] "other" "") = []
  /\ exists w' f,
       debuggerPaused answering 0 (PausedParams.mk [] "other" "") freshWorld
       = (w', Panic f)
       /\ quietStep freshWorld w'
       /\ (snd (installInstrumentation answering freshWorld) = Ok tt ->
           f = IndexOutOfRange).
Proof.
  split; [discriminate|]. split; [reflexivity|].
  apply (debuggerPaused_faults_without_frames answering 0
           (PausedParams.mk [] "other" "") freshWorld);
    [discriminate | reflexivity].
Defined.

(** The same pause evaluated: two requests sent, none of them the
    resume. *)
Example debuggerPaused_no_frames_run :
  debuggerPaused answering 0 (PausedParams.mk [] "other" "") freshWorld
  = (World.mk
       (Target.mk "target" ["http://localhost:8080/page"]
          (NewHostnamePolicy "p" ["http://localhost:8080"]) "42")
       (NewChromeClient "run" 2 "debugger;" "logs")
       [RuntimeCompileScript "debugger;"; RuntimeRunScript "42"],
     Panic IndexOutOfRange).
Proof. vm_compute. reflexivity. Qed.

(** A pause inside the instrumentation script on a shim: the trusted
    script ids are written back, the access is logged with the id the
    session assigns, and the debugger is resumed. *)
Example debuggerPaused_shim_run :
  let p := PausedParams.mk
             [PausedCallFrame.mk "cf0" "shim_document_cookie" "42";
              PausedCallFrame.mk "cf1" "onload" "7"]
             "other" "" in
  let (w', r) := debuggerPaused answering 5 p freshWorld in
  r = Ok tt
  /\ World.sent w'
     = [RuntimeCompileScript "debugger;"; RuntimeRunScript "42";
        DebuggerSetVariableValue [] "cf0"; DebuggerResume]
  /\ map eventIdOf (ChromeClient.eventLog (World.chromeClient w'))
     = [Some 0%Z]
  /\ APIAccessLogs (World.chromeClient w') "p"
     = [APIAccessEvent.mk 0 5 "APIAccess" "p" "target" "document_cookie"
          ["42"; "7"]
          (State (NewHostnamePolicy "p" ["http://localhost:8080"]))].
Proof. vm_compute. repeat split; reflexivity. Qed.

(** * The properties at work on the sample sessions *)

(** In Scenario D the request of event 8 is the first one the primary
    check stops at: the document request before it has no stack trace. *)
Lemma primaryCheck_first_untrusted_witness :
  primaryCheck 3 (PolicyAnalysis.mk "p" "" false "" "" "" "" [])
    (NetworkRequestWillBeSentLogs (scenarioD ["7"]) "p")
  = (PolicyAnalysis.mk "p" "" true "" "XHR" "https://httpbin.org/get"
       "script" ["7"],
     8%Z).
Proof.
  rewrite (proj1
    (primaryCheck_first_untrusted 3
       (PolicyAnalysis.mk "p" "" false "" "" "" "" [])
       (NetworkRequestWillBeSentLogs (scenarioD ["7"]) "p"))
    [requestRecord 0 "p" noStackInitiator "Document"
       "http://localhost:8080/page" hostnameState]
    (requestRecord 8 "p" (scriptInitiator ["7"]) "XHR"
       "https://httpbin.org/get" hostnameState)
    []
    (Initiator.mk "script"
       (Some (StackTrace.mk "" [frameOf "7"] None "")) "" 0)
    (StackTrace.mk "" [frameOf "7"] None "")).
  - reflexivity.
  - reflexivity.
  - intros e' [<- | []] [ini [st [Hi [Hs _]]]].
    injection Hi as <-. discriminate.
  - reflexivity.
  - reflexivity.
  - eexists _, _. split; [reflexivity|]. split; [reflexivity|].
    split; [simpl; lia|].
    exists (frameOf "7"),
      (TrustGroupState.mk false
         [RemoteScript.mk "7" "https://evil.example/x.js"] []).
    split; [left; reflexivity|]. split; reflexivity.
Defined.

(** In Scenario D the probe of event 5 is the first API access the probe
    check stops at, the tainting access before it being no probe. *)
Lemma probeCheck_first_untrusted_probe_witness :
  probeCheck 3
    (PolicyAnalysis.mk "p" "" true "" "XHR" "https://httpbin.org/get"
       "script" ["7"], 8%Z)
    (APIAccessLogs (scenarioD ["7"]) "p")
  = (PolicyAnalysis.mk "p" "" true "" "Document" "https://httpbin.org/get"
       "script" ["7"],
     5%Z).
Proof.
  rewrite (proj1
    (probeCheck_first_untrusted_probe 3
       (PolicyAnalysis.mk "p" "" true "" "XHR" "https://httpbin.org/get"
          "script" ["7"], 8%Z)
       (APIAccessLogs (scenarioD ["7"]) "p"))
    [accessRecord 3 "p" "document_cookie" ["7"] hostnameState]
    (accessRecord 5 "p" "exfiltration_probe" ["7"] hostnameState)
    []).
  - reflexivity.
  - reflexivity.
  - intros e' [<- | []] [Hp _]. discriminate.
  - split; [reflexivity|]. split; [reflexivity|].
    split; [simpl; lia|]. right. simpl. lia.
Defined.


(** In [hostnameState] the stack of script 1 alone is trusted, and
    adding the untrusted script 7 or the unknown script 99 to it makes
    it untrusted. *)
Lemma StackIsTrusted_spec_witness :
  StackIsTrusted hostnameState ["1"] = true
  /\ StackIsTrusted hostnameState ["1"; "7"] = false
  /\ StackIsTrusted hostnameState ["1"; "99"] = false.
Proof.
  split; [|split].
  - apply (proj1 (StackIsTrusted_spec hostnameState ["1"])).
    intros scriptId [<- | []].
    exists (TrustGroupState.mk true
              [RemoteScript.mk "1" "http://localhost:8080/static/a.js"] []).
    split; [|reflexivity].
    exists [], [TrustGroupState.mk false
                  [RemoteScript.mk "7" "https://evil.example/x.js"] []].
    split; [reflexivity|]. split; [|intros g []].
    left. eexists. split; [left; reflexivity | reflexivity].
  - apply (proj2 (proj2 (StackIsTrusted_spec hostnameState ["1"; "7"])) "7"
             (TrustGroupState.mk false
                [RemoteScript.mk "7" "https://evil.example/x.js"] []));
      [right; left; reflexivity | | reflexivity].
    exists [TrustGroupState.mk true
              [RemoteScript.mk "1" "http://localhost:8080/static/a.js"] []],
      [].
    split; [reflexivity|]. split.
    + left. eexists. split; [left; reflexivity | reflexivity].
    + intros g [<- | []] [[rs [[<- | []] Heq]] | [ils [[] _]]].
      discriminate.
  - apply (proj1 (proj2 (StackIsTrusted_spec hostnameState ["1"; "99"])) "99");
      [right; left; reflexivity|].
    intros g [<- | [<- | []]] [[rs [[<- | []] Heq]] | [ils [[] _]]];
      discriminate.
Defined.

(** A session whose only API access comes with an empty stack: nothing
    taints, whatever the requests that follow. *)
Lemma empty_stack_never_taints_witness :
  PolicyAnalysis.PolicyViolated
    (AnalyzePolicy
       (sessionOf
          [requestEvent "p" noStackInitiator "Document"
             "http://localhost:8080/page" untrustingState;
           accessEvent "p" "document_cookie" [] untrustingState;
           requestEvent "p" (scriptInitiator ["7"]) "XHR"
             "https://httpbin.org/get" untrustingState]
          ["p"])
       "p")
  = false.
Proof.
  apply (proj2 (proj2 (proj2 empty_stack_never_taints))).
  intros e [<- | []]. reflexivity.
Defined.

(** The policy states of the sample sessions are snapshots of policies
    built by registration. *)
Example untrustingState_snapshot :
  State (fst (RegisterInlineScript (NewUntrustingPolicy "p") "7" "h7" None))
  = untrustingState.
Proof. reflexivity. Qed.

Example hostnameState_snapshot :
  State
    (fst (RegisterRemoteScript sampleParse sampleMatch
            (fst (RegisterRemoteScript sampleParse sampleMatch
                    (NewHostnamePolicy "p" ["http://localhost:8080"])
                    "1" "http://localhost:8080/static/a.js" None))
            "7" "https://evil.example/x.js" None))
  = hostnameState.
Proof. vm_compute. reflexivity. Qed.

(** Scenario A: under the trusting policy no access taints. *)
Example trusting_policy_not_violated :
  let ps := State (fst (RegisterInlineScript (NewTrustingPolicy "p")
                          "7" "h7" None)) in
  AnalyzePolicy
    (sessionOf
       [requestEvent "p" noStackInitiator "Document"
          "http://localhost:8080/page" ps;
        accessEvent "p" "document_cookie" ["7"] ps;
        requestEvent "p" (scriptInitiator ["7"]) "XHR"
          "https://httpbin.org/get" ps]
       ["p"])
    "p"
  = PolicyAnalysis.mk "p" "http://localhost:8080/page" false "" "" "" "" [].
Proof. vm_compute. reflexivity. Qed.

(** * Further properties of the policy engine *)

(** ** What a registration changes *)

(** The part of a trust group that no registration touches: its flags
    and its script set emptied of scripts (the kind of the set, with the
    configured origins or filters). *)
Definition emptied (ss : ScriptSet) : ScriptSet :=
  match ss with
  | UniversalScriptSet _ _ => UniversalScriptSet [] []
  | HostnameScriptSet hs _ _ => HostnameScriptSet hs [] []
  | FilterListScriptSet fs _ _ => FilterListScriptSet fs [] []
  end.

Definition skeleton (tg : TrustGroup.t) : ScriptSet * bool * bool :=
  (emptied (TrustGroup.scriptSet tg), TrustGroup.Trusted tg,
   TrustGroup.Tainted tg).

(** The scripts the set holds in its fields, whatever its accessors
    return. *)
Definition storedRemote (ss : ScriptSet) : list RemoteScript.t :=
  match ss with
  | UniversalScriptSet rs _ => rs
  | HostnameScriptSet _ rs _ => rs
  | FilterListScriptSet _ rs _ => rs
  end.

Definition storedInline (ss : ScriptSet) : list InlineScript.t :=
  match ss with
  | UniversalScriptSet _ ils => ils
  | HostnameScriptSet _ _ ils => ils
  | FilterListScriptSet _ _ ils => ils
  end.

(** [grownBy add p i p']: [p'] is [p] with [add] applied to the script
    set of its [i]-th group, and nothing else changed. *)
Definition grownBy (add : ScriptSet -> ScriptSet) (p : Policy.t) (i : nat)
  (p' : Policy.t) : Prop :=
  exists before tg after,
    Policy.trustGroups p = before ++ tg :: after
    /\ i = List.length before
    /\ p' = Policy.mk (Policy.Id p)
              (before
               ++ TrustGroup.withScriptSet tg (add (TrustGroup.scriptSet tg))
               :: after).

(** The common shape of the two registration functions. *)
Definition registerWith (accepts : TrustGroup.t -> bool)
  (add : ScriptSet -> ScriptSet) (p : Policy.t) (st : option StackTrace.t)
  : Policy.t * option nat :=
  match inheritedFromStack p st with
  | Some i => (addToGroup p i add, Some i)
  | None =>
      match firstIndex accepts (Policy.trustGroups p) with
      | Some (i, _) => (addToGroup p i add, Some i)
      | None => (p, None)
      end
  end.

Lemma inheritedFromStack_group (p : Policy.t) (st : option StackTrace.t)
  (i : nat) :
  inheritedFromStack p st = Some i ->
  exists before tg after,
    Policy.trustGroups p = before ++ tg :: after
    /\ i = List.length before
    /\ TrustGroup.Trusted tg = false.
Proof.
  destruct st as [s|]; [|discriminate]. simpl. intros H.
  apply inheritedGroup_some in H.
  destruct H as [_ [cf [_ [tg [_ [Hres [Hun _]]]]]]].
  apply firstIndex_some in Hres.
  destruct Hres as [before [after [Heq [Hi _]]]].
  exists before, tg, after. auto.
Qed.

Lemma registerWith_grows (accepts : TrustGroup.t -> bool)
  (add : ScriptSet -> ScriptSet) (p : Policy.t) (st : option StackTrace.t) :
  match snd (registerWith accepts add p st) with
  | Some i => grownBy add p i (fst (registerWith accepts add p st))
  | None => fst (registerWith accepts add p st) = p
  end.
Proof.
  unfold registerWith.
  destruct (inheritedFromStack p st) as [i|] eqn:Hin.
  - destruct (inheritedFromStack_group p st i Hin)
      as [before [tg [after [Heq [Hi _]]]]].
    simpl. exists before, tg, after. subst i.
    rewrite (addToGroup_at p before after tg add Heq). auto.
  - destruct (firstIndex accepts (Policy.trustGroups p)) as [[i tg]|] eqn:Hf;
      [|reflexivity].
    apply firstIndex_some in Hf.
    destruct Hf as [before [after [Heq [Hi _]]]].
    simpl. exists before, tg, after. subst i.
    rewrite (addToGroup_at p before after tg add Heq). auto.
Qed.

Lemma emptied_AddRemoteScript (ss : ScriptSet) (scriptId scriptURL : string) :
  emptied (AddRemoteScript ss scriptId scriptURL) = emptied ss
  /\ storedRemote (AddRemoteScript ss scriptId scriptURL)
     = storedRemote ss ++ [RemoteScript.mk scriptId scriptURL]
  /\ storedInline (AddRemoteScript ss scriptId scriptURL) = storedInline ss.
Proof. destruct ss; repeat split. Qed.

Lemma emptied_AddInlineScript (ss : ScriptSet) (scriptId hash : string) :
  emptied (AddInlineScript ss scriptId hash) = emptied ss
  /\ storedInline (AddInlineScript ss scriptId hash)
     = storedInline ss ++ [InlineScript.mk scriptId hash]
  /\ storedRemote (AddInlineScript ss scriptId hash) = storedRemote ss.
Proof. destruct ss; repeat split. Qed.

Lemma grownBy_skeleton (add : ScriptSet -> ScriptSet) (p p' : Policy.t)
  (i : nat) :
  (forall ss, emptied (add ss) = emptied ss) ->
  grownBy add p i p' ->
  Policy.Id p' = Policy.Id p
  /\ map skeleton (Policy.trustGroups p') = map skeleton (Policy.trustGroups p).
Proof.
  intros Hadd [before [tg [after [Heq [_ ->]]]]]. split; [reflexivity|].
  simpl. rewrite Heq, !map_app. simpl. unfold skeleton at 2. simpl.
  rewrite Hadd. reflexivity.
Qed.

Section RegistrationInvariants.

Variable url_Parse : string -> option URL.t.
Variable matcher_Match : string -> option bool.

(** X1.  A registration keeps the policy's id, the number and order of
    its groups and, group by group, the trust flag and the kind of script
    set with its configured origins.  When it returns a group, exactly that
    group changed, by the one script appended to the list of its kind; when
    it returns nil, the policy is unchanged. *)
Theorem Register_keeps_skeleton (p : Policy.t) (scriptId content : string)
  (st : option StackTrace.t) :
  let remote :=
    RegisterRemoteScript url_Parse matcher_Match p scriptId content st in
  let inline := RegisterInlineScript p scriptId content st in
  (Policy.Id (fst remote) = Policy.Id p
   /\ map skeleton (Policy.trustGroups (fst remote))
      = map skeleton (Policy.trustGroups p)
   /\ match snd remote with
      | Some i =>
          grownBy (fun ss => AddRemoteScript ss scriptId content) p i
            (fst remote)
      | None => fst remote = p
      end)
  /\ (Policy.Id (fst inline) = Policy.Id p
      /\ map skeleton (Policy.trustGroups (fst inline))
         = map skeleton (Policy.trustGroups p)
      /\ match snd inline with
         | Some i =>
             grownBy (fun ss => AddInlineScript ss scriptId content) p i
               (fst inline)
         | None => fst inline = p
         end).
Proof.
  intros remote inline. split.
  - pose proof (registerWith_grows
                  (fun tg => ContainsRemoteScript url_Parse matcher_Match
                               (TrustGroup.scriptSet tg) scriptId content)
                  (fun ss => AddRemoteScript ss scriptId content) p st) as H.
    change (registerWith _ _ p st) with remote in H.
    destruct (snd remote) as [i|].
    + destruct (grownBy_skeleton _ p (fst remote) i
                  (fun ss => proj1 (emptied_AddRemoteScript ss _ _)) H)
        as [Hid Hsk].
      auto.
    + rewrite H. auto.
  - pose proof (registerWith_grows
                  (fun tg => ContainsInlineScript
                               (TrustGroup.scriptSet tg) scriptId content)
                  (fun ss => AddInlineScript ss scriptId content) p st) as H.
    change (registerWith _ _ p st) with inline in H.
    destruct (snd inline) as [i|].
    + destruct (grownBy_skeleton _ p (fst inline) i
                  (fun ss => proj1 (emptied_AddInlineScript ss _ _)) H)
        as [Hid Hsk].
      auto.
    + rewrite H. auto.
Qed.

End RegistrationInvariants.

(** ** Snapshots and lookups *)

(** The entry [State] makes of one group. *)
Definition snapshotOf (tg : TrustGroup.t) : TrustGroupState.t :=
  TrustGroupState.mk (TrustGroup.Trusted tg)
    (RemoteScripts (TrustGroup.scriptSet tg))
    (InlineScripts (TrustGroup.scriptSet tg)).

(** Where the live policy finds a script id: the index of the group and
    its trust flag. *)
Definition resolved (p : Policy.t) (scriptId : string) : option (nat * bool) :=
  option_map (fun g => (fst g, TrustGroup.Trusted (snd g)))
    (TrustGroupForScriptId p scriptId).

Lemma isSome_find_existsb {A : Type} (f : A -> bool) (l : list A) :
  isSome (find f l) = existsb f l.
Proof.
  induction l as [|a l IH]; simpl; [reflexivity|].
  destruct (f a); [reflexivity | exact IH].
Qed.

Lemma snapshotOf_lists (tg : TrustGroup.t) (scriptId : string) :
  isSome (GetRemoteScript (snapshotOf tg) scriptId)
  || isSome (GetInlineScript (snapshotOf tg) scriptId)
  = groupHasScriptId tg scriptId.
Proof.
  unfold GetRemoteScript, GetInlineScript, groupHasScriptId.
  rewrite !isSome_find_existsb. reflexivity.
Qed.

Lemma find_map_firstIndex {A B : Type} (h : A -> B) (f : A -> bool)
  (g : B -> bool) (l : list A) :
  (forall x, g (h x) = f x) ->
  find g (map h l) = option_map (fun r => h (snd r)) (firstIndex f l).
Proof.
  intros Hfg. induction l as [|a l IH]; simpl; [reflexivity|].
  rewrite Hfg. destruct (f a); [reflexivity|].
  rewrite IH. destruct (firstIndex f l) as [[i x]|]; reflexivity.
Qed.

Lemma TrustGroupStateForScriptId_State (p : Policy.t) (scriptId : string) :
  TrustGroupStateForScriptId (State p) scriptId
  = option_map (fun g => snapshotOf (snd g)) (TrustGroupForScriptId p scriptId).
Proof.
  unfold TrustGroupStateForScriptId, TrustGroupForScriptId, State. simpl.
  apply (find_map_firstIndex snapshotOf).
  intros tg. apply snapshotOf_lists.
Qed.

Lemma StackIsTrusted_State (p : Policy.t) (stack : list string) :
  StackIsTrusted (State p) stack
  = forallb (fun sid =>
               match resolved p sid with
               | Some (_, trusted) => trusted
               | None => false
               end) stack.
Proof.
  induction stack as [|sid stack IH]; simpl; [reflexivity|].
  rewrite TrustGroupStateForScriptId_State. unfold resolved.
  destruct (TrustGroupForScriptId p sid) as [[i tg]|]; simpl; [|reflexivity].
  destruct (TrustGroup.Trusted tg); simpl; [exact IH | reflexivity].
Qed.

(** X2.  The snapshot [State] takes of a policy resolves every script id
    as the live policy does at that moment: [TrustGroupStateForScriptId] on
    the snapshot finds the snapshot of the group [TrustGroupForScriptId]
    finds, and nothing when the policy finds nothing.  So a stack is
    trusted by the snapshot exactly when the policy finds each of its ids
    in a group with [Trusted = true]. *)
Theorem State_resolves_as_policy (p : Policy.t) (stack : list string) :
  (forall scriptId,
     TrustGroupStateForScriptId (State p) scriptId
     = option_map (fun g => snapshotOf (snd g))
         (TrustGroupForScriptId p scriptId))
  /\ (StackIsTrusted (State p) stack = true <->
      forall scriptId, In scriptId stack ->
        exists i tg,
          TrustGroupForScriptId p scriptId = Some (i, tg)
          /\ TrustGroup.Trusted tg = true).
Proof.
  split; [intros scriptId; apply TrustGroupStateForScriptId_State|].
  rewrite StackIsTrusted_State, forallb_forall. unfold resolved.
  split; intros H sid Hin.
  - specialize (H sid Hin).
    destruct (TrustGroupForScriptId p sid) as [[i tg]|]; [|discriminate].
    exists i, tg. auto.
  - destruct (H sid Hin) as [i [tg [-> Ht]]]. exact Ht.
Qed.

Lemma firstIndex_Forall2 {A B : Type} (R : A -> B -> Prop) (f : A -> bool)
  (g : B -> bool) (l : list A) (l' : list B) :
  Forall2 R l l' ->
  (forall x y, R x y -> f x = g y) ->
  match firstIndex f l, firstIndex g l' with
  | Some (i, x), Some (j, y) => i = j /\ R x y
  | None, None => True
  | _, _ => False
  end.
Proof.
  intros HR Hfg. induction HR as [|x y l l' Hxy HR IH]; simpl; [exact I|].
  rewrite <- (Hfg x y Hxy). destruct (f x); [auto|].
  destruct (firstIndex f l) as [[i a]|], (firstIndex g l') as [[j b]|];
    try contradiction; [|exact I].
  destruct IH as [-> Hab]. auto.
Qed.

Lemma Forall2_refl_on {A : Type} (R : A -> A -> Prop) (l : list A) :
  (forall x, R x x) -> Forall2 R l l.
Proof.
  intros HR. induction l; constructor; auto.
Qed.

(** A group after an insertion lists what it listed, and the inserted id
    when the accessor of its set shows the list inserted into. *)
Lemma groupHasScriptId_AddRemoteScript (tg : TrustGroup.t)
  (scriptId scriptURL sid : string) :
  groupHasScriptId
    (TrustGroup.withScriptSet tg
       (AddRemoteScript (TrustGroup.scriptSet tg) scriptId scriptURL)) sid
  = groupHasScriptId tg sid || String.eqb scriptId sid.
Proof.
  unfold groupHasScriptId. destruct tg as [[rs ils|hs rs ils|fs rs ils] t a];
    simpl; rewrite existsb_app; simpl; rewrite orb_false_r;
    destruct (existsb _ rs); simpl; try reflexivity;
    apply orb_comm.
Qed.

Definition showsInline (ss : ScriptSet) : bool :=
  match ss with
  | FilterListScriptSet _ _ _ => false
  | _ => true
  end.

Lemma groupHasScriptId_AddInlineScript (tg : TrustGroup.t)
  (scriptId hash sid : string) :
  groupHasScriptId
    (TrustGroup.withScriptSet tg
       (AddInlineScript (TrustGroup.scriptSet tg) scriptId hash)) sid
  = groupHasScriptId tg sid
    || (showsInline (TrustGroup.scriptSet tg) && String.eqb scriptId sid).
Proof.
  unfold groupHasScriptId. destruct tg as [[rs ils|hs rs ils|fs rs ils] t a];
    simpl; try (rewrite existsb_app; simpl; rewrite orb_false_r);
    try (rewrite orb_assoc; reflexivity).
  rewrite !orb_false_r. reflexivity.
Qed.

(** Groups that agree on listing [sid] and on the trust flag. *)
Definition agreeOn (sid : string) (tg tg' : TrustGroup.t) : Prop :=
  groupHasScriptId tg sid = groupHasScriptId tg' sid
  /\ TrustGroup.Trusted tg = TrustGroup.Trusted tg'.

Lemma resolved_agree (p p' : Policy.t) (sid : string) :
  Forall2 (agreeOn sid) (Policy.trustGroups p) (Policy.trustGroups p') ->
  resolved p' sid = resolved p sid.
Proof.
  intros HR. unfold resolved, TrustGroupForScriptId.
  pose proof (firstIndex_Forall2 (agreeOn sid)
                (fun tg => groupHasScriptId tg sid)
                (fun tg => groupHasScriptId tg sid) _ _ HR
                (fun x y H => proj1 H)) as H.
  destruct (firstIndex _ (Policy.trustGroups p)) as [[i x]|],
           (firstIndex _ (Policy.trustGroups p')) as [[j y]|];
    try contradiction; [|reflexivity].
  destruct H as [-> [_ Ht]]. simpl. rewrite Ht. reflexivity.
Qed.

Lemma grownBy_agree (add : ScriptSet -> ScriptSet) (p p' : Policy.t)
  (i : nat) (sid : string) :
  (forall tg,
      groupHasScriptId
        (TrustGroup.withScriptSet tg (add (TrustGroup.scriptSet tg))) sid
      = groupHasScriptId tg sid) ->
  grownBy add p i p' ->
  resolved p' sid = resolved p sid.
Proof.
  intros Hadd [before [tg [after [Heq [_ ->]]]]].
  apply resolved_agree. simpl. rewrite Heq.
  apply Forall2_app; [apply Forall2_refl_on; intros x; split; reflexivity|].
  constructor; [|apply Forall2_refl_on; intros x; split; reflexivity].
  split; [symmetry; apply Hadd | reflexivity].
Qed.

Lemma forallb_agree_on {A : Type} (f g : A -> bool) (l : list A) :
  (forall x, In x l -> f x = g x) -> forallb f l = forallb g l.
Proof.
  induction l as [|a l IH]; intros H; simpl; [reflexivity|].
  rewrite (H a (or_introl eq_refl)), IH; [reflexivity|].
  intros x Hx. apply H. right; assumption.
Qed.

Section RegistrationLookups.

Variable url_Parse : string -> option URL.t.
Variable matcher_Match : string -> option bool.

Lemma Register_resolved_other (p : Policy.t) (scriptId content sid : string)
  (st : option StackTrace.t) :
  sid <> scriptId ->
  resolved (fst (RegisterRemoteScript url_Parse matcher_Match p scriptId
                   content st)) sid
  = resolved p sid
  /\ resolved (fst (RegisterInlineScript p scriptId content st)) sid
     = resolved p sid.
Proof.
  intros Hneq.
  assert (Hne : String.eqb scriptId sid = false)
    by (apply String.eqb_neq; congruence).
  split.
  - pose proof (registerWith_grows
                  (fun tg => ContainsRemoteScript url_Parse matcher_Match
                               (TrustGroup.scriptSet tg) scriptId content)
                  (fun ss => AddRemoteScript ss scriptId content) p st) as Hr.
    change (registerWith _ _ p st)
      with (RegisterRemoteScript url_Parse matcher_Match p scriptId content
              st) in Hr.
    destruct (snd (RegisterRemoteScript _ _ p scriptId content st)) as [i|];
      [|rewrite Hr; reflexivity].
    apply (grownBy_agree (fun ss => AddRemoteScript ss scriptId content)
             p _ i sid); [|exact Hr].
    intros tg. rewrite groupHasScriptId_AddRemoteScript, Hne.
    apply orb_false_r.
  - pose proof (registerWith_grows
                  (fun tg => ContainsInlineScript
                               (TrustGroup.scriptSet tg) scriptId content)
                  (fun ss => AddInlineScript ss scriptId content) p st) as Hi.
    change (registerWith _ _ p st)
      with (RegisterInlineScript p scriptId content st) in Hi.
    destruct (snd (RegisterInlineScript p scriptId content st)) as [i|];
      [|rewrite Hi; reflexivity].
    apply (grownBy_agree (fun ss => AddInlineScript ss scriptId content)
             p _ i sid); [|exact Hi].
    intros tg. rewrite groupHasScriptId_AddInlineScript, Hne, andb_false_r.
    apply orb_false_r.
Qed.

(** X3.  Registering a script never reclassifies another one: every
    script id other than the registered one is found afterwards in the
    group of the same index, with the same trust flag, or still in none;
    hence the snapshot taken after the registration judges every stack
    that does not contain the new id as the snapshot taken before did. *)
Theorem Register_keeps_other_verdicts (p : Policy.t)
  (scriptId content : string) (st : option StackTrace.t)
  (stack : list string) :
  ~ In scriptId stack ->
  (forall sid, In sid stack ->
     resolved (fst (RegisterRemoteScript url_Parse matcher_Match p scriptId
                      content st)) sid
     = resolved p sid
     /\ resolved (fst (RegisterInlineScript p scriptId content st)) sid
        = resolved p sid)
  /\ StackIsTrusted
       (State (fst (RegisterRemoteScript url_Parse matcher_Match p scriptId
                      content st))) stack
     = StackIsTrusted (State p) stack
  /\ StackIsTrusted (State (fst (RegisterInlineScript p scriptId content st)))
       stack
     = StackIsTrusted (State p) stack.
Proof.
  intros Hnotin.
  assert (Hother : forall sid, In sid stack -> sid <> scriptId)
    by (intros sid Hin ->; exact (Hnotin Hin)).
  split; [|split].
  - intros sid Hin. apply Register_resolved_other. auto.
  - rewrite !StackIsTrusted_State. apply forallb_agree_on. intros sid Hin.
    rewrite (proj1 (Register_resolved_other p scriptId content sid st
                      (Hother sid Hin))).
    reflexivity.
  - rewrite !StackIsTrusted_State. apply forallb_agree_on. intros sid Hin.
    rewrite (proj2 (Register_resolved_other p scriptId content sid st
                      (Hother sid Hin))).
    reflexivity.
Qed.

End RegistrationLookups.

(** ** Looking up what was registered *)

Lemma nth_error_middle {A : Type} (before after : list A) (x : A) :
  nth_error (before ++ x :: after) (List.length before) = Some x.
Proof.
  induction before as [|b before IH]; simpl; [reflexivity | exact IH].
Qed.

(** After an insertion into group [i] of an id no group listed, the id
    is found in group [i] when the group's accessors show it ([shows]),
    and in no group otherwise. *)
Lemma grownBy_lookup_fresh (add : ScriptSet -> ScriptSet)
  (shows : TrustGroup.t -> bool) (p p' : Policy.t) (i : nat) (sid : string) :
  (forall tg,
      groupHasScriptId
        (TrustGroup.withScriptSet tg (add (TrustGroup.scriptSet tg))) sid
      = groupHasScriptId tg sid || shows tg) ->
  TrustGroupForScriptId p sid = None ->
  grownBy add p i p' ->
  exists tg,
    nth_error (Policy.trustGroups p) i = Some tg
    /\ resolved p' sid
       = if shows tg then Some (i, TrustGroup.Trusted tg) else None.
Proof.
  intros Hadd Hfresh [before [tg [after [Heq [-> ->]]]]].
  exists tg. split; [rewrite Heq; apply nth_error_middle|].
  unfold TrustGroupForScriptId in Hfresh.
  pose proof (proj1 (firstIndex_none _ _) Hfresh) as Hnone.
  rewrite Heq in Hnone.
  unfold resolved, TrustGroupForScriptId. simpl.
  destruct (shows tg) eqn:Hs.
  - replace (firstIndex _ _) with
      (Some (List.length before,
             TrustGroup.withScriptSet tg (add (TrustGroup.scriptSet tg))));
      [reflexivity|].
    symmetry. apply firstIndex_some. exists before, after.
    repeat split; auto.
    + rewrite Hadd, Hs. apply orb_true_r.
    + intros g Hg. apply Hnone. apply in_or_app. left; assumption.
  - replace (firstIndex _ _) with (@None (nat * TrustGroup.t));
      [reflexivity|].
    symmetry. apply firstIndex_none. intros g Hg.
    apply in_app_or in Hg. destruct Hg as [Hg | [<- | Hg]].
    + apply Hnone. apply in_or_app. left; assumption.
    + rewrite Hadd, Hs, orb_false_r. apply Hnone. apply in_elt.
    + apply Hnone. apply in_or_app. right. right. assumption.
Qed.

Section RegistrationRoundTrip.

Variable url_Parse : string -> option URL.t.
Variable matcher_Match : string -> option bool.

Lemma RegisterRemoteScript_grows (p : Policy.t) (scriptId content : string)
  (st : option StackTrace.t) (i : nat) :
  snd (RegisterRemoteScript url_Parse matcher_Match p scriptId content st)
  = Some i ->
  grownBy (fun ss => AddRemoteScript ss scriptId content) p i
    (fst (RegisterRemoteScript url_Parse matcher_Match p scriptId content st)).
Proof.
  intros Hi.
  pose proof (registerWith_grows
                (fun tg => ContainsRemoteScript url_Parse matcher_Match
                             (TrustGroup.scriptSet tg) scriptId content)
                (fun ss => AddRemoteScript ss scriptId content) p st) as H.
  change (registerWith _ _ p st)
    with (RegisterRemoteScript url_Parse matcher_Match p scriptId content st)
    in H.
  rewrite Hi in H. exact H.
Qed.

Lemma RegisterInlineScript_grows (p : Policy.t) (scriptId content : string)
  (st : option StackTrace.t) (i : nat) :
  snd (RegisterInlineScript p scriptId content st) = Some i ->
  grownBy (fun ss => AddInlineScript ss scriptId content) p i
    (fst (RegisterInlineScript p scriptId content st)).
Proof.
  intros Hi.
  pose proof (registerWith_grows
                (fun tg => ContainsInlineScript
                             (TrustGroup.scriptSet tg) scriptId content)
                (fun ss => AddInlineScript ss scriptId content) p st) as H.
  change (registerWith _ _ p st)
    with (RegisterInlineScript p scriptId content st) in H.
  rewrite Hi in H. exact H.
Qed.

Lemma Register_lookup_fresh (p : Policy.t) (scriptId content : string)
  (st : option StackTrace.t) (i : nat) :
  TrustGroupForScriptId p scriptId = None ->
  (snd (RegisterRemoteScript url_Parse matcher_Match p scriptId content st)
   = Some i ->
   exists tg,
     nth_error (Policy.trustGroups p) i = Some tg
     /\ resolved
          (fst (RegisterRemoteScript url_Parse matcher_Match p scriptId
                  content st)) scriptId
        = Some (i, TrustGroup.Trusted tg))
  /\ (snd (RegisterInlineScript p scriptId content st) = Some i ->
      exists tg,
        nth_error (Policy.trustGroups p) i = Some tg
        /\ resolved (fst (RegisterInlineScript p scriptId content st)) scriptId
           = if showsInline (TrustGroup.scriptSet tg)
             then Some (i, TrustGroup.Trusted tg)
             else None).
Proof.
  intros Hfresh. split; intros Hi.
  - destruct (grownBy_lookup_fresh
                (fun ss => AddRemoteScript ss scriptId content)
                (fun _ => true) p
                (fst (RegisterRemoteScript url_Parse matcher_Match p scriptId
                        content st))
                i scriptId) as [tg [Hn Hr]];
      [| exact Hfresh | exact (RegisterRemoteScript_grows p _ _ st i Hi) |].
    + intros tg. rewrite groupHasScriptId_AddRemoteScript, String.eqb_refl.
      reflexivity.
    + exists tg. auto.
  - destruct (grownBy_lookup_fresh
                (fun ss => AddInlineScript ss scriptId content)
                (fun tg => showsInline (TrustGroup.scriptSet tg))
                p (fst (RegisterInlineScript p scriptId content st))
                i scriptId) as [tg [Hn Hr]];
      [| exact Hfresh | exact (RegisterInlineScript_grows p _ _ st i Hi) |].
    + intros tg. rewrite groupHasScriptId_AddInlineScript, String.eqb_refl,
        andb_true_r. reflexivity.
    + exists tg. auto.
Qed.

(** X4.  Registration followed by lookup.  For a script id that no group
    lists yet: when [RegisterRemoteScript] returns a group, a lookup of the
    id in the updated policy finds that very group, with its trust flag;
    when [RegisterInlineScript] returns a group, the lookup finds it too
    unless the group is backed by a filter-list set, whose [InlineScripts]
    is always nil: the script is then stored but found in no group. *)
Theorem Register_then_lookup (p : Policy.t) (scriptId content : string)
  (st : option StackTrace.t) (i : nat) :
  TrustGroupForScriptId p scriptId = None ->
  (snd (RegisterRemoteScript url_Parse matcher_Match p scriptId content st)
   = Some i ->
   exists tg,
     nth_error (Policy.trustGroups p) i = Some tg
     /\ resolved
          (fst (RegisterRemoteScript url_Parse matcher_Match p scriptId
                  content st)) scriptId
        = Some (i, TrustGroup.Trusted tg))
  /\ (snd (RegisterInlineScript p scriptId content st) = Some i ->
      exists tg,
        nth_error (Policy.trustGroups p) i = Some tg
        /\ (showsInline (TrustGroup.scriptSet tg) = true ->
            resolved (fst (RegisterInlineScript p scriptId content st))
              scriptId
            = Some (i, TrustGroup.Trusted tg))
        /\ (emptied (TrustGroup.scriptSet tg)
            = emptied NewFilterListScriptSet ->
            TrustGroupForScriptId
              (fst (RegisterInlineScript p scriptId content st)) scriptId
            = None)).
Proof.
  intros Hfresh.
  destruct (Register_lookup_fresh p scriptId content st i Hfresh)
    as [Hr Hi].
  split; [exact Hr|]. intros Hsnd.
  destruct (Hi Hsnd) as [tg [Hn Hres]]. exists tg. split; [exact Hn|]. split.
  - intros Hs. rewrite Hs in Hres. exact Hres.
  - intros Hk.
    assert (Hs : showsInline (TrustGroup.scriptSet tg) = false)
      by (destruct (TrustGroup.scriptSet tg); simpl in Hk; try discriminate;
          reflexivity).
    rewrite Hs in Hres. unfold resolved in Hres.
    destruct (TrustGroupForScriptId (fst _) scriptId);
      [discriminate | reflexivity].
Qed.

End RegistrationRoundTrip.

(** ** Policies with a universal group *)

(** [hasUniversalGroup p]: one of the groups of [p] is backed by a
    universal script set. *)
Definition hasUniversalGroup (p : Policy.t) : Prop :=
  exists trusted tainted,
    In (UniversalScriptSet [] [], trusted, tainted)
       (map skeleton (Policy.trustGroups p)).

Lemma forallb_false_in {A : Type} (f : A -> bool) (l : list A) (x : A) :
  In x l -> f x = false -> forallb f l = false.
Proof.
  intros Hin Hx. destruct (forallb f l) eqn:E; [|reflexivity].
  rewrite forallb_forall in E. rewrite (E x Hin) in Hx. discriminate.
Qed.

Lemma firstIndex_accepting {A : Type} (f : A -> bool) (l : list A) (x : A) :
  In x l -> f x = true -> exists i y, firstIndex f l = Some (i, y).
Proof.
  intros Hin Hx. destruct (firstIndex f l) as [[i y]|] eqn:E; [eauto|].
  rewrite firstIndex_none in E. rewrite (E x Hin) in Hx. discriminate.
Qed.

Section UniversalGroup.

Variable url_Parse : string -> option URL.t.
Variable matcher_Match : string -> option bool.

Lemma universal_accepts (tg : TrustGroup.t) (scriptId content : string) :
  emptied (TrustGroup.scriptSet tg) = UniversalScriptSet [] [] ->
  ContainsRemoteScript url_Parse matcher_Match (TrustGroup.scriptSet tg)
    scriptId content = true
  /\ ContainsInlineScript (TrustGroup.scriptSet tg) scriptId content = true.
Proof.
  destruct (TrustGroup.scriptSet tg); simpl; intros H; try discriminate;
    split; reflexivity.
Qed.

Lemma hasUniversalGroup_member (p : Policy.t) :
  hasUniversalGroup p ->
  exists tg, In tg (Policy.trustGroups p)
             /\ emptied (TrustGroup.scriptSet tg) = UniversalScriptSet [] [].
Proof.
  intros [trusted [tainted Hin]]. apply in_map_iff in Hin.
  destruct Hin as [tg [Hsk Hin]]. exists tg. split; [exact Hin|].
  unfold skeleton in Hsk. congruence.
Qed.

(** X5.  The four canned policies have a universal group, registrations
    keep it, and a policy with a universal group never refuses a script:
    both registration functions return a group, so the "failed to
    register" branch of the script-parsed handler is not reached under any
    of the canned policies. *)
Theorem Register_never_nil_with_universal_group :
  (forall id hosts,
     hasUniversalGroup (NewTrustingPolicy id)
     /\ hasUniversalGroup (NewUntrustingPolicy id)
     /\ hasUniversalGroup (NewHostnamePolicy id hosts)
     /\ hasUniversalGroup (NewFilterListPolicy id))
  /\ (forall p scriptId content st,
        hasUniversalGroup p ->
        (exists i,
            snd (RegisterRemoteScript url_Parse matcher_Match p scriptId
                   content st) = Some i)
        /\ (exists i, snd (RegisterInlineScript p scriptId content st) = Some i)
        /\ hasUniversalGroup
             (fst (RegisterRemoteScript url_Parse matcher_Match p scriptId
                     content st))
        /\ hasUniversalGroup (fst (RegisterInlineScript p scriptId content st))).
Proof.
  split.
  - intros id hosts. split; [|split; [|split]].
    + exists true, false. left. reflexivity.
    + exists false, false. left. reflexivity.
    + exists false, false. right. left. reflexivity.
    + exists true, false. right. left. reflexivity.
  - intros p scriptId content st Hu.
    destruct (hasUniversalGroup_member p Hu) as [tg [Hin Hk]].
    destruct (universal_accepts tg scriptId content Hk) as [Hr Hi].
    assert (Hremote : exists i,
               snd (RegisterRemoteScript url_Parse matcher_Match p scriptId
                      content st) = Some i).
    { unfold RegisterRemoteScript.
      destruct (inheritedFromStack p st) as [i|]; [simpl; eauto|].
      destruct (firstIndex_accepting
                  (fun g => ContainsRemoteScript url_Parse matcher_Match
                              (TrustGroup.scriptSet g) scriptId content)
                  _ tg Hin Hr) as [j [y ->]].
      simpl. eauto. }
    assert (Hinline : exists i,
               snd (RegisterInlineScript p scriptId content st) = Some i).
    { unfold RegisterInlineScript.
      destruct (inheritedFromStack p st) as [i|]; [simpl; eauto|].
      destruct (firstIndex_accepting
                  (fun g => ContainsInlineScript (TrustGroup.scriptSet g)
                              scriptId content)
                  _ tg Hin Hi) as [j [y ->]].
      simpl. eauto. }
    split; [exact Hremote|]. split; [exact Hinline|].
    destruct Hu as [trusted [tainted Hsk]]. split.
    + destruct Hremote as [i Hsnd].
      destruct (grownBy_skeleton _ p _ i
                  (fun ss => proj1 (emptied_AddRemoteScript ss _ _))
                  (RegisterRemoteScript_grows url_Parse matcher_Match p
                     scriptId content st i Hsnd)) as [_ Heq].
      exists trusted, tainted. rewrite Heq. exact Hsk.
    + destruct Hinline as [i Hsnd].
      destruct (grownBy_skeleton _ p _ i
                  (fun ss => proj1 (emptied_AddInlineScript ss _ _))
                  (RegisterInlineScript_grows p scriptId content st i Hsnd))
        as [_ Heq].
      exists trusted, tainted. rewrite Heq. exact Hsk.
Qed.

(** X6.  Taint inheritance reaches the analyzer.  When a frame of the
    stack trace makes a registration inherit an untrusted group and the
    registered id is new, the registration returns that group, and every
    stack that contains the new id is untrusted for the snapshot taken
    afterwards (also for an inline script put into a filter-list group,
    which the snapshot does not list at all). *)
Theorem inherited_script_is_distrusted (p : Policy.t)
  (scriptId content : string) (st : option StackTrace.t) (i : nat)
  (stack : list string) :
  TrustGroupForScriptId p scriptId = None ->
  inheritedFromStack p st = Some i ->
  In scriptId stack ->
  (snd (RegisterRemoteScript url_Parse matcher_Match p scriptId content st)
   = Some i
   /\ StackIsTrusted
        (State (fst (RegisterRemoteScript url_Parse matcher_Match p scriptId
                       content st))) stack = false)
  /\ (snd (RegisterInlineScript p scriptId content st) = Some i
      /\ StackIsTrusted
           (State (fst (RegisterInlineScript p scriptId content st))) stack
         = false).
Proof.
  intros Hfresh Hinh Hin.
  destruct (inheritedFromStack_group p st i Hinh)
    as [before [tg0 [after [Heq [Hi Hun]]]]].
  assert (Hnth : nth_error (Policy.trustGroups p) i = Some tg0)
    by (rewrite Heq, Hi; apply nth_error_middle).
  assert (Hr : snd (RegisterRemoteScript url_Parse matcher_Match p scriptId
                      content st) = Some i)
    by (unfold RegisterRemoteScript; rewrite Hinh; reflexivity).
  assert (Hl : snd (RegisterInlineScript p scriptId content st) = Some i)
    by (unfold RegisterInlineScript; rewrite Hinh; reflexivity).
  destruct (Register_lookup_fresh url_Parse matcher_Match p scriptId content
              st i Hfresh) as [Hremote Hinline].
  split; (split; [assumption|]); rewrite StackIsTrusted_State;
    apply (forallb_false_in _ stack scriptId Hin).
  - destruct (Hremote Hr) as [tg [Hn ->]].
    rewrite Hnth in Hn. injection Hn as <-. exact Hun.
  - destruct (Hinline Hl) as [tg [Hn ->]].
    rewrite Hnth in Hn. injection Hn as <-.
    destruct (showsInline _); [exact Hun | reflexivity].
Qed.

End UniversalGroup.

(** ** The trusted script ids *)

(** X7.  The ids [TrustedScriptIds] hands to the page are those of the
    first group with [Trusted = true], remote scripts first.  They are
    sound for the server side: a stack made of such ids, none of which an
    untrusted group placed before that group lists, is trusted by the
    snapshot of the policy. *)
Theorem TrustedScriptIds_are_trusted (p : Policy.t)
  (before after : list TrustGroup.t) (tg : TrustGroup.t)
  (stack : list string) :
  Policy.trustGroups p = before ++ tg :: after ->
  (forall g, In g before -> TrustGroup.Trusted g = false) ->
  TrustGroup.Trusted tg = true ->
  (forall sid, In sid stack ->
     In sid (TrustedScriptIds p)
     /\ forall g, In g before -> groupHasScriptId g sid = false) ->
  TrustedScriptIds p
  = map RemoteScript.ScriptId (RemoteScripts (TrustGroup.scriptSet tg))
    ++ map InlineScript.ScriptId (InlineScripts (TrustGroup.scriptSet tg))
  /\ StackIsTrusted (State p) stack = true.
Proof.
  intros Heq Hbefore Htg Hstack.
  assert (Hfind : TrustedGroup p = Some tg).
  { unfold TrustedGroup. apply find_first. exists before, after.
    repeat split; auto. }
  assert (Hids : TrustedScriptIds p
                 = map RemoteScript.ScriptId
                     (RemoteScripts (TrustGroup.scriptSet tg))
                   ++ map InlineScript.ScriptId
                        (InlineScripts (TrustGroup.scriptSet tg)))
    by (unfold TrustedScriptIds; rewrite Hfind; reflexivity).
  split; [exact Hids|].
  rewrite StackIsTrusted_State. apply forallb_forall. intros sid Hsid.
  destruct (Hstack sid Hsid) as [Hin Hnot]. rewrite Hids in Hin.
  assert (Hlists : groupHasScriptId tg sid = true).
  { unfold groupHasScriptId. apply orb_true_iff.
    apply in_app_or in Hin. destruct Hin as [Hin | Hin];
      apply in_map_iff in Hin; destruct Hin as [s [<- Hs]];
      [left | right]; apply existsb_exists; exists s;
      (split; [exact Hs | apply String.eqb_refl]). }
  unfold resolved, TrustGroupForScriptId.
  replace (firstIndex _ _) with (Some (List.length before, tg)).
  - simpl. exact Htg.
  - symmetry. apply firstIndex_some. exists before, after.
    repeat split; auto.
Qed.

(** * Further properties of the event log *)

(** ** The other per-policy views of the log *)

Fixpoint NetworkRequestInterceptedLogs_of (log : list Value)
  (policyId : string) : list NetworkRequestInterceptedEvent.t :=
  match log with
  | [] => []
  | VNetworkRequestIntercepted c :: rest =>
      if String.eqb (NetworkRequestInterceptedEvent.PolicyId c) policyId
      then c :: NetworkRequestInterceptedLogs_of rest policyId
      else NetworkRequestInterceptedLogs_of rest policyId
  | _ :: rest => NetworkRequestInterceptedLogs_of rest policyId
  end.

Definition NetworkRequestInterceptedLogs (cc : ChromeClient.t)
  (policyId : string) : list NetworkRequestInterceptedEvent.t :=
  NetworkRequestInterceptedLogs_of (ChromeClient.eventLog cc) policyId.

Fixpoint DebuggerScriptParsedLogs_of (log : list Value) (policyId : string)
  : list DebuggerScriptParsedEvent.t :=
  match log with
  | [] => []
  | VDebuggerScriptParsed c :: rest =>
      if String.eqb (DebuggerScriptParsedEvent.PolicyId c) policyId
      then c :: DebuggerScriptParsedLogs_of rest policyId
      else DebuggerScriptParsedLogs_of rest policyId
  | _ :: rest => DebuggerScriptParsedLogs_of rest policyId
  end.

Definition DebuggerScriptParsedLogs (cc : ChromeClient.t) (policyId : string)
  : list DebuggerScriptParsedEvent.t :=
  DebuggerScriptParsedLogs_of (ChromeClient.eventLog cc) policyId.

Fixpoint PageLifecycleEventLogs_of (log : list Value) (policyId : string)
  : list PageLifecycleEvent.t :=
  match log with
  | [] => []
  | VPageLifecycle c :: rest =>
      if String.eqb (PageLifecycleEvent.PolicyId c) policyId
      then c :: PageLifecycleEventLogs_of rest policyId
      else PageLifecycleEventLogs_of rest policyId
  | _ :: rest => PageLifecycleEventLogs_of rest policyId
  end.

Definition PageLifecycleEventLogs (cc : ChromeClient.t) (policyId : string)
  : list PageLifecycleEvent.t :=
  PageLifecycleEventLogs_of (ChromeClient.eventLog cc) policyId.

(** The [PolicyId] field of a logged value. *)
Definition policyIdOf (e : Value) : option string :=
  match e with
  | VNetworkRequestIntercepted v =>
      Some (NetworkRequestInterceptedEvent.PolicyId v)
  | VNetworkRequestWillBeSent v =>
      Some (NetworkRequestWillBeSentEvent.PolicyId v)
  | VAPIAccess v => Some (APIAccessEvent.PolicyId v)
  | VDebuggerScriptParsed v => Some (DebuggerScriptParsedEvent.PolicyId v)
  | VPageLifecycle v => Some (PageLifecycleEvent.PolicyId v)
  | VOther _ => None
  end.

Definition ofPolicy (policyId : string) (e : Value) : bool :=
  match policyIdOf e with
  | Some pid => String.eqb pid policyId
  | None => false
  end.

(** X8.  The five per-policy views split the log: every logged event
    that carries the policy id appears in exactly one of them, once, and
    they hold nothing else, so their lengths add up to the number of log
    entries of that policy; each view keeps the order of the log and
    returns the events tagged with their own kind. *)
Theorem policy_views_partition_log (cc : ChromeClient.t) (policyId : string) :
  (List.length (NetworkRequestInterceptedLogs cc policyId)
   + List.length (NetworkRequestWillBeSentLogs cc policyId)
   + List.length (APIAccessLogs cc policyId)
   + List.length (DebuggerScriptParsedLogs cc policyId)
   + List.length (PageLifecycleEventLogs cc policyId)
   = List.length (filter (ofPolicy policyId) (ChromeClient.eventLog cc)))%nat
  /\ (forall c, In c (NetworkRequestWillBeSentLogs cc policyId) <->
        In (VNetworkRequestWillBeSent c) (ChromeClient.eventLog cc)
        /\ NetworkRequestWillBeSentEvent.PolicyId c = policyId)
  /\ (forall c, In c (APIAccessLogs cc policyId) <->
        In (VAPIAccess c) (ChromeClient.eventLog cc)
        /\ APIAccessEvent.PolicyId c = policyId).
Proof.
  unfold NetworkRequestInterceptedLogs, NetworkRequestWillBeSentLogs,
    APIAccessLogs, DebuggerScriptParsedLogs, PageLifecycleEventLogs.
  generalize (ChromeClient.eventLog cc) as log. intros log.
  split; [|split].
  - induction log as [|e log IH]; [reflexivity|].
    destruct e as [v|v|v|v|v|t]; cbn;
      try (destruct (String.eqb _ policyId); cbn; lia).
    exact IH.
  - intros c. induction log as [|e log IH]; simpl.
    + split; [intros [] | intros [[] _]].
    + destruct e as [v|v|v|v|v|t];
        try (rewrite IH; split;
             [intros [H1 H2]; split; [right|]; assumption
             | intros [[H1 | H1] H2]; [discriminate | auto]]).
      destruct (String.eqb_spec
                  (NetworkRequestWillBeSentEvent.PolicyId v) policyId)
        as [Heq | Hneq]; simpl; rewrite IH; split.
      * intros [<- | [H1 H2]]; auto.
      * intros [[H1 | H1] H2]; [injection H1 as <-; auto | auto].
      * intros [H1 H2]. auto.
      * intros [[H1 | H1] H2]; [injection H1 as <-; contradiction | auto].
  - intros c. induction log as [|e log IH]; simpl.
    + split; [intros [] | intros [[] _]].
    + destruct e as [v|v|v|v|v|t];
        try (rewrite IH; split;
             [intros [H1 H2]; split; [right|]; assumption
             | intros [[H1 | H1] H2]; [discriminate | auto]]).
      destruct (String.eqb_spec (APIAccessEvent.PolicyId v) policyId)
        as [Heq | Hneq]; simpl; rewrite IH; split.
      * intros [<- | [H1 H2]]; auto.
      * intros [[H1 | H1] H2]; [injection H1 as <-; auto | auto].
      * intros [H1 H2]. auto.
      * intros [[H1 | H1] H2]; [injection H1 as <-; contradiction | auto].
Qed.

(** ** Runs of [LogEvent] *)

From Stdlib Require Import Sorted.

Lemma LogEvents_extends (es : list Value) :
  forall cc : ChromeClient.t,
    exists suffix next,
      fst (LogEvents cc es)
      = ChromeClient.withLog cc (ChromeClient.eventLog cc ++ suffix) next
      /\ Forall2 (fun e e' => exists n, assignEventId e n = Ok e')
                 (filter isEvent es) suffix.
Proof.
  induction es as [|e es IH]; intros cc.
  - exists [], (ChromeClient.nextEventId cc). simpl. rewrite app_nil_r.
    destruct cc; split; [reflexivity | constructor].
  - simpl. unfold LogEvent.
    destruct (assignEventId e (ChromeClient.nextEventId cc)) as [e'|f] eqn:Ha.
    + assert (He : isEvent e = true) by (destruct e; try discriminate; auto).
      rewrite He.
      destruct (IH (ChromeClient.withLog cc (ChromeClient.eventLog cc ++ [e'])
                      (add_int (ChromeClient.nextEventId cc) 1)))
        as [suffix [next [Hrun Hsame]]].
      destruct (LogEvents _ es) as [cc2 rs]. simpl in *.
      exists (e' :: suffix), next. split.
      * rewrite Hrun, <- app_assoc. reflexivity.
      * constructor; [eauto | exact Hsame].
    + assert (He : isEvent e = false) by (destruct e; try discriminate; auto).
      rewrite He. destruct (IH cc) as [suffix [next [Hrun Hsame]]].
      destruct (LogEvents cc es) as [cc2 rs]. simpl in *.
      exists suffix, next. auto.
Qed.

(** X9.  The log is append-only.  Whatever the session state and the
    run of [LogEvent] calls, also past the point where the counter would
    wrap: the log afterwards is the log before followed by the values of
    the five event kinds of the run, in call order and equal to what was
    passed up to the event id; no earlier entry is rewritten or dropped,
    and the policy ids, the policy type and the other session fields are
    untouched. *)
Theorem LogEvents_append_only (cc : ChromeClient.t) (es : list Value) :
  exists suffix,
    ChromeClient.eventLog (fst (LogEvents cc es))
    = ChromeClient.eventLog cc ++ suffix
    /\ Forall2 (fun e e' => exists n, assignEventId e n = Ok e')
               (filter isEvent es) suffix
    /\ ChromeClient.policyIds (fst (LogEvents cc es))
       = ChromeClient.policyIds cc
    /\ ChromeClient.policyType (fst (LogEvents cc es))
       = ChromeClient.policyType cc
    /\ ChromeClient.watchedTargets (fst (LogEvents cc es))
       = ChromeClient.watchedTargets cc
    /\ ChromeClient.instrumentationScript (fst (LogEvents cc es))
       = ChromeClient.instrumentationScript cc
    /\ ChromeClient.runDir (fst (LogEvents cc es)) = ChromeClient.runDir cc
    /\ ChromeClient.logsDir (fst (LogEvents cc es)) = ChromeClient.logsDir cc.
Proof.
  destruct (LogEvents_extends es cc) as [suffix [next [Hrun Hsame]]].
  exists suffix. rewrite Hrun. simpl. repeat split; auto.
Qed.

Lemma idsFrom_bounds (n : Z) (k : nat) :
  Forall (fun z => (n <= z < n + Z.of_nat k)%Z) (idsFrom n k).
Proof.
  unfold idsFrom. apply Forall_forall. intros z Hz.
  apply in_map_iff in Hz. destruct Hz as [i [<- Hi]].
  apply in_seq in Hi. lia.
Qed.

Lemma idsFrom_sorted (k : nat) :
  forall n : Z, StronglySorted Z.lt (idsFrom n k).
Proof.
  induction k as [|k IH]; intros n.
  - constructor.
  - rewrite idsFrom_S. constructor; [apply IH|].
    pose proof (idsFrom_bounds (n + 1) k) as Hb.
    rewrite Forall_forall in Hb |- *. intros z Hz.
    specialize (Hb z Hz). lia.
Qed.

(** The ids of a per-policy view are drawn, in order, from the ids of
    the log. *)
Lemma view_ids_sorted {E : Type} (view : list Value -> list E)
  (select : Value -> option E) (idOf : E -> Z) :
  (forall e log,
      view (e :: log)
      = match select e with Some c => c :: view log | None => view log end) ->
  view [] = [] ->
  (forall e c, select e = Some c -> eventIdOf e = Some (idOf c)) ->
  forall log zs,
    map eventIdOf log = map Some zs ->
    StronglySorted Z.lt zs ->
    StronglySorted Z.lt (map idOf (view log))
    /\ Forall (fun z => In z zs) (map idOf (view log)).
Proof.
  intros Hcons Hnil Hid log.
  induction log as [|e log IH]; intros zs Hzs Hsorted.
  - rewrite Hnil. split; constructor.
  - destruct zs as [|z zs]; [discriminate|].
    simpl in Hzs. injection Hzs as Hz Hzs.
    apply StronglySorted_inv in Hsorted. destruct Hsorted as [Hs Hlt].
    destruct (IH zs Hzs Hs) as [IHs IHin].
    rewrite Hcons. destruct (select e) as [c|] eqn:Hsel.
    + apply Hid in Hsel. rewrite Hsel in Hz. injection Hz as Hz.
      simpl. rewrite Hz. split.
      * constructor; [exact IHs|].
        rewrite Forall_forall in *. intros y Hy. apply Hlt. apply IHin.
        exact Hy.
      * constructor; [left; reflexivity|].
        rewrite Forall_forall in *. intros y Hy. right. apply IHin.
        exact Hy.
    + split; [exact IHs|].
      rewrite Forall_forall in *. intros y Hy. right. apply IHin. exact Hy.
Qed.

Lemma NetworkRequestWillBeSentLogs_of_sorted (pid : string)
  (log : list Value) (zs : list Z) :
  map eventIdOf log = map Some zs ->
  StronglySorted Z.lt zs ->
  StronglySorted Z.lt
    (map NetworkRequestWillBeSentEvent.EventId
       (NetworkRequestWillBeSentLogs_of log pid))
  /\ Forall (fun z => In z zs)
       (map NetworkRequestWillBeSentEvent.EventId
          (NetworkRequestWillBeSentLogs_of log pid)).
Proof.
  apply (view_ids_sorted
           (fun l => NetworkRequestWillBeSentLogs_of l pid)
           (fun e => match e with
                     | VNetworkRequestWillBeSent c =>
                         if String.eqb
                              (NetworkRequestWillBeSentEvent.PolicyId c) pid
                         then Some c else None
                     | _ => None
                     end)).
  - intros e l. destruct e; simpl; try reflexivity.
    destruct (String.eqb _ pid); reflexivity.
  - reflexivity.
  - intros e c. destruct e; try discriminate.
    destruct (String.eqb _ pid); [|discriminate]. intros [= ->]. reflexivity.
Qed.

Lemma APIAccessLogs_of_sorted (pid : string) (log : list Value)
  (zs : list Z) :
  map eventIdOf log = map Some zs ->
  StronglySorted Z.lt zs ->
  StronglySorted Z.lt
    (map APIAccessEvent.EventId (APIAccessLogs_of log pid))
  /\ Forall (fun z => In z zs)
       (map APIAccessEvent.EventId (APIAccessLogs_of log pid)).
Proof.
  apply (view_ids_sorted
           (fun l => APIAccessLogs_of l pid)
           (fun e => match e with
                     | VAPIAccess c =>
                         if String.eqb (APIAccessEvent.PolicyId c) pid
                         then Some c else None
                     | _ => None
                     end)).
  - intros e l. destruct e; simpl; try reflexivity.
    destruct (String.eqb _ pid); reflexivity.
  - reflexivity.
  - intros e c. destruct e; try discriminate.
    destruct (String.eqb _ pid); [|discriminate]. intros [= ->]. reflexivity.
Qed.

Lemma session_log_ids (runDir instrumentationScript logsDir : string)
  (policyType : Z) (es : list Value) :
  (Z.of_nat (List.length (filter isEvent es)) < 2 ^ 63)%Z ->
  map eventIdOf
    (ChromeClient.eventLog
       (fst (LogEvents
               (NewChromeClient runDir policyType instrumentationScript
                  logsDir) es)))
  = map Some (idsFrom 0 (List.length (filter isEvent es))).
Proof.
  intros Hlen.
  destruct (LogEvents_run es
              (NewChromeClient runDir policyType instrumentationScript
                 logsDir)) as [logged [Hrun [Hids _]]];
    [simpl; lia | simpl; lia |].
  rewrite Hrun. simpl. exact Hids.
Qed.

(** X10.  In the log of a session, the requests of a policy and its API
    accesses come with strictly increasing event ids, all of them between
    zero and the number of stored events: log order and event-id order
    agree in every per-policy view the analyzer scans. *)
Theorem session_views_strictly_increasing
  (runDir instrumentationScript logsDir : string) (policyType : Z)
  (es : list Value) (pid : string) :
  (Z.of_nat (List.length (filter isEvent es)) < 2 ^ 63)%Z ->
  let cc := fst (LogEvents
                   (NewChromeClient runDir policyType instrumentationScript
                      logsDir) es) in
  let stored := Z.of_nat (List.length (filter isEvent es)) in
  StronglySorted Z.lt
    (map NetworkRequestWillBeSentEvent.EventId
       (NetworkRequestWillBeSentLogs cc pid))
  /\ StronglySorted Z.lt
       (map APIAccessEvent.EventId (APIAccessLogs cc pid))
  /\ (forall c, In c (NetworkRequestWillBeSentLogs cc pid) ->
        (0 <= NetworkRequestWillBeSentEvent.EventId c < stored)%Z)
  /\ (forall c, In c (APIAccessLogs cc pid) ->
        (0 <= APIAccessEvent.EventId c < stored)%Z).
Proof.
  intros Hlen cc stored.
  pose proof (session_log_ids runDir instrumentationScript logsDir policyType
                es Hlen) as Hids.
  fold cc in Hids.
  pose proof (idsFrom_sorted (List.length (filter isEvent es)) 0) as Hsorted.
  pose proof (idsFrom_bounds 0 (List.length (filter isEvent es))) as Hb.
  rewrite Forall_forall in Hb.
  destruct (NetworkRequestWillBeSentLogs_of_sorted pid _ _ Hids Hsorted)
    as [Hr Hrin].
  destruct (APIAccessLogs_of_sorted pid _ _ Hids Hsorted) as [Ha Hain].
  rewrite Forall_forall in Hrin, Hain.
  split; [exact Hr|]. split; [exact Ha|]. split.
  - intros c Hc.
    apply (Hb (NetworkRequestWillBeSentEvent.EventId c)), Hrin.
    apply in_map. exact Hc.
  - intros c Hc. apply (Hb (APIAccessEvent.EventId c)), Hain.
    apply in_map. exact Hc.
Qed.

(** * Further properties of the analyzer *)

(** ** What the three checks leave alone *)

(** The fields of an analysis that identify it. *)
Definition header (pa : PolicyAnalysis.t) : string * string * string :=
  (PolicyAnalysis.PolicyId pa, PolicyAnalysis.Description pa,
   PolicyAnalysis.TaintingAPIName pa).

(** [reported t s]: the scan state [s] holds a violation, at an event
    id past the tainting event [t]. *)
Definition reported (taintingEventId : Z) (s : PolicyAnalysis.t * Z) : Prop :=
  PolicyAnalysis.PolicyViolated (fst s) = true
  /\ (taintingEventId < snd s)%Z.

(** [supersededBy t s s']: [s'] is [s], or a violation past the tainting
    event that comes strictly before the one [s] held, if it held one. *)
Definition supersededBy (taintingEventId : Z) (s s' : PolicyAnalysis.t * Z)
  : Prop :=
  header (fst s') = header (fst s)
  /\ (s' = s
      \/ (reported taintingEventId s'
          /\ (PolicyAnalysis.PolicyViolated (fst s) = true ->
              (snd s' < snd s)%Z))).

Lemma primaryCheck_reports (taintingEventId : Z) (pa : PolicyAnalysis.t)
  (presendLogs : list NetworkRequestWillBeSentEvent.t) :
  header (fst (primaryCheck taintingEventId pa presendLogs)) = header pa
  /\ (primaryCheck taintingEventId pa presendLogs = (pa, 0%Z)
      \/ reported taintingEventId
           (primaryCheck taintingEventId pa presendLogs)).
Proof.
  induction presendLogs as [|e rest IH]; simpl; [auto|].
  destruct (NetworkRequestWillBeSentEvent.Initiator e) as [ini|]; [|exact IH].
  destruct (Initiator.StackTrace ini) as [st|]; [|exact IH].
  destruct (_ >? _)%Z eqn:Hgt; [|exact IH].
  destruct (primaryStackTrusted _ _); [exact IH|].
  split; [reflexivity|]. right. split; [reflexivity|].
  simpl. apply Z.gtb_lt in Hgt. lia.
Qed.

Lemma probeCheck_supersedes (taintingEventId : Z) (s : PolicyAnalysis.t * Z)
  (apiLogs : list APIAccessEvent.t) :
  supersededBy taintingEventId s (probeCheck taintingEventId s apiLogs).
Proof.
  induction apiLogs as [|e rest IH]; simpl; [split; auto|].
  destruct (isProbe e); simpl; [|exact IH].
  destruct (StackIsTrusted (APIAccessEvent.PolicyState e) _); [exact IH|].
  destruct (_ && _) eqn:Hc; [|exact IH].
  apply andb_true_iff in Hc. destruct Hc as [Hgt Hor].
  apply Z.gtb_lt in Hgt. apply orb_true_iff in Hor.
  split; [reflexivity|]. right. split; [split; [reflexivity | simpl; lia]|].
  intros Hv. simpl. destruct Hor as [Hn | Hlt].
  - rewrite Hv in Hn. discriminate.
  - apply Z.ltb_lt. exact Hlt.
Qed.

Lemma crossTargetCheck_supersedes (cc : ChromeClient.t)
  (apiLogs : list APIAccessEvent.t) (taintingEventId : Z)
  (s : PolicyAnalysis.t * Z) (policyIds : list string) :
  supersededBy taintingEventId s
    (crossTargetCheck cc apiLogs taintingEventId s policyIds).
Proof.
  induction policyIds as [|otherPid rest IH]; simpl; [split; auto|].
  destruct (NetworkRequestWillBeSentLogs cc otherPid) as [|e l]; [exact IH|].
  destruct (_ && _) eqn:Hc; [|exact IH].
  destruct (NetworkRequestWillBeSentEvent.Initiator e) as [ini|]; [|exact IH].
  destruct (Initiator.StackTrace ini) as [stack|]; [|exact IH].
  destruct (crossTrusted apiLogs stack) as [[] scripts]; [exact IH|].
  apply andb_true_iff in Hc. destruct Hc as [Hgt Hor].
  apply Z.gtb_lt in Hgt. apply orb_true_iff in Hor.
  split; [reflexivity|]. right. split; [split; [reflexivity | simpl; lia]|].
  intros Hv. simpl. destruct Hor as [Hn | Hlt].
  - rewrite Hv in Hn. discriminate.
  - apply Z.ltb_lt. exact Hlt.
Qed.

(** X11.  Earliest wins.  The primary check ends without a violation or
    with one at an event id past the tainting event.  The probe check and
    then the cross-target check each leave the result, or replace it by a
    violation that is again past the tainting event and, when a violation
    was already held, has a strictly smaller event id: a violation once
    found is never retracted and only moves to earlier events. *)
Theorem later_checks_only_move_earlier (cc : ChromeClient.t)
  (taintingEventId : Z) (pa : PolicyAnalysis.t)
  (presendLogs : list NetworkRequestWillBeSentEvent.t)
  (apiLogs : list APIAccessEvent.t) (policyIds : list string) :
  PolicyAnalysis.PolicyViolated pa = false ->
  let s1 := primaryCheck taintingEventId pa presendLogs in
  let s2 := probeCheck taintingEventId s1 apiLogs in
  let s3 := crossTargetCheck cc apiLogs taintingEventId s2 policyIds in
  (s1 = (pa, 0%Z) \/ reported taintingEventId s1)
  /\ (PolicyAnalysis.PolicyViolated (fst s1) = true ->
      reported taintingEventId s2 /\ (snd s2 <= snd s1)%Z)
  /\ (PolicyAnalysis.PolicyViolated (fst s2) = true ->
      reported taintingEventId s3 /\ (snd s3 <= snd s2)%Z)
  /\ (PolicyAnalysis.PolicyViolated (fst s3) = true ->
      (taintingEventId < snd s3)%Z).
Proof.
  intros Hpa s1 s2 s3.
  destruct (primaryCheck_reports taintingEventId pa presendLogs)
    as [_ H1].
  destruct (probeCheck_supersedes taintingEventId s1 apiLogs) as [_ H2].
  destruct (crossTargetCheck_supersedes cc apiLogs taintingEventId s2
              policyIds) as [_ H3].
  fold s1 in H1, H2. fold s2 in H2, H3. fold s3 in H3.
  assert (R1 : PolicyAnalysis.PolicyViolated (fst s1) = true ->
               reported taintingEventId s1).
  { intros Hv. destruct H1 as [Heq | Hr]; [|exact Hr].
    rewrite Heq in Hv. simpl in Hv. congruence. }
  assert (R2 : PolicyAnalysis.PolicyViolated (fst s2) = true ->
               reported taintingEventId s2).
  { intros Hv. destruct H2 as [Heq | [Hr _]]; [|exact Hr].
    rewrite Heq in Hv |- *. exact (R1 Hv). }
  split; [exact H1|]. split; [|split].
  - intros Hv. destruct H2 as [Heq | [Hr Hlt]].
    + rewrite Heq. split; [exact (R1 Hv) | lia].
    + split; [exact Hr|]. specialize (Hlt Hv). lia.
  - intros Hv. destruct H3 as [Heq | [Hr Hlt]].
    + rewrite Heq. split; [exact (R2 Hv) | lia].
    + split; [exact Hr|]. specialize (Hlt Hv). lia.
  - intros Hv. destruct H3 as [Heq | [[_ Hr] _]]; [|exact Hr].
    rewrite Heq in Hv |- *. exact (proj2 (R2 Hv)).
Qed.

Lemma AnalyzePolicy_header (cc : ChromeClient.t) (pid : string) :
  header (AnalyzePolicy cc pid)
  = (pid,
     match NetworkRequestWillBeSentLogs cc pid with
     | first :: _ => NetworkRequestWillBeSentEvent.DocumentURL first
     | [] => ""
     end,
     match NetworkRequestWillBeSentLogs cc pid,
           findTaintingEvent (APIAccessLogs cc pid) with
     | _ :: _, Some taintingEvent => APIAccessEvent.APIName taintingEvent
     | _, _ => ""
     end).
Proof.
  unfold AnalyzePolicy.
  destruct (NetworkRequestWillBeSentLogs cc pid) as [|first l] eqn:El;
    [reflexivity|].
  destruct (findTaintingEvent (APIAccessLogs cc pid)) as [t|];
    [|reflexivity].
  rewrite (proj1 (crossTargetCheck_supersedes _ _ _ _ _)).
  rewrite (proj1 (probeCheck_supersedes _ _ _)).
  rewrite (proj1 (primaryCheck_reports _ _ _)). reflexivity.
Qed.

Lemma AnalyzePolicy_PolicyId (cc : ChromeClient.t) (pid : string) :
  PolicyAnalysis.PolicyId (AnalyzePolicy cc pid) = pid.
Proof.
  exact (f_equal (fun h => fst (fst h)) (AnalyzePolicy_header cc pid)).
Qed.

Lemma AnalyzePolicy_Description (cc : ChromeClient.t) (pid : string) :
  PolicyAnalysis.Description (AnalyzePolicy cc pid)
  = match NetworkRequestWillBeSentLogs cc pid with
    | first :: _ => NetworkRequestWillBeSentEvent.DocumentURL first
    | [] => ""
    end.
Proof.
  exact (f_equal (fun h => snd (fst h)) (AnalyzePolicy_header cc pid)).
Qed.

(** X12.  Whatever the checks find, the analysis [AnalyzePolicy]
    returns carries the policy id it was asked for and, as description,
    the document URL of the first request logged for the policy (the empty
    string when there is none); its tainting API is the API name of the
    first access of the policy that is no probe and has an untrusted
    stack, provided the policy has a request, and is empty otherwise. *)
Theorem AnalyzePolicy_identifies_policy (cc : ChromeClient.t) (pid : string) :
  PolicyAnalysis.PolicyId (AnalyzePolicy cc pid) = pid
  /\ PolicyAnalysis.Description (AnalyzePolicy cc pid)
     = match NetworkRequestWillBeSentLogs cc pid with
       | first :: _ => NetworkRequestWillBeSentEvent.DocumentURL first
       | [] => ""
       end
  /\ PolicyAnalysis.TaintingAPIName (AnalyzePolicy cc pid)
     = match NetworkRequestWillBeSentLogs cc pid,
             findTaintingEvent (APIAccessLogs cc pid) with
       | _ :: _, Some taintingEvent => APIAccessEvent.APIName taintingEvent
       | _, _ => ""
       end.
Proof.
  pose proof (AnalyzePolicy_header cc pid) as H. unfold header in H.
  injection H as H1 H2 H3. auto.
Qed.

(** X13.  No violation without a tainting event.  When [AnalyzePolicy]
    reports a violation, the policy has a request in the log and an API
    access that is no "exfiltration_" probe and whose stack its embedded
    state does not trust, and the reported tainting API is the name of the
    first such access; so untrusted requests or probes alone never make a
    policy violated. *)
Theorem violation_needs_tainting_event (cc : ChromeClient.t) (pid : string) :
  PolicyAnalysis.PolicyViolated (AnalyzePolicy cc pid) = true ->
  NetworkRequestWillBeSentLogs cc pid <> []
  /\ exists taintingEvent,
       findTaintingEvent (APIAccessLogs cc pid) = Some taintingEvent
       /\ In taintingEvent (APIAccessLogs cc pid)
       /\ isProbe taintingEvent = false
       /\ StackIsTrusted (APIAccessEvent.PolicyState taintingEvent)
            (APIAccessEvent.ScriptIdStack taintingEvent) = false
       /\ PolicyAnalysis.TaintingAPIName (AnalyzePolicy cc pid)
          = APIAccessEvent.APIName taintingEvent.
Proof.
  intros Hv. pose proof (AnalyzePolicy_header cc pid) as Hh.
  unfold AnalyzePolicy in Hv.
  destruct (NetworkRequestWillBeSentLogs cc pid) as [|first l];
    [discriminate|].
  split; [discriminate|].
  destruct (findTaintingEvent (APIAccessLogs cc pid)) as [t|] eqn:Ht;
    [|discriminate].
  exists t. destruct (findTaintingEvent_untrusted _ _ Ht) as [Hin [Hp Hu]].
  unfold header in Hh. injection Hh as _ _ Hname. auto.
Qed.

(** ** What the analysis reads *)

(** The log entries [AnalyzePolicy cc pid] can be influenced by: the API
    accesses of [pid], and the requests of [pid] and of the policies of
    [policyIds]. *)
Definition consulted (policyIds : list string) (pid : string) (e : Value)
  : bool :=
  match e with
  | VNetworkRequestWillBeSent v =>
      existsb (String.eqb (NetworkRequestWillBeSentEvent.PolicyId v))
              (pid :: policyIds)
  | VAPIAccess v => String.eqb (APIAccessEvent.PolicyId v) pid
  | _ => false
  end.

Lemma crossTargetCheck_views (cc1 cc2 : ChromeClient.t)
  (apiLogs : list APIAccessEvent.t) (taintingEventId : Z)
  (policyIds : list string) :
  (forall q, In q policyIds ->
     NetworkRequestWillBeSentLogs cc1 q = NetworkRequestWillBeSentLogs cc2 q) ->
  forall st,
    crossTargetCheck cc1 apiLogs taintingEventId st policyIds
    = crossTargetCheck cc2 apiLogs taintingEventId st policyIds.
Proof.
  induction policyIds as [|otherPid rest IH]; intros Hviews st; simpl.
  - reflexivity.
  - rewrite (Hviews otherPid (or_introl eq_refl)).
    assert (IH' : forall st', crossTargetCheck cc1 apiLogs taintingEventId
                                st' rest
                              = crossTargetCheck cc2 apiLogs taintingEventId
                                  st' rest)
      by (apply IH; intros q Hq; apply Hviews; right; assumption).
    destruct (NetworkRequestWillBeSentLogs cc2 otherPid) as [|e l];
      [apply IH'|].
    destruct (_ && _); [|apply IH'].
    destruct (NetworkRequestWillBeSentEvent.Initiator e) as [ini|];
      [|apply IH'].
    destruct (Initiator.StackTrace ini) as [stack|]; [|apply IH'].
    destruct (crossTrusted apiLogs stack) as [[] scripts];
      [apply IH' | reflexivity].
Qed.

Lemma NetworkRequestWillBeSentLogs_of_consulted (policyIds : list string)
  (pid q : string) (log : list Value) :
  In q (pid :: policyIds) ->
  NetworkRequestWillBeSentLogs_of (filter (consulted policyIds pid) log) q
  = NetworkRequestWillBeSentLogs_of log q.
Proof.
  intros Hq. induction log as [|e log IH]; [reflexivity|].
  destruct e as [v|v|v|v|v|t]; cbn [filter consulted]; try exact IH.
  - destruct (existsb _ (pid :: policyIds)) eqn:Hex.
    + cbn [NetworkRequestWillBeSentLogs_of]. rewrite IH. reflexivity.
    + cbn [NetworkRequestWillBeSentLogs_of]. rewrite IH.
      destruct (String.eqb_spec
                  (NetworkRequestWillBeSentEvent.PolicyId v) q) as [Heq|];
        [|reflexivity].
      exfalso. assert (Ht : existsb
                              (String.eqb
                                 (NetworkRequestWillBeSentEvent.PolicyId v))
                              (pid :: policyIds) = true).
      { apply existsb_exists. exists q. split; [exact Hq|].
        apply String.eqb_eq. exact Heq. }
      congruence.
  - destruct (String.eqb (APIAccessEvent.PolicyId v) pid); exact IH.
Qed.

Lemma APIAccessLogs_of_consulted (policyIds : list string) (pid : string)
  (log : list Value) :
  APIAccessLogs_of (filter (consulted policyIds pid) log) pid
  = APIAccessLogs_of log pid.
Proof.
  induction log as [|e log IH]; [reflexivity|].
  destruct e as [v|v|v|v|v|t]; cbn [filter consulted]; try exact IH.
  - destruct (existsb _ (pid :: policyIds)); exact IH.
  - destruct (String.eqb (APIAccessEvent.PolicyId v) pid) eqn:Heq;
      cbn [APIAccessLogs_of]; rewrite ?Heq, IH; reflexivity.
Qed.

(** X14.  The analysis of a policy reads only that policy's API accesses
    and the requests logged for it and for the policies in [policyIds]:
    dropping every other entry from the log (intercepted requests, parsed
    scripts, page life-cycle events, the API accesses of other policies,
    requests of policies not listed) leaves the analysis unchanged. *)
Theorem AnalyzePolicy_reads_only_consulted (cc : ChromeClient.t)
  (pid : string) :
  AnalyzePolicy
    (ChromeClient.withLog cc
       (filter (consulted (ChromeClient.policyIds cc) pid)
          (ChromeClient.eventLog cc))
       (ChromeClient.nextEventId cc))
    pid
  = AnalyzePolicy cc pid.
Proof.
  set (cc' := ChromeClient.withLog cc _ _).
  assert (Hviews : forall q, In q (pid :: ChromeClient.policyIds cc) ->
                     NetworkRequestWillBeSentLogs cc' q
                     = NetworkRequestWillBeSentLogs cc q)
    by (intros q Hq; apply NetworkRequestWillBeSentLogs_of_consulted;
        exact Hq).
  assert (Hapi : APIAccessLogs cc' pid = APIAccessLogs cc pid)
    by apply APIAccessLogs_of_consulted.
  unfold AnalyzePolicy.
  rewrite (Hviews pid (or_introl eq_refl)), Hapi.
  destruct (NetworkRequestWillBeSentLogs cc pid) as [|first l];
    [reflexivity|].
  destruct (findTaintingEvent (APIAccessLogs cc pid)) as [t|];
    [|reflexivity].
  f_equal. change (ChromeClient.policyIds cc')
             with (ChromeClient.policyIds cc).
  apply crossTargetCheck_views. intros q Hq. apply Hviews. right. exact Hq.
Qed.

(** ** The primary check on the log of a session *)

Lemma primaryViolation_decided (taintingEventId : Z)
  (e : NetworkRequestWillBeSentEvent.t) :
  primaryViolation taintingEventId e \/ ~ primaryViolation taintingEventId e.
Proof.
  destruct (NetworkRequestWillBeSentEvent.Initiator e) as [ini|] eqn:Hi.
  - destruct (Initiator.StackTrace ini) as [st|] eqn:Hs.
    + destruct (Z_gt_dec (NetworkRequestWillBeSentEvent.EventId e)
                  taintingEventId) as [Hgt | Hle].
      * destruct (primaryStackTrusted
                    (NetworkRequestWillBeSentEvent.PolicyState e)
                    (initiatorCallFrames st)) eqn:Ht.
        -- right. intros [ini' [st' [Hi' [Hs' [_ Hu]]]]].
           rewrite Hi in Hi'. injection Hi' as <-.
           rewrite Hs in Hs'. injection Hs' as <-.
           apply primaryStackTrusted_false in Hu. congruence.
        -- left. exists ini, st. repeat split; auto.
           apply primaryStackTrusted_false. exact Ht.
      * right. intros [_ [_ [_ [_ [Hgt _]]]]]. contradiction.
    + right. intros [ini' [st' [Hi' [Hs' _]]]].
      rewrite Hi in Hi'. injection Hi' as <-. congruence.
  - right. intros [ini' [_ [Hi' _]]]. congruence.
Qed.

Lemma primaryCheck_least (taintingEventId : Z) (pa : PolicyAnalysis.t)
  (presendLogs : list NetworkRequestWillBeSentEvent.t) :
  StronglySorted Z.lt
    (map NetworkRequestWillBeSentEvent.EventId presendLogs) ->
  forall e', In e' presendLogs ->
    primaryViolation taintingEventId e' ->
    exists e ini st,
      In e presendLogs
      /\ primaryViolation taintingEventId e
      /\ primaryCheck taintingEventId pa presendLogs = primaryRecord pa e ini st
      /\ (NetworkRequestWillBeSentEvent.EventId e
          <= NetworkRequestWillBeSentEvent.EventId e')%Z.
Proof.
  induction presendLogs as [|e rest IH]; intros Hsorted e' Hin Hv;
    [destruct Hin|].
  simpl in Hsorted. apply StronglySorted_inv in Hsorted.
  destruct Hsorted as [Hs Hlt].
  destruct (primaryViolation_decided taintingEventId e) as [He | Hne].
  - destruct He as [ini [st [Hi [Hst Hrest]]]].
    exists e, ini, st. split; [left; reflexivity|].
    split; [exists ini, st; auto|].
    split; [apply primaryCheck_stop; auto; exists ini, st; auto|].
    destruct Hin as [<- | Hin]; [lia|].
    rewrite Forall_forall in Hlt.
    specialize (Hlt _ (in_map NetworkRequestWillBeSentEvent.EventId _ _ Hin)).
    lia.
  - destruct Hin as [<- | Hin]; [contradiction|].
    destruct (IH Hs e' Hin Hv) as [e0 [ini [st [H0 [Hv0 [Hrun Hle]]]]]].
    exists e0, ini, st. split; [right; exact H0|]. split; [exact Hv0|].
    split; [rewrite primaryCheck_skip by exact Hne; exact Hrun | exact Hle].
Qed.

(** X15.  On the log of a session, first in log order is earliest by
    event id: when some request of the policy qualifies for the primary
    check, the check records a qualifying request whose event id is the
    least among the qualifying requests of the policy. *)
Theorem primaryCheck_reports_least_event_id
  (runDir instrumentationScript logsDir : string) (policyType : Z)
  (es : list Value) (pid : string) (taintingEventId : Z)
  (pa : PolicyAnalysis.t) (e' : NetworkRequestWillBeSentEvent.t) :
  (Z.of_nat (List.length (filter isEvent es)) < 2 ^ 63)%Z ->
  let cc := fst (LogEvents
                   (NewChromeClient runDir policyType instrumentationScript
                      logsDir) es) in
  In e' (NetworkRequestWillBeSentLogs cc pid) ->
  primaryViolation taintingEventId e' ->
  exists e ini st,
    In e (NetworkRequestWillBeSentLogs cc pid)
    /\ primaryViolation taintingEventId e
    /\ primaryCheck taintingEventId pa (NetworkRequestWillBeSentLogs cc pid)
       = primaryRecord pa e ini st
    /\ (NetworkRequestWillBeSentEvent.EventId e
        <= NetworkRequestWillBeSentEvent.EventId e')%Z.
Proof.
  intros Hlen cc Hin Hv. apply primaryCheck_least; auto.
  pose proof (session_log_ids runDir instrumentationScript logsDir policyType
                es Hlen) as Hids.
  exact (proj1 (NetworkRequestWillBeSentLogs_of_sorted pid _ _ Hids
                  (idsFrom_sorted _ 0))).
Qed.

(** ** [AnalyzeLogs] *)

Section AnalyzeAll.

(** The text [fmt] prints for the flag [webServerPort]. *)
Variable webServerPort : string.

Definition WebServerURL (path : string) : string :=
  String.append "http://localhost:" (String.append webServerPort path).

(** The test that makes [AnalyzeLogs] skip an analysis: debug pages and
    Chrome internal pages. *)
Definition skipped (pa : PolicyAnalysis.t) : bool :=
  String.eqb (PolicyAnalysis.Description pa) ""
  || String.eqb (PolicyAnalysis.Description pa) (WebServerURL "/")
  || String.eqb (PolicyAnalysis.Description pa) (WebServerURL "/launched")
  || String.prefix (WebServerURL "/event_log") (PolicyAnalysis.Description pa)
  || String.prefix "chrome" (PolicyAnalysis.Description pa).

Fixpoint analyzeEach (cc : ChromeClient.t) (policyIds : list string)
  : list PolicyAnalysis.t :=
  match policyIds with
  | [] => []
  | pid :: rest =>
      let pa := AnalyzePolicy cc pid in
      if skipped pa then analyzeEach cc rest
      else pa :: analyzeEach cc rest
  end.

Definition AnalyzeLogs (cc : ChromeClient.t) : list PolicyAnalysis.t :=
  analyzeEach cc (ChromeClient.policyIds cc).

Lemma analyzeEach_filter (cc : ChromeClient.t) (policyIds : list string) :
  analyzeEach cc policyIds
  = filter (fun pa => negb (skipped pa)) (map (AnalyzePolicy cc) policyIds).
Proof.
  induction policyIds as [|pid rest IH]; simpl; [reflexivity|].
  destruct (skipped (AnalyzePolicy cc pid)); simpl; rewrite IH; reflexivity.
Qed.

(** X16.  [AnalyzeLogs] returns, in the order of [policyIds], the
    analyses of the known policies that are not skipped.  Each analysis
    returned is the one of its own policy id, that policy has a request in
    the log, and its description is the document URL of the policy's first
    request, which is neither empty, nor the home or the launch page of
    the test server, nor an event-log page, nor a "chrome" URL.  A policy
    without a logged request is never reported. *)
Theorem AnalyzeLogs_reports_pages (cc : ChromeClient.t) :
  AnalyzeLogs cc
  = filter (fun pa => negb (skipped pa))
      (map (AnalyzePolicy cc) (ChromeClient.policyIds cc))
  /\ (forall pa, In pa (AnalyzeLogs cc) ->
        In (PolicyAnalysis.PolicyId pa) (ChromeClient.policyIds cc)
        /\ pa = AnalyzePolicy cc (PolicyAnalysis.PolicyId pa)
        /\ (exists first rest,
               NetworkRequestWillBeSentLogs cc (PolicyAnalysis.PolicyId pa)
               = first :: rest
               /\ PolicyAnalysis.Description pa
                  = NetworkRequestWillBeSentEvent.DocumentURL first)
        /\ PolicyAnalysis.Description pa <> ""
        /\ PolicyAnalysis.Description pa <> WebServerURL "/"
        /\ PolicyAnalysis.Description pa <> WebServerURL "/launched"
        /\ String.prefix (WebServerURL "/event_log")
             (PolicyAnalysis.Description pa) = false
        /\ String.prefix "chrome" (PolicyAnalysis.Description pa) = false)
  /\ (forall pid pa,
        NetworkRequestWillBeSentLogs cc pid = [] ->
        In pa (AnalyzeLogs cc) ->
        PolicyAnalysis.PolicyId pa <> pid).
Proof.
  assert (Hmem : forall pa, In pa (AnalyzeLogs cc) ->
            In (PolicyAnalysis.PolicyId pa) (ChromeClient.policyIds cc)
            /\ pa = AnalyzePolicy cc (PolicyAnalysis.PolicyId pa)
            /\ skipped pa = false).
  { intros pa Hin. unfold AnalyzeLogs in Hin.
    rewrite analyzeEach_filter in Hin. apply filter_In in Hin.
    destruct Hin as [Hin Hs]. apply in_map_iff in Hin.
    destruct Hin as [pid [<- Hpid]].
    rewrite AnalyzePolicy_PolicyId.
    repeat split; auto. apply negb_true_iff. exact Hs. }
  split; [apply analyzeEach_filter|]. split.
  - intros pa Hin. destruct (Hmem pa Hin) as [Hpid [Heq Hs]].
    split; [exact Hpid|]. split; [exact Heq|].
    unfold skipped in Hs.
    apply orb_false_iff in Hs. destruct Hs as [Hs Hchrome].
    apply orb_false_iff in Hs. destruct Hs as [Hs Hlog].
    apply orb_false_iff in Hs. destruct Hs as [Hs Hlaunched].
    apply orb_false_iff in Hs. destruct Hs as [Hempty Hhome].
    apply String.eqb_neq in Hempty, Hhome, Hlaunched.
    split; [|auto].
    pose proof (AnalyzePolicy_Description cc (PolicyAnalysis.PolicyId pa))
      as Hd.
    rewrite <- Heq in Hd.
    destruct (NetworkRequestWillBeSentLogs cc (PolicyAnalysis.PolicyId pa))
      as [|first rest]; [contradiction|].
    exists first, rest. auto.
  - intros pid pa Hnone Hin Hid. destruct (Hmem pa Hin) as [_ [Heq Hs]].
    pose proof (AnalyzePolicy_Description cc pid) as Hd.
    rewrite Hnone in Hd. rewrite <- Hid, <- Heq in Hd.
    unfold skipped in Hs. rewrite Hd in Hs. discriminate.
Qed.

End AnalyzeAll.

(** * The other handlers of a target *)

(** ** Navigation *)

(** The policy types of the [-policy] flag. *)
Definition policyTypeTrusting : Z := 0.
Definition policyTypeUntrusting : Z := 1.
Definition policyTypeHostname : Z := 2.
Definition policyTypeFilterList : Z := 3.
Definition policyTypeInvalid : Z := 4.

Definition targetWith (tg : Target.t) (navHistory : list string)
  (policy : Policy.t) (instrumentationScriptId : string) : Target.t :=
  Target.mk (Target.TargetId tg) navHistory policy instrumentationScriptId.

Definition setPolicyIds (policyIds : list string) : handler unit :=
  fun w =>
    let cc := World.chromeClient w in
    (World.mk (World.target w)
       (ChromeClient.mk (ChromeClient.runDir cc) (ChromeClient.policyType cc)
          (ChromeClient.eventLog cc) (ChromeClient.nextEventId cc) policyIds
          (ChromeClient.instrumentationScript cc)
          (ChromeClient.watchedTargets cc) (ChromeClient.logsDir cc))
       (World.sent w),
     Ok tt).

Section Navigation.

Variable url_Parse : string -> option URL.t.

(** Whether the rule matcher is at hand when [NewFilterListScriptSet]
    asks for it: cached from an earlier call, or built from the two list
    files without an error. *)
Variable matcherLoads : bool.

(** [navReset]; [id] is the value [newPolicyId] draws in this call.  The
    history and the instrumentation id are written before the policy type
    is looked at. *)
Definition navReset (id pageURL : string) : handler unit :=
  tg <~ getTarget ;;
  let tg1 :=
    targetWith tg (Target.NavHistory tg ++ [pageURL]) (Target.Policy tg) "" in
  _ <~ setTarget tg1 ;;
  cc <~ getClient ;;
  policy <~
    (if Z.eqb (ChromeClient.policyType cc) policyTypeTrusting
     then ret (NewTrustingPolicy id)
     else if Z.eqb (ChromeClient.policyType cc) policyTypeUntrusting
     then ret (NewUntrustingPolicy id)
     else if Z.eqb (ChromeClient.policyType cc) policyTypeHostname
     then match url_Parse pageURL with
          | None => fail (LogPanic "url.Parse")
          | Some u => ret (NewHostnamePolicy id [origin u])
          end
     else if Z.eqb (ChromeClient.policyType cc) policyTypeFilterList
     then if matcherLoads then ret (NewFilterListPolicy id)
          else fail (LogPanic "NewMatcherFromFiles")
     else fail (LogPanic
                  "bad policyType: this should have been checked in init()")) ;;
  _ <~ setTarget
         (targetWith tg1 (Target.NavHistory tg1) policy
            (Target.instrumentationScriptId tg1)) ;;
  setPolicyIds (ChromeClient.policyIds cc ++ [Policy.Id policy]).

End Navigation.

(** ** Requests about to be sent *)

(** A value read through a pointer that may be nil. *)
Inductive deref (A : Type) : Type :=
| Deref (a : A)
| NilPointerDereference.

Arguments Deref {A} a.
Arguments NilPointerDereference {A}.

(** The arguments of a [Network.requestWillBeSent] notification, decoded
    as the handler decodes them; [NewInitiator] returns a non-nil
    initiator for every message, the nil one included. *)
Module RequestWillBeSentParams.
Record t : Type := mk {
  initiator : Initiator.t;
  loaderId : string;
  frameId : string;
  hasUserGesture : bool;
  type_ : string;
  documentURL : string;
  request : NetworkRequest.t;
  wallTime : Z
}.
End RequestWillBeSentParams.

(** The script ids the handler collects for its log line: the frames of
    the initiator's stack trace or, when it has none, those of the parent
    trace, read without a nil test. *)
Definition requestScriptIds (initiator : Initiator.t)
  : deref (list string) :=
  match Initiator.StackTrace initiator with
  | None => Deref []
  | Some st =>
      match StackTrace.CallFrames st with
      | [] =>
          match StackTrace.Parent st with
          | None => NilPointerDereference
          | Some parent =>
              Deref (map CallFrame.ScriptId (StackTrace.CallFrames parent))
          end
      | callFrames => Deref (map CallFrame.ScriptId callFrames)
      end
  end.

Definition networkRequestWillBeSent (p : RequestWillBeSentParams.t)
  (w : World.t) : World.t * deref (result unit) :=
  match requestScriptIds (RequestWillBeSentParams.initiator p) with
  | NilPointerDereference => (w, NilPointerDereference)
  | Deref _ =>
      let tg := World.target w in
      let (w', r) :=
        logEvent
          (VNetworkRequestWillBeSent
             (NetworkRequestWillBeSentEvent.mk 0
                (RequestWillBeSentParams.wallTime p)
                "NetworkRequestWillBeSent"
                (Policy.Id (Target.Policy tg))
                (Target.TargetId tg)
                (Some (RequestWillBeSentParams.initiator p))
                (RequestWillBeSentParams.loaderId p)
                (RequestWillBeSentParams.frameId p)
                (RequestWillBeSentParams.hasUserGesture p)
                (RequestWillBeSentParams.type_ p)
                (RequestWillBeSentParams.documentURL p)
                (RequestWillBeSentParams.request p)
                (State (Target.Policy tg))))
          w in
      (w', Deref r)
  end.

(** ** Parsed scripts *)

Module ScriptParsedParams.
Record t : Type := mk {
  isLiveEdit : bool;
  stackTrace : option StackTrace.t;
  scriptId : string;
  url : string;
  hash : string;
  startLine : Z;
  startColumn : Z
}.
End ScriptParsedParams.



Section ScriptParsed.

Variable url_Parse : string -> option URL.t.
Variable matcher_Match : string -> option bool.

(** [time.Now()] at the one place the handler reads the clock. *)
Variable now : Z.


End ScriptParsed.

(** ** Properties of the request handler *)

Lemma NetworkRequestWillBeSentLogs_of_app (log1 log2 : list Value)
  (pid : string) :
  NetworkRequestWillBeSentLogs_of (log1 ++ log2) pid
  = NetworkRequestWillBeSentLogs_of log1 pid
    ++ NetworkRequestWillBeSentLogs_of log2 pid.
Proof.
  induction log1 as [|e log1 IH]; [reflexivity|].
  destruct e as [v|v|v|v|v|t]; simpl; try exact IH.
  destruct (String.eqb _ pid); simpl; rewrite IH; reflexivity.
Qed.

(** X17.  [networkRequestWillBeSent] reads the parent of the initiator's
    stack trace without a nil test: it faults with a nil-pointer
    dereference exactly when the initiator has a stack trace with no call
    frame and no parent, and then nothing is logged and the world is left
    as it was. *)
Theorem networkRequestWillBeSent_faults_without_parent
  (p : RequestWillBeSentParams.t) (w : World.t) :
  (snd (networkRequestWillBeSent p w) = NilPointerDereference <->
   exists st,
     Initiator.StackTrace (RequestWillBeSentParams.initiator p) = Some st
     /\ StackTrace.CallFrames st = []
     /\ StackTrace.Parent st = None)
  /\ (snd (networkRequestWillBeSent p w) = NilPointerDereference ->
      fst (networkRequestWillBeSent p w) = w).
Proof.
  unfold networkRequestWillBeSent, requestScriptIds.
  destruct (Initiator.StackTrace (RequestWillBeSentParams.initiator p))
    as [st|] eqn:Hs.
  - destruct (StackTrace.CallFrames st) as [|cf frames] eqn:Hf.
    + destruct (StackTrace.Parent st) as [parent|] eqn:Hp.
      * destruct (logEvent _ w) as [w' r]. simpl. split; [|discriminate].
        split; [discriminate|].
        intros [st' [[= <-] [_ Hnone]]]. congruence.
      * simpl. split; [|reflexivity].
        split; [intros _; exists st; auto | reflexivity].
    + destruct (logEvent _ w) as [w' r]. simpl. split; [|discriminate].
      split; [discriminate|].
      intros [st' [[= <-] [Hnil _]]]. congruence.
  - destruct (logEvent _ w) as [w' r]. simpl. split; [|discriminate].
    split; [discriminate | intros [st' [H _]]; discriminate].
Qed.

(** X18.  When it does not fault, [networkRequestWillBeSent] appends
    exactly one request event: it takes the next event id, carries the
    notification's initiator (never nil), the id of the target's current
    policy and a snapshot of that policy, and becomes the last entry of
    that policy's request view; the target, its policy and the requests
    sent are untouched. *)
Theorem networkRequestWillBeSent_logs_request
  (p : RequestWillBeSentParams.t) (w : World.t) :
  (forall st,
     Initiator.StackTrace (RequestWillBeSentParams.initiator p) = Some st ->
     StackTrace.CallFrames st = [] -> StackTrace.Parent st <> None) ->
  let tg := World.target w in
  let cc := World.chromeClient w in
  let ev :=
    NetworkRequestWillBeSentEvent.mk (ChromeClient.nextEventId cc)
      (RequestWillBeSentParams.wallTime p) "NetworkRequestWillBeSent"
      (Policy.Id (Target.Policy tg)) (Target.TargetId tg)
      (Some (RequestWillBeSentParams.initiator p))
      (RequestWillBeSentParams.loaderId p)
      (RequestWillBeSentParams.frameId p)
      (RequestWillBeSentParams.hasUserGesture p)
      (RequestWillBeSentParams.type_ p)
      (RequestWillBeSentParams.documentURL p)
      (RequestWillBeSentParams.request p)
      (State (Target.Policy tg)) in
  networkRequestWillBeSent p w
  = (World.mk tg
       (ChromeClient.withLog cc
          (ChromeClient.eventLog cc ++ [VNetworkRequestWillBeSent ev])
          (add_int (ChromeClient.nextEventId cc) 1))
       (World.sent w),
     Deref (Ok tt))
  /\ NetworkRequestWillBeSentLogs
       (World.chromeClient (fst (networkRequestWillBeSent p w)))
       (Policy.Id (Target.Policy tg))
     = NetworkRequestWillBeSentLogs cc (Policy.Id (Target.Policy tg)) ++ [ev].
Proof.
  intros Hparent tg cc ev.
  assert (Hrun : networkRequestWillBeSent p w
                 = (World.mk tg
                      (ChromeClient.withLog cc
                         (ChromeClient.eventLog cc
                          ++ [VNetworkRequestWillBeSent ev])
                         (add_int (ChromeClient.nextEventId cc) 1))
                      (World.sent w),
                    Deref (Ok tt))).
  { unfold networkRequestWillBeSent, requestScriptIds.
    destruct (Initiator.StackTrace (RequestWillBeSentParams.initiator p))
      as [st|] eqn:Hs; [|reflexivity].
    destruct (StackTrace.CallFrames st) as [|cf frames] eqn:Hf;
      [|reflexivity].
    destruct (StackTrace.Parent st) as [parent|] eqn:Hp; [reflexivity|].
    exfalso. exact (Hparent st eq_refl Hf Hp). }
  split; [exact Hrun|]. rewrite Hrun. simpl.
  unfold NetworkRequestWillBeSentLogs. simpl.
  rewrite NetworkRequestWillBeSentLogs_of_app. simpl.
  rewrite String.eqb_refl. reflexivity.
Qed.

(** ** Properties of the script-parsed handler *)

Section ScriptParsedProperties.

Variable url_Parse : string -> option URL.t.
Variable matcher_Match : string -> option bool.
Variable now : Z.


End ScriptParsedProperties.

(** ** Properties of navigation *)

Section NavigationProperties.

Variable url_Parse : string -> option URL.t.
Variable matcherLoads : bool.

(** X20.  A navigation under one of the four policy types (with, for the
    hostname type, a page URL that parses and, for the filter-list type,
    the rule matcher at hand) appends the URL to the target's
    history, clears the instrumentation script id, installs a policy with
    the drawn id and appends that id to the session's policy ids; log and
    connection are untouched.  The new policy has a universal group and
    knows no script: no id resolves to a group, so its snapshot trusts the
    empty stack only.  Under the hostname type the page's own origin is
    the trusted one: a remote script served from the page URL is put in
    the trusted group. *)
Theorem navReset_installs_fresh_policy (id pageURL : string) (w : World.t) :
  let tg := World.target w in
  let cc := World.chromeClient w in
  (0 <= ChromeClient.policyType cc < policyTypeInvalid)%Z ->
  (ChromeClient.policyType cc = policyTypeHostname ->
   url_Parse pageURL <> None) ->
  (ChromeClient.policyType cc = policyTypeFilterList ->
   matcherLoads = true) ->
  exists policy,
    navReset url_Parse matcherLoads id pageURL w
    = (World.mk
         (Target.mk (Target.TargetId tg) (Target.NavHistory tg ++ [pageURL])
            policy "")
         (ChromeClient.mk (ChromeClient.runDir cc) (ChromeClient.policyType cc)
            (ChromeClient.eventLog cc) (ChromeClient.nextEventId cc)
            (ChromeClient.policyIds cc ++ [id])
            (ChromeClient.instrumentationScript cc)
            (ChromeClient.watchedTargets cc) (ChromeClient.logsDir cc))
         (World.sent w),
       Ok tt)
    /\ Policy.Id policy = id
    /\ hasUniversalGroup policy
    /\ (forall sid, TrustGroupForScriptId policy sid = None)
    /\ (forall stack, StackIsTrusted (State policy) stack = true <-> stack = [])
    /\ (ChromeClient.policyType cc = policyTypeHostname ->
        forall matcher_Match sid,
          snd (RegisterRemoteScript url_Parse matcher_Match policy sid pageURL
                 None) = Some 0).
Proof.
  intros tg cc Hrange Hparse Hloads.
  assert (Hfresh : forall policy,
            (forall sid, TrustGroupForScriptId policy sid = None) ->
            forall stack,
              StackIsTrusted (State policy) stack = true <-> stack = []).
  { intros policy Hnone stack. rewrite StackIsTrusted_State.
    destruct stack as [|sid stack]; simpl; [split; reflexivity|].
    unfold resolved. rewrite Hnone. simpl. split; discriminate. }
  unfold navReset, bindH, getTarget, setTarget, getClient, setPolicyIds, ret,
    fail, policyTypeInvalid in *.
  cbn [World.target World.chromeClient World.sent]. fold tg cc.
  destruct (Z.eqb_spec (ChromeClient.policyType cc) policyTypeTrusting)
    as [H0 | H0].
  { exists (NewTrustingPolicy id). split; [reflexivity|].
    split; [reflexivity|]. split; [exists true, false; left; reflexivity|].
    assert (Hn : forall sid,
               TrustGroupForScriptId (NewTrustingPolicy id) sid = None)
      by (intros sid; reflexivity).
    split; [exact Hn|]. split; [apply Hfresh; exact Hn|].
    intros H2. rewrite H0 in H2. discriminate. }
  destruct (Z.eqb_spec (ChromeClient.policyType cc) policyTypeUntrusting)
    as [H1 | H1].
  { exists (NewUntrustingPolicy id). split; [reflexivity|].
    split; [reflexivity|]. split; [exists false, false; left; reflexivity|].
    assert (Hn : forall sid,
               TrustGroupForScriptId (NewUntrustingPolicy id) sid = None)
      by (intros sid; reflexivity).
    split; [exact Hn|]. split; [apply Hfresh; exact Hn|].
    intros H2. rewrite H1 in H2. discriminate. }
  destruct (Z.eqb_spec (ChromeClient.policyType cc) policyTypeHostname)
    as [H2 | H2].
  { destruct (url_Parse pageURL) as [u|] eqn:Hu;
      [|exfalso; exact (Hparse H2 eq_refl)].
    exists (NewHostnamePolicy id [origin u]). split; [reflexivity|].
    split; [reflexivity|].
    split; [exists false, false; right; left; reflexivity|].
    assert (Hn : forall sid,
               TrustGroupForScriptId (NewHostnamePolicy id [origin u]) sid
               = None)
      by (intros sid; reflexivity).
    split; [exact Hn|]. split; [apply Hfresh; exact Hn|].
    intros _ matcher_Match sid. unfold RegisterRemoteScript. simpl.
    rewrite Hu, String.eqb_refl. reflexivity. }
  destruct (Z.eqb_spec (ChromeClient.policyType cc) policyTypeFilterList)
    as [H3 | H3].
  { rewrite (Hloads H3).
    exists (NewFilterListPolicy id). split; [reflexivity|].
    split; [reflexivity|].
    split; [exists true, false; right; left; reflexivity|].
    assert (Hn : forall sid,
               TrustGroupForScriptId (NewFilterListPolicy id) sid = None)
      by (intros sid; reflexivity).
    split; [exact Hn|]. split; [apply Hfresh; exact Hn|].
    intros H4. contradiction. }
  exfalso. unfold policyTypeTrusting, policyTypeUntrusting,
    policyTypeHostname, policyTypeFilterList in *. lia.
Qed.

(** X21.  A navigation that cannot build a policy (a policy type outside
    the four, which the start-up check lets through when it is negative, a
    page URL that does not parse under the hostname type, or rule lists
    that do not load under the filter-list type) panics
    after the URL was appended to the history and the instrumentation
    script id was cleared: the target keeps its previous policy, and no
    policy id is added to the session. *)
Theorem navReset_panics_half_way (id pageURL : string) (w : World.t) :
  let tg := World.target w in
  let cc := World.chromeClient w in
  (ChromeClient.policyType cc < 0)%Z
  \/ (policyTypeInvalid <= ChromeClient.policyType cc)%Z
  \/ (ChromeClient.policyType cc = policyTypeHostname
      /\ url_Parse pageURL = None)
  \/ (ChromeClient.policyType cc = policyTypeFilterList
      /\ matcherLoads = false) ->
  exists msg,
    navReset url_Parse matcherLoads id pageURL w
    = (World.mk
         (Target.mk (Target.TargetId tg) (Target.NavHistory tg ++ [pageURL])
            (Target.Policy tg) "")
         cc (World.sent w),
       Panic (LogPanic msg)).
Proof.
  intros tg cc Hbad.
  unfold navReset, bindH, getTarget, setTarget, getClient, ret, fail.
  cbn [World.target World.chromeClient World.sent]. fold tg cc.
  unfold policyTypeInvalid, policyTypeTrusting, policyTypeUntrusting,
    policyTypeHostname, policyTypeFilterList in *.
  destruct (Z.eqb_spec (ChromeClient.policyType cc) 0);
    [exfalso; intuition lia|].
  destruct (Z.eqb_spec (ChromeClient.policyType cc) 1);
    [exfalso; intuition lia|].
  destruct (Z.eqb_spec (ChromeClient.policyType cc) 2) as [H2 | H2].
  - destruct Hbad as [Hb | [Hb | [[_ Hnone] | [Hb _]]]];
      try (exfalso; lia).
    rewrite Hnone. eexists. reflexivity.
  - destruct (Z.eqb_spec (ChromeClient.policyType cc) 3) as [H3 | H3].
    + destruct Hbad as [Hb | [Hb | [[Hb _] | [_ Hnone]]]];
        try (exfalso; lia).
      rewrite Hnone. eexists. reflexivity.
    + eexists. reflexivity.
Qed.

End NavigationProperties.

(** ** The pause handler on a connection that answers *)

Section PauseHandlerSuccess.

Variable respond : list Request -> Request -> option string.
Variable now : Z.

(** Every request is answered, and a compiled script comes with an
    id. *)
Hypothesis answered : forall sent r, respond sent r <> None.
Hypothesis compiled :
  forall sent expression,
    respond sent (RuntimeCompileScript expression) <> Some "".



End PauseHandlerSuccess.

(** * Protocol messages *)

(** A panic of the Go run time, as opposed to a [log.Panic]. *)
Inductive runtimePanic : Type :=
| TypeAssertion
| NilDereference.

Inductive run (A : Type) : Type :=
| Returns (a : A)
| Panics (e : runtimePanic).

Arguments Returns {A} a.
Arguments Panics {A} e.

Definition andThen {A B : Type} (r : run A) (k : A -> run B) : run B :=
  match r with
  | Returns a => k a
  | Panics e => Panics e
  end.

Section Messages.

(** [float64] and the conversion [int(c)] are parameters. *)
Variable Float : Type.
Variable truncate : Float -> Z.

(** A value of type [interface{}] as the JSON decoder builds it; [DNil]
    is the nil interface. *)
#[local] Set Warnings "-register-all".
Inductive Dyn : Type :=
| DNil
| DInt (z : Z)
| DFloat (f : Float)
| DBool (b : bool)
| DString (s : string)
| DArray (l : list Dyn)
| DMap (m : list (string * Dyn)).

(** [Message] is a map, nil included; a map is kept as the list of its
    entries, looked up from the front. *)
Definition Message : Type := option (list (string * Dyn)).

Fixpoint entry (m : list (string * Dyn)) (k : string) : option Dyn :=
  match m with
  | [] => None
  | (k', v) :: rest => if String.eqb k' k then Some v else entry rest k
  end.

(** [p[k]] with its [ok] flag: reading a nil map finds nothing. *)
Definition index (p : Message) (k : string) : option Dyn :=
  match p with
  | None => None
  | Some m => entry m k
  end.

Definition Message_Int (p : Message) (k : string) : Z :=
  match index p k with
  | Some (DInt c) => c
  | Some (DFloat c) => truncate c
  | _ => 0%Z
  end.

Definition Message_Bool (p : Message) (k : string) : bool :=
  match index p k with
  | Some (DBool c) => c
  | _ => false
  end.

Definition Message_String (p : Message) (k : string) : string :=
  match index p k with
  | Some (DString v) => v
  | _ => ""
  end.

(** The loop of unchecked assertions [x.(string)]. *)
Fixpoint assertStrings (xv : list Dyn) : run (list string) :=
  match xv with
  | [] => Returns []
  | DString x :: rest =>
      andThen (assertStrings rest) (fun sv => Returns (x :: sv))
  | _ :: _ => Panics TypeAssertion
  end.

(** [Strings]: [None] is the nil slice. *)
Definition Message_Strings (p : Message) (k : string)
  : run (option (list string)) :=
  match index p k with
  | None => Returns None
  | Some (DArray xv) => andThen (assertStrings xv) (fun sv => Returns (Some sv))
  | Some _ => Panics TypeAssertion
  end.

Definition Message_Message (p : Message) (k : string) : run Message :=
  match index p k with
  | None => Returns None
  | Some (DMap m) => Returns (Some m)
  | Some _ => Panics TypeAssertion
  end.

Fixpoint assertMessages (xv : list Dyn) : run (list Message) :=
  match xv with
  | [] => Returns []
  | DMap m :: rest =>
      andThen (assertMessages rest) (fun mv => Returns (Some m :: mv))
  | _ :: _ => Panics TypeAssertion
  end.

Definition Message_Messages (p : Message) (k : string)
  : run (option (list Message)) :=
  match index p k with
  | None => Returns None
  | Some (DArray xv) =>
      andThen (assertMessages xv) (fun mv => Returns (Some mv))
  | Some _ => Panics TypeAssertion
  end.

(** ** The decoders of the event structs *)

Definition NewNetworkRequest (p : Message) : NetworkRequest.t :=
  NetworkRequest.mk (Message_String p "url") (Message_String p "method")
    (Message_Bool p "hasPostData") (Message_Bool p "isLinkPreload").

Definition NewCallFrame (p : Message) : CallFrame.t :=
  CallFrame.mk (Message_String p "functionName") (Message_String p "scriptId")
    (Message_String p "url") (Message_Int p "lineNumber")
    (Message_Int p "columnNumber").

(** The elements a [range] over a possibly nil slice visits. *)
Definition elements {A : Type} (s : option (list A)) : list A :=
  match s with
  | Some l => l
  | None => []
  end.

(** [NewStackTrace] on a non-nil message, by recursion on the message
    held under "parent". *)
Fixpoint stackTraceOf (d : Dyn) : run (option StackTrace.t) :=
  match d with
  | DMap m =>
      andThen (Message_Messages (Some m) "callFrames") (fun cfms =>
      andThen
        ((fix parentOf (entries : list (string * Dyn))
            : run (option StackTrace.t) :=
            match entries with
            | [] => Returns None
            | (k, v) :: rest =>
                if String.eqb k "parent"
                then match v with
                     | DMap _ => stackTraceOf v
                     | _ => Panics TypeAssertion
                     end
                else parentOf rest
            end) m)
        (fun parent =>
           Returns
             (Some (StackTrace.mk (Message_String (Some m) "description")
                      (map NewCallFrame (elements cfms)) parent
                      (Message_String (Some m) "parentId")))))
  | _ => Panics TypeAssertion
  end.

Definition NewStackTrace (p : Message) : run (option StackTrace.t) :=
  match p with
  | None => Returns None
  | Some m => stackTraceOf (DMap m)
  end.

Definition NewInitiator (p : Message) : run Initiator.t :=
  andThen (Message_Message p "stack") (fun stack =>
  andThen (NewStackTrace stack) (fun st =>
  Returns (Initiator.mk (Message_String p "type") st (Message_String p "url")
             (Message_Int p "lineNumber")))).

(** The equation of [NewStackTrace] as the source writes it: the call
    frames, then the recursive call on [p.Message("parent")]. *)
Lemma NewStackTrace_equation (m : list (string * Dyn)) :
  NewStackTrace (Some m)
  = andThen (Message_Messages (Some m) "callFrames") (fun cfms =>
    andThen (andThen (Message_Message (Some m) "parent") NewStackTrace)
      (fun parent =>
         Returns
           (Some (StackTrace.mk (Message_String (Some m) "description")
                    (map NewCallFrame (elements cfms)) parent
                    (Message_String (Some m) "parentId"))))).
Proof.
  unfold NewStackTrace at 1. simpl stackTraceOf.
  destruct (Message_Messages (Some m) "callFrames") as [cfms|e];
    [|reflexivity].
  simpl andThen. f_equal.
  unfold Message_Message, index.
  induction m as [|[k v] rest IH]; simpl; [reflexivity|].
  destruct (String.eqb k "parent"); [|exact IH].
  destruct v; reflexivity.
Qed.

(** [networkRequestWillBeSent] on the notification as it arrives: the
    initiator is decoded, its script ids are collected, and only then is
    the request decoded and the event logged. *)
Definition networkRequestWillBeSentMessage (p : Message) (w : World.t)
  : World.t * run (result unit) :=
  match andThen (Message_Message p "initiator") NewInitiator with
  | Panics e => (w, Panics e)
  | Returns initiator =>
      match requestScriptIds initiator with
      | NilPointerDereference => (w, Panics NilDereference)
      | Deref _ =>
          match Message_Message p "request" with
          | Panics e => (w, Panics e)
          | Returns req =>
              let tg := World.target w in
              let (w', r) :=
                logEvent
                  (VNetworkRequestWillBeSent
                     (NetworkRequestWillBeSentEvent.mk 0
                        (Message_Int p "wallTime")
                        "NetworkRequestWillBeSent"
                        (Policy.Id (Target.Policy tg))
                        (Target.TargetId tg)
                        (Some initiator)
                        (Message_String p "loaderId")
                        (Message_String p "frameId")
                        (Message_Bool p "hasUserGesture")
                        (Message_String p "type")
                        (Message_String p "documentURL")
                        (NewNetworkRequest req)
                        (State (Target.Policy tg))))
                  w in
              (w', Returns r)
          end
      end
  end.

(** The decoded arguments the handler works with. *)
Definition requestWillBeSentParams (p : Message) (initiator : Initiator.t)
  (req : Message) : RequestWillBeSentParams.t :=
  RequestWillBeSentParams.mk initiator (Message_String p "loaderId")
    (Message_String p "frameId") (Message_Bool p "hasUserGesture")
    (Message_String p "type") (Message_String p "documentURL")
    (NewNetworkRequest req) (Message_Int p "wallTime").

(** X23.  The accessors of [Message].  Reading a key the map does not
    hold, or any key of the nil map, gives the zero value: 0, false, the
    empty string, the nil slice, the nil message.  [Int], [Bool] and
    [String] also give the zero value for a value of another dynamic
    type and never panic.  [Message] panics exactly when the key holds
    something that is not a map (the nil value included), and
    [Messages] exactly when it holds something that is not an array or an
    array with an element that is not a map. *)
Theorem Message_accessors (p : Message) (k : string) :
  (index p k = None ->
   Message_Int p k = 0%Z /\ Message_Bool p k = false
   /\ Message_String p k = ""
   /\ Message_Strings p k = Returns None
   /\ Message_Message p k = Returns None
   /\ Message_Messages p k = Returns None)
  /\ (forall v, index p k = Some v ->
        ((forall c, v <> DInt c) -> (forall c, v <> DFloat c) ->
         Message_Int p k = 0%Z)
        /\ ((forall c, v <> DBool c) -> Message_Bool p k = false)
        /\ ((forall c, v <> DString c) -> Message_String p k = ""))
  /\ (Message_Message p k = Panics TypeAssertion <->
      exists v, index p k = Some v /\ forall m, v <> DMap m)
  /\ (Message_Messages p k = Panics TypeAssertion <->
      exists v, index p k = Some v
                /\ forall xv, v = DArray xv ->
                      exists x, In x xv /\ forall m, x <> DMap m).
Proof.
  unfold Message_Int, Message_Bool, Message_String, Message_Strings,
    Message_Message, Message_Messages.
  split; [intros ->; repeat split|]. split; [|split].
  - intros v ->. repeat split.
    + intros Hi Hf. destruct v; try reflexivity;
        [exfalso; exact (Hi _ eq_refl) | exfalso; exact (Hf _ eq_refl)].
    + intros Hb. destruct v; try reflexivity. exfalso. exact (Hb _ eq_refl).
    + intros Hs. destruct v; try reflexivity. exfalso. exact (Hs _ eq_refl).
  - destruct (index p k) as [v|]; [|split; [discriminate|]].
    + destruct v; split; try discriminate;
        try (intros _; eexists; split; [reflexivity | discriminate]);
        try reflexivity.
      intros [v [[= <-] Hm]]. exfalso. exact (Hm _ eq_refl).
    + intros [v [H _]]. discriminate.
  - destruct (index p k) as [v|]; [|split; [discriminate|]].
    + assert (Harr : forall xv,
                assertMessages xv = Panics TypeAssertion <->
                exists x, In x xv /\ forall m, x <> DMap m).
      { induction xv as [|x xv IH]; simpl.
        - split; [discriminate | intros [x [[] _]]].
        - destruct x;
            try (split; [intros _; eexists; split;
                         [left; reflexivity | discriminate]
                        | reflexivity]).
          destruct (assertMessages xv) as [mv|[]] eqn:E; simpl.
          + split; [discriminate|].
            intros [x [[<- | Hx] Hm]]; [exfalso; exact (Hm _ eq_refl)|].
            assert (Hp : Returns mv = Panics TypeAssertion)
              by (apply IH; exists x; auto).
            discriminate.
          + split; [|reflexivity]. intros _.
            destruct (proj1 IH eq_refl) as [x [Hx Hm]].
            exists x. split; [right; exact Hx | exact Hm].
          + split; [discriminate|].
            intros [x [[<- | Hx] Hm]]; [exfalso; exact (Hm _ eq_refl)|].
            assert (Hp : Panics NilDereference = Panics TypeAssertion)
              by (apply IH; exists x; auto).
            discriminate. }
      destruct v;
        try (split; [intros _; eexists; split;
                     [reflexivity | discriminate]
                    | reflexivity]).
      split.
      * intros H. exists (DArray l). split; [reflexivity|].
        intros xv [= <-]. apply Harr.
        destruct (assertMessages l) as [mv|e]; [discriminate|].
        simpl in H. injection H as ->. reflexivity.
      * intros [v [[= <-] Hx]]. specialize (Hx l eq_refl).
        apply Harr in Hx. rewrite Hx. reflexivity.
    + intros [v [H _]]. discriminate.
Qed.

(** X24.  From the notification to the fault.  A
    [Network.requestWillBeSent] notification whose initiator holds a
    "stack" object without a "parent" and without call frames (the key
    "callFrames" absent or holding the empty array) decodes to a non-nil
    initiator whose stack trace has no frame and a nil parent, and the
    handler then faults with a nil-pointer dereference before the request
    is decoded: nothing is logged and the world is left as it was, whatever
    the rest of the notification holds. *)
Theorem requestWillBeSent_notification_without_frames_faults
  (p : Message) (im sm : list (string * Dyn)) (w : World.t) :
  index p "initiator" = Some (DMap im) ->
  entry im "stack" = Some (DMap sm) ->
  entry sm "parent" = None ->
  entry sm "callFrames" = None \/ entry sm "callFrames" = Some (DArray []) ->
  NewInitiator (Some im)
  = Returns
      (Initiator.mk (Message_String (Some im) "type")
         (Some (StackTrace.mk (Message_String (Some sm) "description") []
                  None (Message_String (Some sm) "parentId")))
         (Message_String (Some im) "url") (Message_Int (Some im) "lineNumber"))
  /\ networkRequestWillBeSentMessage p w = (w, Panics NilDereference).
Proof.
  intros Hini Hstack Hparent Hframes.
  assert (Hdecode :
    NewInitiator (Some im)
    = Returns
        (Initiator.mk (Message_String (Some im) "type")
           (Some (StackTrace.mk (Message_String (Some sm) "description") []
                    None (Message_String (Some sm) "parentId")))
           (Message_String (Some im) "url")
           (Message_Int (Some im) "lineNumber"))).
  { assert (Hs : Message_Message (Some im) "stack" = Returns (Some sm))
      by (unfold Message_Message, index; rewrite Hstack; reflexivity).
    assert (Hst : NewStackTrace (Some sm)
                  = Returns
                      (Some (StackTrace.mk
                               (Message_String (Some sm) "description") []
                               None (Message_String (Some sm) "parentId")))).
    { rewrite NewStackTrace_equation.
      unfold Message_Messages, Message_Message, index. rewrite Hparent.
      destruct Hframes as [-> | ->]; reflexivity. }
    unfold NewInitiator. rewrite Hs. cbn [andThen]. rewrite Hst.
    reflexivity. }
  split; [exact Hdecode|].
  assert (Hi : Message_Message p "initiator" = Returns (Some im))
    by (unfold Message_Message; rewrite Hini; reflexivity).
  unfold networkRequestWillBeSentMessage.
  rewrite Hi. cbn [andThen]. rewrite Hdecode. reflexivity.
Qed.

(** When the notification decodes and the initiator passes, the handler
    on the notification is the handler on the decoded arguments. *)
Lemma networkRequestWillBeSentMessage_decoded (p : Message)
  (ini : Message) (initiator : Initiator.t) (req : Message)
  (scriptIds : list string) (w : World.t) :
  Message_Message p "initiator" = Returns ini ->
  NewInitiator ini = Returns initiator ->
  requestScriptIds initiator = Deref scriptIds ->
  Message_Message p "request" = Returns req ->
  networkRequestWillBeSentMessage p w
  = (fst (networkRequestWillBeSent
            (requestWillBeSentParams p initiator req) w),
     Returns (Ok tt))
  /\ snd (networkRequestWillBeSent
            (requestWillBeSentParams p initiator req) w)
     = Deref (Ok tt).
Proof.
  intros Hi Hn Hs Hr.
  unfold networkRequestWillBeSentMessage, networkRequestWillBeSent.
  rewrite Hi. cbn [andThen]. rewrite Hn.
  cbn [RequestWillBeSentParams.initiator requestWillBeSentParams].
  rewrite Hs, Hr. split; reflexivity.
Qed.

End Messages.

(** * The further properties at work on samples *)

(** The hostname policy of the samples with script 1 in the trusted and
    script 7 in the untrusted group. *)
Definition hostnamePolicyWith1And7 : Policy.t :=
  hostnamePolicy "p" ["http://localhost:8080"]
    [RemoteScript.mk "1" "http://localhost:8080/static/a.js"] []
    [RemoteScript.mk "7" "https://evil.example/x.js"] [].

(** Three handler calls of one session: a document request, an access
    by script 7, a request started from script 7. *)
Definition threeCalls : list Value :=
  [requestEvent "p" noStackInitiator "Document" "http://localhost:8080/page"
     untrustingState;
   accessEvent "p" "document_cookie" ["7"] untrustingState;
   requestEvent "p" (scriptInitiator ["7"]) "XHR" "https://httpbin.org/get"
     untrustingState].

Lemma Register_keeps_other_verdicts_witness :
  StackIsTrusted
    (State (fst (RegisterRemoteScript sampleParse sampleMatch
                   hostnamePolicyWith1And7 "8"
                   "http://localhost:8080/static/b.js" None))) ["1"; "7"]
  = StackIsTrusted (State hostnamePolicyWith1And7) ["1"; "7"].
Proof.
  apply (proj1 (proj2
    (Register_keeps_other_verdicts sampleParse sampleMatch
       hostnamePolicyWith1And7 "8" "http://localhost:8080/static/b.js" None
       ["1"; "7"]
       ltac:(intros [H | [H | []]]; discriminate)))).
Defined.

Lemma Register_then_lookup_witness :
  exists tg,
    nth_error (Policy.trustGroups hostnamePolicyWith1And7) 0 = Some tg
    /\ resolved
         (fst (RegisterRemoteScript sampleParse sampleMatch
                 hostnamePolicyWith1And7 "8"
                 "http://localhost:8080/static/b.js" None)) "8"
       = Some (0, TrustGroup.Trusted tg).
Proof.
  apply (proj1
    (Register_then_lookup sampleParse sampleMatch hostnamePolicyWith1And7
       "8" "http://localhost:8080/static/b.js" None 0 eq_refl)).
  reflexivity.
Defined.

Lemma inherited_script_is_distrusted_witness :
  StackIsTrusted
    (State (fst (RegisterRemoteScript sampleParse sampleMatch
                   hostnamePolicyWith1And7 "8"
                   "http://localhost:8080/static/b.js"
                   (Some (StackTrace.mk "" [frameOf "7"] None "")))))
    ["1"; "8"]
  = false.
Proof.
  apply (proj1
    (inherited_script_is_distrusted sampleParse sampleMatch
       hostnamePolicyWith1And7 "8" "http://localhost:8080/static/b.js"
       (Some (StackTrace.mk "" [frameOf "7"] None "")) 1 ["1"; "8"]
       eq_refl eq_refl ltac:(right; left; reflexivity))).
Defined.

Lemma TrustedScriptIds_are_trusted_witness :
  TrustedScriptIds hostnamePolicyWith1And7 = ["1"]
  /\ StackIsTrusted (State hostnamePolicyWith1And7) ["1"; "1"] = true.
Proof.
  apply (TrustedScriptIds_are_trusted hostnamePolicyWith1And7 []
           [TrustGroup.mk
              (UniversalScriptSet
                 [RemoteScript.mk "7" "https://evil.example/x.js"] [])
              false false]
           (TrustGroup.mk
              (HostnameScriptSet ["http://localhost:8080"]
                 [RemoteScript.mk "1" "http://localhost:8080/static/a.js"] [])
              true false)
           ["1"; "1"]).
  - reflexivity.
  - intros g [].
  - reflexivity.
  - intros sid [<- | [<- | []]]; (split; [left; reflexivity | intros g []]).
Defined.

Lemma session_views_strictly_increasing_witness :
  StronglySorted Z.lt
    (map NetworkRequestWillBeSentEvent.EventId
       (NetworkRequestWillBeSentLogs
          (fst (LogEvents (NewChromeClient "run" 1 "" "logs") threeCalls))
          "p")).
Proof.
  apply (proj1
    (session_views_strictly_increasing "run" "" "logs" 1 threeCalls "p"
       ltac:(vm_compute; reflexivity))).
Defined.

Lemma violation_needs_tainting_event_witness :
  NetworkRequestWillBeSentLogs (scenarioD ["7"]) "p" <> []
  /\ exists taintingEvent,
       findTaintingEvent (APIAccessLogs (scenarioD ["7"]) "p")
       = Some taintingEvent
       /\ In taintingEvent (APIAccessLogs (scenarioD ["7"]) "p")
       /\ isProbe taintingEvent = false
       /\ StackIsTrusted (APIAccessEvent.PolicyState taintingEvent)
            (APIAccessEvent.ScriptIdStack taintingEvent) = false
       /\ PolicyAnalysis.TaintingAPIName (AnalyzePolicy (scenarioD ["7"]) "p")
          = APIAccessEvent.APIName taintingEvent.
Proof.
  apply (violation_needs_tainting_event (scenarioD ["7"]) "p").
  vm_compute. reflexivity.
Defined.

Lemma later_checks_only_move_earlier_witness :
  reported 3
    (probeCheck 3
       (primaryCheck 3 (PolicyAnalysis.mk "p" "" false "" "" "" "" [])
          (NetworkRequestWillBeSentLogs (scenarioD ["7"]) "p"))
       (APIAccessLogs (scenarioD ["7"]) "p"))
  /\ (snd (probeCheck 3
             (primaryCheck 3 (PolicyAnalysis.mk "p" "" false "" "" "" "" [])
                (NetworkRequestWillBeSentLogs (scenarioD ["7"]) "p"))
             (APIAccessLogs (scenarioD ["7"]) "p"))
      <= snd (primaryCheck 3 (PolicyAnalysis.mk "p" "" false "" "" "" "" [])
                (NetworkRequestWillBeSentLogs (scenarioD ["7"]) "p")))%Z.
Proof.
  apply (proj1 (proj2
    (later_checks_only_move_earlier (scenarioD ["7"]) 3
       (PolicyAnalysis.mk "p" "" false "" "" "" "" [])
       (NetworkRequestWillBeSentLogs (scenarioD ["7"]) "p")
       (APIAccessLogs (scenarioD ["7"]) "p") ["p"] eq_refl))).
  vm_compute. reflexivity.
Defined.

Lemma primaryCheck_reports_least_event_id_witness :
  exists e ini st,
    In e (NetworkRequestWillBeSentLogs
            (fst (LogEvents (NewChromeClient "run" 1 "" "logs") threeCalls))
            "p")
    /\ primaryViolation 1 e
    /\ primaryCheck 1 (PolicyAnalysis.mk "p" "" false "" "" "" "" [])
         (NetworkRequestWillBeSentLogs
            (fst (LogEvents (NewChromeClient "run" 1 "" "logs") threeCalls))
            "p")
       = primaryRecord (PolicyAnalysis.mk "p" "" false "" "" "" "" []) e ini st
    /\ (NetworkRequestWillBeSentEvent.EventId e <= 2)%Z.
Proof.
  apply (primaryCheck_reports_least_event_id "run" "" "logs" 1 threeCalls
           "p" 1 (PolicyAnalysis.mk "p" "" false "" "" "" "" [])
           (requestRecord 2 "p" (scriptInitiator ["7"]) "XHR"
              "https://httpbin.org/get" untrustingState)).
  - vm_compute. reflexivity.
  - right. left. reflexivity.
  - eexists _, _. split; [reflexivity|]. split; [reflexivity|].
    split; [simpl; lia|].
    exists (frameOf "7"),
      (TrustGroupState.mk false [] [InlineScript.mk "7" "h7"]).
    split; [left; reflexivity|]. split; reflexivity.
Defined.

(** A request started from script 7, as the notification decodes. *)
Definition requestFrom7 : RequestWillBeSentParams.t :=
  RequestWillBeSentParams.mk
    (Initiator.mk "script" (Some (StackTrace.mk "" [frameOf "7"] None ""))
       "" 0)
    "loader" "frame" false "XHR" "http://localhost:8080/page"
    (NetworkRequest.mk "https://httpbin.org/get" "GET" false false) 0.

Lemma networkRequestWillBeSent_logs_request_witness :
  snd (networkRequestWillBeSent requestFrom7 freshWorld) = Deref (Ok tt)
  /\ List.length
       (NetworkRequestWillBeSentLogs
          (World.chromeClient
             (fst (networkRequestWillBeSent requestFrom7 freshWorld))) "p")
     = 1%nat.
Proof.
  destruct (networkRequestWillBeSent_logs_request requestFrom7 freshWorld
              ltac:(intros st [= <-] H; discriminate)) as [Hrun Hview].
  split; [exact (f_equal snd Hrun) | exact (f_equal (@List.length _) Hview)].
Defined.

Lemma navReset_installs_fresh_policy_witness :
  exists policy,
    fst (navReset sampleParse true "q" "http://localhost:8080/next" freshWorld)
    = World.mk
        (Target.mk "target"
           ["http://localhost:8080/page"; "http://localhost:8080/next"]
           policy "")
        (ChromeClient.mk "run" 2 [] 0 ["q"] "debugger;" [] "logs")
        []
    /\ Policy.Id policy = "q"
    /\ (forall stack, StackIsTrusted (State policy) stack = true <-> stack = []).
Proof.
  destruct (navReset_installs_fresh_policy sampleParse true "q"
              "http://localhost:8080/next" freshWorld
              ltac:(unfold policyTypeInvalid; simpl; lia)
              ltac:(intros _; discriminate)
              ltac:(intros H; discriminate))
    as [policy [Hrun [Hid [_ [_ [Htrust _]]]]]].
  exists policy. rewrite Hrun. auto.
Defined.

(** A target of a session started with the policy flag -1. *)
Definition negativePolicyWorld : World.t :=
  World.mk
    (Target.mk "target" ["http://localhost:8080/page"]
       (NewTrustingPolicy "p") "42")
    (NewChromeClient "run" (-1) "debugger;" "logs")
    [].

Lemma navReset_panics_half_way_witness :
  exists msg,
    navReset sampleParse true "q" "http://localhost:8080/next"
      negativePolicyWorld
    = (World.mk
         (Target.mk "target"
            ["http://localhost:8080/page"; "http://localhost:8080/next"]
            (NewTrustingPolicy "p") "")
         (NewChromeClient "run" (-1) "debugger;" "logs") [],
       Panic (LogPanic msg)).
Proof.
  apply (navReset_panics_half_way sampleParse true "q"
           "http://localhost:8080/next" negativePolicyWorld).
  left. reflexivity.
Defined.


(** A notification whose initiator stack is an object with an empty
    array of call frames and nothing else. *)
Definition frameLessNotification : Message unit :=
  Some [("initiator",
         DMap unit
           [("type", DString unit "script");
            ("stack", DMap unit [("callFrames", DArray unit [])])]);
        ("type", DString unit "XHR")].

Lemma requestWillBeSent_notification_without_frames_faults_witness :
  networkRequestWillBeSentMessage unit (fun _ => 0%Z) frameLessNotification
    freshWorld
  = (freshWorld, Panics NilDereference).
Proof.
  apply (proj2
    (requestWillBeSent_notification_without_frames_faults unit (fun _ => 0%Z)
       frameLessNotification
       [("type", DString unit "script");
        ("stack", DMap unit [("callFrames", DArray unit [])])]
       [("callFrames", DArray unit [])]
       freshWorld eq_refl eq_refl eq_refl (or_intror eq_refl))).
Defined.
